(** * newk-plugin-bundle-optimization: a shallow embedding of the optimisation core

    The development follows the TypeScript sources:
    - [SmartRecovery.ts]          the binary-search recovery engine,
    - [SmartBundleOptimizer.ts]   the phase orchestrator (zulu, alpha, beta, charlie),
    - [TreeDrivenOptimizer.ts]    the nuclear optimizer (delete, stub, restore,
                                  the reconstruction loop) and the tree-driven
                                  build decisions,
    - [ComponentUsageAnalyzer.ts] the usage classifier, the elimination and the
                                  refinements,
    - [AutomatedValidator.ts]     the port scan, the server life cycle and the
                                  route validation.

    Asynchronous methods become computations in a small state-and-exception
    monad; the working tree, the console and the shared [recoverySteps] array
    live in the state.  External collaborators (file system, build, validator,
    Babel) are parameters of the sections that use them. *)

From stdpp Require Import gmap strings list.
From Stdlib Require Import Ascii Lia.

Open Scope string_scope.
Open Scope list_scope.
Open Scope nat_scope.

(** ** JavaScript helpers *)

(** [Math.ceil(n / 2)] on a length. *)
Definition ceilHalf (n : nat) : nat := Nat.div2 (S n).

(** [Array.prototype.includes] on strings. *)
Definition includes (l : list string) (x : string) : bool := bool_decide (x ∈ l).

Fixpoint dropChars (n : nat) (s : string) : string :=
  match n, s with
  | S n', String _ s' => dropChars n' s'
  | _, _ => s
  end.

(** [s.replace(pat, rep)] with a string pattern: the first occurrence only. *)
Fixpoint replaceFirst (pat rep s : string) : string :=
  if String.prefix pat s then rep +:+ dropChars (String.length pat) s
  else match s with
       | EmptyString => EmptyString
       | String c s' => String c (replaceFirst pat rep s')
       end.

(** [path.join(a, b)] for the already normalised segments the sources pass. *)
Definition pathJoin (a b : string) : string := a +:+ "/" +:+ b.

(** [s.replace(/-/g, '_')] *)
Fixpoint hyphensToUnderscores (s : string) : string :=
  match s with
  | EmptyString => EmptyString
  | String c s' =>
      String (if decide (c = "-"%char) then "_"%char else c) (hyphensToUnderscores s')
  end.

(** [s.split('/')] *)
Fixpoint splitSlash (s : string) (current : string) : list string :=
  match s with
  | EmptyString => [current]
  | String c s' =>
      if decide (c = "/"%char) then current :: splitSlash s' ""
      else splitSlash s' (current +:+ String c "")
  end.

(** [parts.join(sep)] *)
Fixpoint joinWith (sep : string) (parts : list string) : string :=
  match parts with
  | [] => ""
  | [p] => p
  | p :: rest => p +:+ sep +:+ joinWith sep rest
  end.

Definition lastSegment (s : string) : string := List.last (splitSlash s "") "".

(** The index of the last dot of [s], if any. *)
Fixpoint lastDot (s : string) (i : nat) (found : option nat) : option nat :=
  match s with
  | EmptyString => found
  | String c s' => lastDot s' (S i) (if decide (c = "."%char) then Some i else found)
  end.

(** [path.extname(p)]: from the last dot of the last segment, unless that dot
    is the segment's first character. *)
Definition extname (p : string) : string :=
  let base := lastSegment p in
  match lastDot base 0 None with
  | Some (S i) => dropChars (S i) base
  | _ => ""
  end.

Definition stripSuffix (suffix s : string) : string :=
  let n := String.length s - String.length suffix in
  if bool_decide (dropChars n s = suffix) && bool_decide (s ≠ suffix)
  then String.substring 0 n s else s.

(** [path.basename(p, ext)] *)
Definition basename (p ext : string) : string := stripSuffix ext (lastSegment p).

(** A JavaScript [Map] with string keys: entries in insertion order, one per key. *)
Definition JsMap (V : Type) : Type := list (string * V).

Fixpoint mapGet {V} (m : JsMap V) (k : string) : option V :=
  match m with
  | [] => None
  | (k', v) :: m' => if decide (k' = k) then Some v else mapGet m' k
  end.

Fixpoint mapSet {V} (k : string) (v : V) (m : JsMap V) : JsMap V :=
  match m with
  | [] => [(k, v)]
  | (k', v') :: m' => if decide (k' = k) then (k, v) :: m' else (k', v') :: mapSet k v m'
  end.

Definition mapHas {V} (m : JsMap V) (k : string) : bool := bool_decide (is_Some (mapGet m k)).

Definition mapKeys {V} (m : JsMap V) : list string := m.*1.

(** [Set.prototype.add] on an insertion-ordered set of strings. *)
Definition setAdd (x : string) (s : list string) : list string :=
  if bool_decide (x ∈ s) then s else s ++ [x].

Definition newline : string := String (Ascii.ascii_of_nat 10) "".

(** [s.includes(pat)] *)
Fixpoint stringIncludes (pat s : string) : bool :=
  String.prefix pat s
  || match s with
     | EmptyString => false
     | String _ s' => stringIncludes pat s'
     end.

(** An ASCII capital letter: the class [[A-Z]]. *)
Definition isUpper (c : ascii) : bool :=
  (65 <=? nat_of_ascii c) && (nat_of_ascii c <=? 90).

(** [s.toLowerCase()] on ASCII text, which is what component names are; other
    characters are left alone. *)
Fixpoint toLowerCase (s : string) : string :=
  match s with
  | EmptyString => EmptyString
  | String c s' =>
      String (if isUpper c then ascii_of_nat (nat_of_ascii c + 32) else c) (toLowerCase s')
  end.

(** [s.replace(/([A-Z])/g, '-$1')] *)
Fixpoint hyphenateCapitals (s : string) : string :=
  match s with
  | EmptyString => EmptyString
  | String c s' =>
      if isUpper c then String "-" (String c (hyphenateCapitals s'))
      else String c (hyphenateCapitals s')
  end.

(** ** Shared data model (SmartBundleOptimizer.ts, SmartRecovery.ts) *)

Inductive OptimizationMode := ModeSmart | ModeAggressive | ModeRecovery | ModeNuclear.
Inductive OptimizationPhase := zulu | alpha | beta | charlie.

Global Instance OptimizationPhase_eq_dec : EqDecision OptimizationPhase.
Proof. solve_decision. Defined.
Global Instance OptimizationMode_eq_dec : EqDecision OptimizationMode.
Proof. solve_decision. Defined.

Record PhaseMetrics := {
  bundleSize : string;
  dependencyCount : nat;
  componentCount : nat;
  buildTime : nat
}.

Record PhaseChanges := {
  eliminatedComponents : list string;
  eliminatedDependencies : list string;
  changes_restoredComponents : list string
}.

Record PhaseResult := {
  phase : OptimizationPhase;
  phase_success : bool;
  metrics : PhaseMetrics;
  changes : PhaseChanges;
  phase_errors : list string
}.

Definition noChanges : PhaseChanges :=
  {| eliminatedComponents := []; eliminatedDependencies := [];
     changes_restoredComponents := [] |}.

Inductive RecoveryStrategy := conservative | aggressive | balanced.

Record RecoveryConfig := {
  maxIterations : nat;
  testEachIteration : bool;
  preserveCritical : list string;
  recoveryStrategy : RecoveryStrategy
}.

(** [Partial<RecoveryConfig>]: every field may be absent. *)
Record PartialRecoveryConfig := {
  opt_maxIterations : option nat;
  opt_testEachIteration : option bool;
  opt_preserveCritical : option (list string);
  opt_recoveryStrategy : option RecoveryStrategy
}.

Inductive StepAction := ActRemove | ActRestore | ActTest.

Record RecoveryStep := {
  iteration : nat;
  action : StepAction;
  components : list string;
  dependencies : list string;
  step_success : bool;
  step_errors : list string
}.

(** The fields of [ValidationResult] the engine reads. *)
Record ValidationResult := {
  vr_success : bool;
  vr_errors : list string
}.

Record RecoveryResult (BundleMetrics : Type) := {
  success : bool;
  minimalDependencies : list string;
  minimalComponents : list string;
  restoredComponents : list string;
  totalIterations : nat;
  finalMetrics : option BundleMetrics;
  recoverySteps : list RecoveryStep;
  errors : list string;
  performance : option ValidationResult
}.
Arguments success {_} _.
Arguments minimalDependencies {_} _.
Arguments minimalComponents {_} _.
Arguments restoredComponents {_} _.
Arguments totalIterations {_} _.
Arguments finalMetrics {_} _.
Arguments recoverySteps {_} _.
Arguments errors {_} _.
Arguments performance {_} _.

(** ** Effects

    What a run does to the outside world, in order: the iteration banner the
    recovery loop prints, the calls that mutate the tree, and the probes; for
    the orchestrator, the banner that opens a phase and the hand-over to the
    phase's engine (baseline capture, elimination, refinement, recovery).  A
    probe carries the call site it was issued from. *)

Inductive ProbeSite := OuterProbe | MinimizeProbe | FinalProbe.

Inductive Event :=
| EvIteration (n size : nat)
| EvRestore (comps : list string)
| EvRemove (comps : list string)
| EvProbe (site : ProbeSite) (ok : bool)
| EvReachedMax
| EvPhaseStart (p : OptimizationPhase)
| EvPhaseWork (p : OptimizationPhase).

Global Instance ProbeSite_eq_dec : EqDecision ProbeSite.
Proof. solve_decision. Defined.
Global Instance Event_eq_dec : EqDecision Event.
Proof. solve_decision. Defined.

Inductive Outcome (A : Type) :=
| Return (a : A)
| Throw (msg : string).
Arguments Return {_} _.
Arguments Throw {_} _.

Module SmartRecovery.

(** The collaborators the engine calls, over an abstract working tree. *)
Class Collaborators (Tree BundleMetrics : Type) := {
  (** [fs.access(path)] resolves. *)
  fs_access : string → Tree → bool;
  (** [fs.rename(from, to)]: the new tree, or the message of the rejection. *)
  fs_rename : string → string → Tree → Tree + string;
  (** The glob-and-rewrite of [removeImportStatements]; per-file failures are
      caught inside, a failing glob rejects. *)
  rewriteImports : string → list string → Tree → Tree + string;
  (** [npm run build]: [None] when it succeeds, the error message otherwise. *)
  npmRunBuild : string → Tree → option string;
  (** [BundleMetricsTracker.captureMetrics(projectPath, phase)]. *)
  captureMetrics : string → string → Tree → BundleMetrics + string
}.

(** [AutomatedValidator], as far as the engine uses it. *)
Record Validator (Tree : Type) := {
  quickValidation : string → Tree → ValidationResult + string;
  validateApplication : string → Tree → ValidationResult + string
}.
Arguments quickValidation {_} _ _ _.
Arguments validateApplication {_} _ _ _.

Section Engine.

Context {Tree BundleMetrics : Type} `{!Collaborators Tree BundleMetrics}.

(** What running a computation from a given tree yields: how it ended, the tree
    it left, what it did to the outside world, and the steps it pushed onto the
    [recoverySteps] array, which [performBinarySearchRecovery] creates empty and
    which is only ever pushed to. *)
Record Run (A : Type) := {
  outcome : Outcome A;
  treeAfter : Tree;
  events : list Event;
  pushed : list RecoveryStep
}.
Arguments outcome {_} _.
Arguments treeAfter {_} _.
Arguments events {_} _.
Arguments pushed {_} _.

Definition M (A : Type) : Type := Tree → Run A.

Definition ret {A} (a : A) : M A :=
  λ t, {| outcome := Return a; treeAfter := t; events := []; pushed := [] |}.
Definition throw {A} (msg : string) : M A :=
  λ t, {| outcome := Throw msg; treeAfter := t; events := []; pushed := [] |}.
Definition bind {A B} (m : M A) (k : A → M B) : M B :=
  λ t, let r := m t in
       match outcome r with
       | Return a =>
           let r' := k a (treeAfter r) in
           {| outcome := outcome r'; treeAfter := treeAfter r';
              events := events r ++ events r'; pushed := pushed r ++ pushed r' |}
       | Throw msg =>
           {| outcome := Throw msg; treeAfter := treeAfter r;
              events := events r; pushed := pushed r |}
       end.
(** [try { m } catch (error) { handler(error.message, recoverySteps) }] around a
    body that returns from inside the [try]; the handler sees what was pushed
    before the rejection. *)
Definition tryCatch {A} (m : M A) (handler : string → list RecoveryStep → M A) : M A :=
  λ t, let r := m t in
       match outcome r with
       | Return a => r
       | Throw msg =>
           let r' := handler msg (pushed r) (treeAfter r) in
           {| outcome := outcome r'; treeAfter := treeAfter r';
              events := events r ++ events r'; pushed := pushed r ++ pushed r' |}
       end.
(** Runs [m] and hands its continuation the steps [m] pushed. *)
Definition withSteps {A B} (m : M A) (k : A → list RecoveryStep → M B) : M B :=
  λ t, let r := m t in
       match outcome r with
       | Return a =>
           let r' := k a (pushed r) (treeAfter r) in
           {| outcome := outcome r'; treeAfter := treeAfter r';
              events := events r ++ events r'; pushed := pushed r ++ pushed r' |}
       | Throw msg =>
           {| outcome := Throw msg; treeAfter := treeAfter r;
              events := events r; pushed := pushed r |}
       end.

(** [recoverySteps] is local to the call that creates it: nothing of it is
    visible to the caller except through the returned value. *)
Definition localSteps {A} (m : M A) : M A :=
  λ t, let r := m t in
       {| outcome := outcome r; treeAfter := treeAfter r; events := events r;
          pushed := [] |}.
(** [try { a = await m } catch (error) { ... }] with the rejection reified. *)
Definition attempt {A} (m : M A) : M (A + string) :=
  λ t, let r := m t in
       {| outcome := Return (match outcome r with
                             | Return a => inl a
                             | Throw msg => inr msg
                             end);
          treeAfter := treeAfter r; events := events r; pushed := pushed r |}.

Notation "'await' x ':=' m 'in' k" := (bind m (λ x, k))
  (at level 10, x name, m at level 100, k at level 200).
Notation "'run' m 'in' k" := (bind m (λ _, k))
  (at level 10, m at level 100, k at level 200).

Definition getTree : M Tree :=
  λ t, {| outcome := Return t; treeAfter := t; events := []; pushed := [] |}.
Definition putTree (t' : Tree) : M unit :=
  λ _, {| outcome := Return tt; treeAfter := t'; events := []; pushed := [] |}.
Definition emit (e : Event) : M unit :=
  λ t, {| outcome := Return tt; treeAfter := t; events := [e]; pushed := [] |}.
Definition pushStep (s : RecoveryStep) : M unit :=
  λ t, {| outcome := Return tt; treeAfter := t; events := []; pushed := [s] |}.

(** *** File lookup *)

Fixpoint firstAccessible (possiblePaths : list string) (t : Tree) : option string :=
  match possiblePaths with
  | [] => None
  | filePath :: rest =>
      if fs_access filePath t then Some filePath else firstAccessible rest t
  end.

Definition unusedPaths (projectPath componentName : string) : list string :=
  [ pathJoin projectPath ("client/src/components/ui/" +:+ componentName +:+ ".tsx.unused");
    pathJoin projectPath ("client/src/components/ui/" +:+ componentName +:+ ".ts.unused");
    pathJoin projectPath ("client/src/components/" +:+ componentName +:+ ".tsx.unused");
    pathJoin projectPath ("client/src/components/" +:+ componentName +:+ ".ts.unused") ].

Definition activePaths (projectPath componentName : string) : list string :=
  [ pathJoin projectPath ("client/src/components/ui/" +:+ componentName +:+ ".tsx");
    pathJoin projectPath ("client/src/components/ui/" +:+ componentName +:+ ".ts");
    pathJoin projectPath ("client/src/components/" +:+ componentName +:+ ".tsx");
    pathJoin projectPath ("client/src/components/" +:+ componentName +:+ ".ts") ].

Definition findUnusedComponent (projectPath componentName : string) : M (option string) :=
  await t := getTree in ret (firstAccessible (unusedPaths projectPath componentName) t).

Definition findActiveComponent (projectPath componentName : string) : M (option string) :=
  await t := getTree in ret (firstAccessible (activePaths projectPath componentName) t).

(** *** restoreComponents / removeComponents *)

(** The [for] loop of [restoreComponents]; [errs] is the local [errors] array. *)
Fixpoint restoreEach (projectPath : string) (comps : list string) (errs : list string)
  : M (list string) :=
  match comps with
  | [] => ret errs
  | component :: rest =>
      await found := findUnusedComponent projectPath component in
      match found with
      | Some componentPath =>
          let originalPath := replaceFirst ".unused" "" componentPath in
          await t := getTree in
          match fs_rename componentPath originalPath t with
          | inl t' => run putTree t' in restoreEach projectPath rest errs
          | inr msg =>
              restoreEach projectPath rest
                (errs ++ ["Failed to restore " +:+ component +:+ ": " +:+ msg])
          end
      | None =>
          restoreEach projectPath rest (errs ++ ["Component file not found: " +:+ component])
      end
  end.

(** [restoreImportStatements] is a placeholder in the source: it only logs. *)
Definition restoreImportStatements (projectPath : string) (comps : list string) : M unit :=
  ret tt.

Definition restoreComponents (projectPath : string) (comps : list string)
  : M (bool * list string) :=
  run emit (EvRestore comps) in
  await errs := restoreEach projectPath comps [] in
  run restoreImportStatements projectPath comps in
  ret (bool_decide (length errs = 0), errs).

Definition removeImportStatements (projectPath : string) (comps : list string) : M unit :=
  await t := getTree in
  match rewriteImports projectPath comps t with
  | inl t' => putTree t'
  | inr msg => throw msg
  end.

Fixpoint removeEach (projectPath : string) (comps : list string) : M unit :=
  match comps with
  | [] => ret tt
  | component :: rest =>
      await found := findActiveComponent projectPath component in
      match found with
      | Some componentPath =>
          await t := getTree in
          match fs_rename componentPath (componentPath +:+ ".unused") t with
          | inl t' => run putTree t' in removeEach projectPath rest
          | inr _ => removeEach projectPath rest
          end
      | None => removeEach projectPath rest
      end
  end.

Definition removeComponents (projectPath : string) (comps : list string) : M unit :=
  run emit (EvRemove comps) in
  run removeEach projectPath comps in
  removeImportStatements projectPath comps.

(** *** testCurrentState *)

Definition testBuildOnly (projectPath : string) : M (bool * list string) :=
  await t := getTree in
  match npmRunBuild projectPath t with
  | None => ret (true, [])
  | Some msg => ret (false, ["Build failed: " +:+ msg])
  end.

Definition testCurrentState (validator : option (Validator Tree)) (projectPath : string)
    (config : RecoveryConfig) (site : ProbeSite) : M (bool * list string) :=
  await result :=
    (match validator with
     | Some v =>
         if negb (testEachIteration config) then testBuildOnly projectPath
         else
           await t := getTree in
           match quickValidation v projectPath t with
           | inl validationResult =>
               ret (vr_success validationResult, vr_errors validationResult)
           | inr msg => ret (false, ["Validation failed: " +:+ msg])
           end
     | None => testBuildOnly projectPath
     end) in
  run emit (EvProbe site (fst result)) in
  ret result.

(** *** minimizeWorkingSet *)

(** The [for] loop of [minimizeWorkingSet]; [necessaryComponents] is the
    accumulator the source pushes to. *)
Fixpoint minimizeEach (validator : option (Validator Tree)) (projectPath : string)
    (config : RecoveryConfig) (workingSet necessaryComponents : list string)
  : M (list string) :=
  match workingSet with
  | [] => ret necessaryComponents
  | component :: rest =>
      run removeComponents projectPath [component] in
      await testResult := testCurrentState validator projectPath config MinimizeProbe in
      if negb (fst testResult) then
        run restoreComponents projectPath [component] in
        minimizeEach validator projectPath config rest (necessaryComponents ++ [component])
      else
        minimizeEach validator projectPath config rest necessaryComponents
  end.

Definition minimizeWorkingSet (validator : option (Validator Tree)) (projectPath : string)
    (workingSet : list string) (config : RecoveryConfig) (baseIteration : nat)
  : M (list string) :=
  minimizeEach validator projectPath config workingSet [].

(** *** binarySearchOptimalSet *)

(** The three locals the [while] loop updates. *)
Record LoopVars := {
  workingSet : list string;
  restored : list string;
  currentIteration : nat
}.

Definition setSuccess (b : bool) (s : RecoveryStep) : RecoveryStep :=
  {| iteration := iteration s; action := action s; components := components s;
     dependencies := dependencies s; step_success := b; step_errors := step_errors s |}.

(** One pass through the body of the [while] loop, up to and including
    [recoverySteps.push(step)]. *)
Definition iterationBody (validator : option (Validator Tree)) (projectPath : string)
    (config : RecoveryConfig) (lv : LoopVars) : M LoopVars :=
  let currentIteration := S (currentIteration lv) in
  run emit (EvIteration currentIteration (length (workingSet lv))) in
  let halfSize := ceilHalf (length (workingSet lv)) in
  let testSet := take halfSize (workingSet lv) in
  let remainingSet := drop halfSize (workingSet lv) in
  await restoreResult := restoreComponents projectPath testSet in
  let step :=
    {| iteration := currentIteration; action := ActRestore; components := testSet;
       dependencies := []; step_success := fst restoreResult;
       step_errors := snd restoreResult |} in
  if fst restoreResult then
    await testResult := testCurrentState validator projectPath config OuterProbe in
    let step := setSuccess (fst testResult) step in
    if fst testResult then
      let restoredComponents := restored lv ++ testSet in
      if bool_decide (1 < length testSet) then
        await actuallyNeeded :=
          minimizeWorkingSet validator projectPath testSet config currentIteration in
        let restoredComponents :=
          filter (λ comp, comp ∉ testSet ∨ comp ∈ actuallyNeeded) restoredComponents
            ++ actuallyNeeded in
        let unnecessary := filter (λ comp, comp ∉ actuallyNeeded) testSet in
        run (if bool_decide (0 < length unnecessary)
             then removeComponents projectPath unnecessary else ret tt) in
        run pushStep step in
        ret {| workingSet := remainingSet; restored := restoredComponents;
               currentIteration := currentIteration |}
      else
        run pushStep step in
        ret {| workingSet := remainingSet; restored := restoredComponents;
               currentIteration := currentIteration |}
    else
      run removeComponents projectPath testSet in
      run pushStep step in
      ret {| workingSet := remainingSet; restored := restored lv;
             currentIteration := currentIteration |}
  else
    run pushStep step in
    ret {| workingSet := remainingSet; restored := restored lv;
           currentIteration := currentIteration |}.

(** The [while] loop.  Every pass shortens [workingSet], so with [fuel] equal
    to its length the loop only ever ends through its own guard or [break]
    (lemma [whileLoop_run] below). *)
Fixpoint whileLoop (fuel : nat) (validator : option (Validator Tree)) (projectPath : string)
    (config : RecoveryConfig) (lv : LoopVars) : M LoopVars :=
  match fuel with
  | O => ret lv
  | S fuel' =>
      if bool_decide (0 < length (workingSet lv))
         && bool_decide (currentIteration lv < maxIterations config)
      then
        await lv' := iterationBody validator projectPath config lv in
        if bool_decide (maxIterations config ≤ currentIteration lv') then
          run emit EvReachedMax in ret lv'
        else whileLoop fuel' validator projectPath config lv'
      else ret lv
  end.

(** The value [binarySearchOptimalSet] resolves to: a [RecoveryResult] without
    [totalIterations], [recoverySteps] and [errors]. *)
Record SearchResult := {
  search_success : bool;
  search_minimalDependencies : list string;
  search_minimalComponents : list string;
  search_restoredComponents : list string
}.

(** [workingSet = [...eliminatedComponents]], [restoredComponents = []],
    [currentIteration = 0]. *)
Definition initialVars (eliminatedComponents : list string) : LoopVars :=
  {| workingSet := eliminatedComponents; restored := []; currentIteration := 0 |}.

Definition binarySearchOptimalSet (validator : option (Validator Tree)) (projectPath : string)
    (eliminatedComponents eliminatedDependencies : list string)
    (config : RecoveryConfig) : M SearchResult :=
  await lv :=
    whileLoop (length eliminatedComponents) validator projectPath config
      (initialVars eliminatedComponents) in
  await finalTest := testCurrentState validator projectPath config FinalProbe in
  ret {| search_success := fst finalTest;
         search_minimalDependencies := eliminatedDependencies;
         search_minimalComponents := restored lv;
         search_restoredComponents := restored lv |}.

(** *** performBinarySearchRecovery *)

Definition defaultConfig : RecoveryConfig :=
  {| maxIterations := 20; testEachIteration := true;
     preserveCritical := ["Button"; "Card"; "Dialog"; "Toast"];
     recoveryStrategy := balanced |}.

(** [{ ...this.defaultConfig, ...config }] *)
Definition mergeConfig (base : RecoveryConfig) (config : PartialRecoveryConfig)
  : RecoveryConfig :=
  {| maxIterations := default (maxIterations base) (opt_maxIterations config);
     testEachIteration := default (testEachIteration base) (opt_testEachIteration config);
     preserveCritical := default (preserveCritical base) (opt_preserveCritical config);
     recoveryStrategy := default (recoveryStrategy base) (opt_recoveryStrategy config) |}.

Definition liftThrow {A} (f : Tree → A + string) : M A :=
  await t := getTree in
  match f t with
  | inl a => ret a
  | inr msg => throw msg
  end.

Definition performBinarySearchRecovery (projectPath : string) (failedPhase : PhaseResult)
    (validator : option (Validator Tree)) (config : PartialRecoveryConfig)
  : M (RecoveryResult BundleMetrics) :=
  let recoveryConfig := mergeConfig defaultConfig config in
  let errors : list string := [] in
  let currentIteration := 0 in
  let changedComponents := eliminatedComponents (changes failedPhase) in
  let changedDependencies := eliminatedDependencies (changes failedPhase) in
  localSteps (tryCatch
    (if bool_decide (length changedComponents = 0)
        && bool_decide (length changedDependencies = 0)
     then
       ret {| success := false; minimalDependencies := []; minimalComponents := [];
              restoredComponents := []; totalIterations := 0; finalMetrics := None;
              recoverySteps := [];
              errors := ["No changes detected to recover from"];
              performance := None |}
     else
       withSteps
         (await result :=
            binarySearchOptimalSet validator projectPath changedComponents
              changedDependencies recoveryConfig in
          await final :=
            (match validator with
             | Some v =>
                 if search_success result then
                   await performance := liftThrow (validateApplication v projectPath) in
                   if vr_success performance then
                     await finalMetrics :=
                       liftThrow (captureMetrics projectPath "charlie-final") in
                     ret (Some finalMetrics, Some performance)
                   else ret (None, Some performance)
                 else ret (None, None)
             | None => ret (None, None)
             end) in
          ret (result, final))
         (λ rf recoverySteps,
            let result := fst rf in
            let final := snd rf in
            ret {| success := search_success result;
                   minimalDependencies := search_minimalDependencies result;
                   minimalComponents := search_minimalComponents result;
                   restoredComponents := search_restoredComponents result;
                   totalIterations := currentIteration;
                   finalMetrics := fst final;
                   recoverySteps := recoverySteps;
                   errors := errors;
                   performance := snd final |}))
    (λ msg recoverySteps,
       ret {| success := false; minimalDependencies := []; minimalComponents := [];
              restoredComponents := []; totalIterations := currentIteration;
              finalMetrics := None; recoverySteps := recoverySteps;
              errors := errors ++ ["Recovery failed: " +:+ msg];
              performance := None |})).

End Engine.

Arguments outcome {_ _} _.
Arguments treeAfter {_ _} _.
Arguments events {_ _} _.
Arguments pushed {_ _} _.

Notation "'await' x ':=' m 'in' k" := (bind m (λ x, k))
  (at level 10, x name, m at level 100, k at level 200).
Notation "'run' m 'in' k" := (bind m (λ _, k))
  (at level 10, m at level 100, k at level 200).

(** *** Reading a run

    Counting what a trace shows, and the comparison side of the split rule. *)

Definition isIteration (e : Event) : bool :=
  match e with EvIteration _ _ => true | _ => false end.

Definition isOuterProbe (e : Event) : bool :=
  match e with EvProbe OuterProbe _ => true | _ => false end.

Definition countIf (f : Event → bool) (evs : list Event) : nat :=
  length (List.filter f evs).

(** How many passes of the outer loop a trace shows. *)
Definition iterationsRun (evs : list Event) : nat := countIf isIteration evs.

(** How many probes the outer loop itself issued. *)
Definition outerProbes (evs : list Event) : nat := countIf isOuterProbe evs.

Definition isMinimizeProbe (e : Event) : bool :=
  match e with EvProbe MinimizeProbe _ => true | _ => false end.

(** The events only the recovery engine produces. *)
Definition isRecoveryEvent (e : Event) : bool :=
  match e with
  | EvPhaseStart _ | EvPhaseWork _ => false
  | _ => true
  end.

(** The successive test sets the split rule yields for a working set: the
    first [ceil(n/2)] elements, then the same on the rest. *)
Fixpoint bisections (fuel : nat) (ws : list string) : list (list string) :=
  match fuel, ws with
  | S fuel', _ :: _ =>
      take (ceilHalf (length ws)) ws :: bisections fuel' (drop (ceilHalf (length ws)) ws)
  | _, _ => []
  end.

(** The trace of a necessity test that failed: [c] was removed alone, the
    probe failed, and [c] was put back. *)
Definition necessityTested (c : string) (evs : list Event) : Prop :=
  ∃ pre post,
    evs = pre ++ [EvRemove [c]; EvProbe MinimizeProbe false; EvRestore [c]] ++ post.

(** Why a component is in the restored set: its necessity test failed, or it
    was the single member of a test set that passed. *)
Definition justified (c : string) (evs : list Event) (stepsPushed : list RecoveryStep)
  : Prop :=
  necessityTested c evs
  ∨ ∃ s, s ∈ stepsPushed ∧ components s = [c] ∧ step_success s = true.

(** A rejection of the glob in [removeImportStatements]. *)
Definition globFailure {Tree BundleMetrics : Type} `{!Collaborators Tree BundleMetrics}
    (msg : string) : Prop :=
  ∃ p comps (t : Tree), rewriteImports p comps t = inr msg.

End SmartRecovery.

(** ** The nuclear optimizer (class [NuclearOptimizer] of TreeDrivenOptimizer.ts) *)

Module NuclearOptimizer.

(** *** The export-related part of the Babel AST *)

(** The binding position of a declarator: an identifier, or a destructuring
    pattern with the names it binds. *)
Inductive LVal :=
| Identifier (name : string)
| ObjectPattern (bound : list string)
| ArrayPattern (bound : list string).

Inductive Declaration :=
| FunctionDeclaration (id : option string)
| VariableDeclaration (declarations : list LVal)
| ClassDeclaration (id : option string)
| TSEnumDeclaration (id : string)
| TSInterfaceDeclaration (id : string)
| TSTypeAliasDeclaration (id : string).

Inductive ModuleExportName :=
| ExportedIdentifier (name : string)
| ExportedStringLiteral (value : string).

Inductive Specifier :=
| ExportSpecifier (local : string) (exported : ModuleExportName)
| ExportNamespaceSpecifier (exported : string)
| ExportDefaultSpecifier (exported : string).

Inductive Statement :=
| ExportNamedDeclaration (declaration : option Declaration) (specifiers : list Specifier)
| ExportDefaultDeclaration
| ExportAllDeclaration (source : string)
| OtherStatement.

Definition Program : Type := list Statement.

(** *** The optimizer's fields and the staging tree *)

Inductive NuclearMode := scorchedEarth | surgical | hybrid.
Inductive RebuildStrategy := minimal | inline | mangle.

(** [NuclearConfig] without the optional [zuluData]. *)
Record NuclearConfig := {
  nuclear_mode : NuclearMode;
  preserveList : list string;
  testCommand : string;
  nuclear_maxIterations : nat;
  rebuildStrategy : RebuildStrategy
}.

Record Optimizer := {
  deletedComponents : JsMap string;
  componentPaths : JsMap string;
  componentExportMap : JsMap (list string);
  criticalComponents : list string
}.

(** A fresh [new NuclearOptimizer()]. *)
Definition newOptimizer : Optimizer :=
  {| deletedComponents := []; componentPaths := []; componentExportMap := [];
     criticalComponents := ["App"; "main"; "index"] |}.

(** File path to file content. *)
Abbreviation FileTree := (gmap string string).

(** *** extractExports *)

Definition declarationExports (declaration : Declaration) (exports : list string)
  : list string :=
  match declaration with
  | FunctionDeclaration (Some id) => setAdd id exports
  | VariableDeclaration declarations =>
      foldl (λ acc declarator,
               match declarator with
               | Identifier name => setAdd name acc
               | _ => acc
               end) exports declarations
  | _ => exports
  end.

Definition specifierExports (spec : Specifier) (exports : list string) : list string :=
  match spec with
  | ExportSpecifier _ (ExportedIdentifier name) => setAdd name exports
  | ExportSpecifier _ (ExportedStringLiteral value) => setAdd value exports
  | _ => exports
  end.

(** The two visitors of the traversal, applied to one statement. *)
Definition visit (exports : list string) (node : Statement) : list string :=
  match node with
  | ExportNamedDeclaration declaration specifiers =>
      let exports :=
        match declaration with
        | Some d => declarationExports d exports
        | None => exports
        end in
      foldl (λ acc spec, specifierExports spec acc) exports specifiers
  | ExportDefaultDeclaration => setAdd "default" exports
  | _ => exports
  end.

(** The message of the error [fs.readFile(filePath, 'utf-8')] rejects with when
    there is no file at [filePath]. *)
Definition readFileError (filePath : string) : string :=
  "ENOENT: no such file or directory, open '" +:+ filePath +:+ "'".

Section WithParser.

(** [parser.parse(content, ...)]: [None] when Babel throws. *)
Variable parse : string → option Program.
(** The glob of [scanAndDeleteAllComponents] over the staging tree. *)
Variable globComponents : string → FileTree → list string.

(** The export set [extractExports] records for a component. *)
Definition extractedExports (content : string) : list string :=
  match parse content with
  | Some ast => foldl visit [] ast
  | None => ["default"]
  end.

Definition extractExports (filePath componentName content : string) (o : Optimizer)
  : Optimizer :=
  {| deletedComponents := deletedComponents o;
     componentPaths := componentPaths o;
     componentExportMap :=
       mapSet componentName (extractedExports content) (componentExportMap o);
     criticalComponents := criticalComponents o |}.

(** *** scanAndDeleteAllComponents *)

(** The loop of the scan.  The tree maps the paths that exist to their
    contents, so the one way [fs.readFile] rejects in it is on a path that is
    not there; the rejection leaves the loop at once. *)
Fixpoint scanEach (componentFiles : list string) (o : Optimizer) (fs : FileTree)
  : Outcome unit * Optimizer * FileTree :=
  match componentFiles with
  | [] => (Return tt, o, fs)
  | filePath :: rest =>
      let componentName := basename filePath (extname filePath) in
      if negb (includes (criticalComponents o) componentName) then
        match fs !! filePath with
        | Some content =>
            let o :=
              {| deletedComponents := mapSet componentName content (deletedComponents o);
                 componentPaths := mapSet componentName filePath (componentPaths o);
                 componentExportMap := componentExportMap o;
                 criticalComponents := criticalComponents o |} in
            let o := extractExports filePath componentName content o in
            scanEach rest o (delete filePath fs)
        | None => (Throw (readFileError filePath), o, fs)
        end
      else scanEach rest o fs
  end.

Definition scanAndDeleteAllComponents (projectPath : string) (o : Optimizer)
    (fs : FileTree) : Outcome unit * Optimizer * FileTree :=
  scanEach (globComponents projectPath fs) o fs.

(** *** createEmptyExport *)

Record Stub := {
  stub_text : string;
  namedExports : list string;
  hasDefault : bool
}.

Definition stubHeader : string :=
  "// NUCLEAR OPTIMIZED - Minimal stub with all exports preserved" +:+ newline
  +:+ "import React from 'react';" +:+ newline +:+ newline.

(** The [for (const exportName of exports)] loop. *)
Definition stubExport (componentName safeComponentName : string) (acc : Stub)
    (exportName : string) : Stub :=
  if decide (exportName = "default") then
    {| stub_text :=
         stub_text acc
         +:+ "const " +:+ safeComponentName
         +:+ "_default = React.forwardRef<any, any>((props, ref) => null);" +:+ newline
         +:+ safeComponentName +:+ "_default.displayName = '" +:+ componentName +:+ "';"
         +:+ newline +:+ newline;
       namedExports := namedExports acc;
       hasDefault := true |}
  else
    let safeExportName := hyphensToUnderscores exportName in
    {| stub_text :=
         stub_text acc
         +:+ "const " +:+ safeExportName
         +:+ " = React.forwardRef<any, any>((props, ref) => null);" +:+ newline
         +:+ safeExportName +:+ ".displayName = '" +:+ exportName +:+ "';" +:+ newline;
       namedExports := namedExports acc ++ [safeExportName];
       hasDefault := hasDefault acc |}.

(** The stub [createEmptyExport] writes for a component with the given
    recorded exports. *)
Definition buildStub (componentName : string) (exports : list string) : Stub :=
  let safeComponentName := hyphensToUnderscores componentName in
  let body :=
    foldl (stubExport componentName safeComponentName)
      {| stub_text := stubHeader; namedExports := []; hasDefault := false |} exports in
  let text := stub_text body in
  let text :=
    if bool_decide (0 < length (namedExports body))
    then text +:+ newline +:+ "export { " +:+ joinWith ", " (namedExports body) +:+ " };"
         +:+ newline
    else text in
  let text :=
    if hasDefault body
    then text +:+ "export default " +:+ safeComponentName +:+ "_default;" +:+ newline
    else text in
  {| stub_text := text; namedExports := namedExports body; hasDefault := hasDefault body |}.

(** Where the stub and the restored original are written. *)
Definition stagingPath (projectPath originalPath : string) : string :=
  let pathParts := splitSlash originalPath "" in
  let relativePath :=
    match list_find (λ part, part = "client") pathParts with
    | Some (clientIndex, _) => joinWith "/" (drop clientIndex pathParts)
    | None => lastSegment originalPath
    end in
  pathJoin projectPath relativePath.

Definition stubFor (o : Optimizer) (componentName : string) : Stub :=
  buildStub componentName (default ["default"] (mapGet (componentExportMap o) componentName)).

Definition createEmptyExport (projectPath componentName : string) (o : Optimizer)
    (fs : FileTree) : FileTree :=
  match mapGet (componentPaths o) componentName with
  | None => fs
  | Some originalPath =>
      <[stagingPath projectPath originalPath := stub_text (stubFor o componentName)]> fs
  end.

(** *** createZeroState, and steps 2 and 3 of executeNuclearOptimization *)

Definition createZeroState (projectPath : string) (o : Optimizer) (fs : FileTree)
  : FileTree :=
  foldl (λ fs componentName, createEmptyExport projectPath componentName o fs)
    fs (mapKeys (deletedComponents o)).

(** "COMPLETE NUCLEAR DELETION" followed by "Create ZERO STATE"; the result
    carries [deletedFiles]. *)
Definition nuclearDeleteAndStub (projectPath : string) (config : NuclearConfig)
    (o : Optimizer) (fs : FileTree)
  : Outcome (list string) * Optimizer * FileTree :=
  match scanAndDeleteAllComponents projectPath o fs with
  | (Return _, o', fs') =>
      (Return (mapKeys (deletedComponents o')), o', createZeroState projectPath o' fs')
  | (Throw msg, o', fs') => (Throw msg, o', fs')
  end.

(** The exported symbol names of a stub: what its two export clauses list. *)
Definition stubExportNames (s : Stub) : list string :=
  namedExports s ++ (if hasDefault s then ["default"] else []).

End WithParser.

(** *** The exported names of a module, by the language's rules

    The comparison side of stub signature preservation: every name a module
    exports through a declaration, a specifier or a default export.
    [export * from] contributes names of another module and is left out. *)

Definition declaredNames (declaration : Declaration) : list string :=
  match declaration with
  | FunctionDeclaration id | ClassDeclaration id => option_list id
  | VariableDeclaration declarations =>
      declarations ≫= (λ declarator,
        match declarator with
        | Identifier name => [name]
        | ObjectPattern bound | ArrayPattern bound => bound
        end)
  | TSEnumDeclaration id | TSInterfaceDeclaration id | TSTypeAliasDeclaration id => [id]
  end.

Definition specifierName (spec : Specifier) : string :=
  match spec with
  | ExportSpecifier _ (ExportedIdentifier name) => name
  | ExportSpecifier _ (ExportedStringLiteral value) => value
  | ExportNamespaceSpecifier exported | ExportDefaultSpecifier exported => exported
  end.

Definition statementExportedNames (node : Statement) : list string :=
  match node with
  | ExportNamedDeclaration declaration specifiers =>
      from_option declaredNames [] declaration ++ map specifierName specifiers
  | ExportDefaultDeclaration => ["default"]
  | _ => []
  end.

Definition exportedNames (ast : Program) : list string := ast ≫= statementExportedNames.

(** The export shapes the two visitors of [extractExports] record a name for:
    a named function, a variable declaration binding plain identifiers, an
    export specifier, the default export. *)
Definition handledDeclaration (declaration : Declaration) : Prop :=
  match declaration with
  | FunctionDeclaration (Some _) => True
  | VariableDeclaration declarations =>
      Forall (λ declarator, ∃ name, declarator = Identifier name) declarations
  | _ => False
  end.

Definition handledSpecifier (spec : Specifier) : Prop :=
  match spec with
  | ExportSpecifier _ _ => True
  | _ => False
  end.

Definition handledStatement (node : Statement) : Prop :=
  match node with
  | ExportNamedDeclaration declaration specifiers =>
      from_option handledDeclaration True declaration ∧ Forall handledSpecifier specifiers
  | ExportDefaultDeclaration | OtherStatement => True
  | ExportAllDeclaration _ => False
  end.

(** The name under which the stub exports a recorded export. *)
Definition stubName (exportName : string) : string :=
  if decide (exportName = "default") then "default" else hyphensToUnderscores exportName.

(** *** A small staging tree

    [ui/Chart.tsx] exports a class and a default, [Header.tsx] a function;
    the caller asks to preserve [Header] on top of the entry points. *)

Definition chartSource : string := "export class Chart {}; export default Chart;".

Definition chartAst : Program :=
  [ ExportNamedDeclaration (Some (ClassDeclaration (Some "Chart"))) [];
    ExportDefaultDeclaration ].

Definition headerSource : string := "export function Header() { return null; }".

Definition headerAst : Program :=
  [ ExportNamedDeclaration (Some (FunctionDeclaration (Some "Header"))) [] ].

Definition parseStaging (content : string) : option Program :=
  if decide (content = chartSource) then Some chartAst
  else if decide (content = headerSource) then Some headerAst
  else None.

Definition appPath : string := "/app/client/src/components/App.tsx".
Definition headerPath : string := "/app/client/src/components/Header.tsx".
Definition chartPath : string := "/app/client/src/components/ui/Chart.tsx".

Definition stagingTree : FileTree :=
  {[ appPath := "export default function App() { return null; }";
     headerPath := headerSource;
     chartPath := chartSource ]}.

Definition globStaging (projectPath : string) (fs : FileTree) : list string :=
  filter (λ filePath, is_Some (fs !! filePath)) [appPath; headerPath; chartPath].

Definition keepHeader : NuclearConfig :=
  {| nuclear_mode := scorchedEarth;
     preserveList := ["App"; "main"; "index"; "Header"];
     testCommand := "npm run build"; nuclear_maxIterations := 50;
     rebuildStrategy := mangle |}.

(** *** restoreOriginalComponent *)

(** The name a component file is known by: [path.basename(filePath,
    path.extname(filePath))]. *)
Definition componentNameOf (filePath : string) : string :=
  basename filePath (extname filePath).

(** Writes the stored content back at the staging path; an absent or empty
    content or path makes it return at once. *)
Definition restoreOriginalComponent (projectPath componentName : string) (o : Optimizer)
    (fs : FileTree) : FileTree :=
  match mapGet (deletedComponents o) componentName,
        mapGet (componentPaths o) componentName with
  | Some content, Some originalPath =>
      if bool_decide (content = "") || bool_decide (originalPath = "") then fs
      else <[stagingPath projectPath originalPath := content]> fs
  | _, _ => fs
  end.

(** Two files of the same name in different folders. *)
Definition uiCardPath : string := "/app/client/src/components/ui/card.tsx".
Definition formsCardPath : string := "/app/client/src/components/forms/card.tsx".
Definition uiCardSource : string := "export const Card = () => null;".
Definition formsCardSource : string := "export default function Card() { return null; }".

Definition twinTree : FileTree :=
  {[ uiCardPath := uiCardSource; formsCardPath := formsCardSource ]}.

Definition globTwins (projectPath : string) (fs : FileTree) : list string :=
  filter (λ filePath, is_Some (fs !! filePath)) [uiCardPath; formsCardPath].

(** *** executeNuclearOptimization *)

(** What [runTests] returns. *)
Record TestResult := {
  test_success : bool;
  test_errors : list string
}.

(** [NuclearResult] without [reduction], the percentage computed in floating
    point from the two sizes. *)
Record NuclearResult := {
  result_success : bool;
  originalSize : nat;
  finalSize : nat;
  deletedFiles : list string;
  recreatedFiles : list string;
  testsPassed : bool;
  iterations : nat
}.

(** The part of [config.zuluData] that is read: the names under
    [componentAnalysis.renderedComponents], an array or the keys of an object,
    when that property is there. *)
Record ZuluData := {
  zulu_renderedComponents : option (list string)
}.

(** [loadZuluRenderTree], on the set [actuallyRenderedComponents]. *)
Definition loadZuluRenderTree (zuluData : ZuluData) (rendered : list string)
  : list string :=
  match zulu_renderedComponents zuluData with
  | Some renderedList => foldl (λ rendered comp, setAdd comp rendered) rendered renderedList
  | None => rendered
  end.

(** [if (config.zuluData) await this.loadZuluRenderTree(config.zuluData)] *)
Definition loadedRendered (zuluData : option ZuluData) (rendered : list string)
  : list string :=
  match zuluData with
  | Some zuluData => loadZuluRenderTree zuluData rendered
  | None => rendered
  end.

(** [name.replace(/^-/, '')] *)
Definition dropLeadingHyphen (s : string) : string :=
  match s with
  | String "-" s' => s'
  | _ => s
  end.

(** [name.replace(/([A-Z])/g, '-$1').toLowerCase().replace(/^-/, '')] *)
Definition kebabName (componentName : string) : string :=
  dropLeadingHyphen (toLowerCase (hyphenateCapitals componentName)).

(** An ASCII small letter: the class [[a-z]]. *)
Definition isLower (c : ascii) : bool :=
  (97 <=? nat_of_ascii c) && (nat_of_ascii c <=? 122).

(** [name.replace(/-([a-z])/g, (_, letter) => letter.toUpperCase())] *)
Fixpoint camelName (componentName : string) : string :=
  match componentName with
  | EmptyString => EmptyString
  | String c rest =>
      match rest with
      | String letter rest' =>
          if bool_decide (c = "-"%char) && isLower letter
          then String (ascii_of_nat (nat_of_ascii letter - 32)) (camelName rest')
          else String c (camelName rest)
      | EmptyString => String c EmptyString
      end
  end.

(** The state of one pass over the components to bring back: the tree, the
    set [restoredComponents], [result.recreatedFiles] and
    [restoredThisIteration]. *)
Record Restoration := {
  r_fs : FileTree;
  r_restored : list string;
  r_recreated : list string;
  r_count : nat
}.

(** The state of the recovery loop between two iterations. *)
Record Recovery := {
  rec_fs : FileTree;
  rec_restored : list string;
  rec_recreated : list string;
  rec_iteration : nat;
  rec_stuck : nat;
  rec_lastErrorCount : nat;
  rec_test : TestResult
}.

Section Reconstruction.

Variable parse : string → option Program.
Variable globComponents : string → FileTree → list string.
(** [execAsync(testCommand, {cwd: projectPath})]: [None] when the command
    succeeds, otherwise the error output that [runTests] picks. *)
Variable execAsync : string → string → FileTree → option string.
Variable parseErrorMessages : string → list string.
(** [measureBundleSize] catches its own failures and then yields [0]. *)
Variable measureBundleSize : string → FileTree → nat.
(** For one error line, the names its matching patterns capture, in the order
    of the patterns, each with its extension removed and reduced to its base
    name. *)
Variable matchedNames : string → list string.

Definition runTests (projectPath testCommand : string) (fs : FileTree) : TestResult :=
  match execAsync testCommand projectPath fs with
  | None => {| test_success := true; test_errors := [] |}
  | Some errorOutput =>
      {| test_success := false; test_errors := parseErrorMessages errorOutput |}
  end.

(** [if (this.deletedComponents.has(name)) missing.add(name)] *)
Definition addIfDeleted (o : Optimizer) (name : string) (missing : list string)
  : list string :=
  if mapHas (deletedComponents o) name then setAdd name missing else missing.

Definition extractMissingComponents (errors : list string) (o : Optimizer)
  : list string :=
  foldl (λ missing error,
           foldl (λ missing componentName,
                    addIfDeleted o (camelName componentName)
                      (addIfDeleted o (kebabName componentName)
                         (addIfDeleted o componentName missing)))
             missing (matchedNames error))
    [] errors.

(** The failsafe of the loop: every rendered component that was deleted and
    is not yet restored gets its original back. *)
Definition restoreRendered (projectPath : string) (o : Optimizer) (rendered : list string)
    (start : Restoration) : Restoration :=
  foldl (λ st component,
           if negb (includes (r_restored st) component)
              && mapHas (deletedComponents o) component
           then {| r_fs := restoreOriginalComponent projectPath component o (r_fs st);
                   r_restored := setAdd component (r_restored st);
                   r_recreated := r_recreated st ++ [component];
                   r_count := S (r_count st) |}
           else st)
    start rendered.

(** The other branch: a missing component gets its original back if it is
    rendered and stays a stub otherwise; it is counted as recreated either
    way. *)
Definition restoreMissing (projectPath : string) (o : Optimizer) (rendered : list string)
    (missingComponents : list string) (start : Restoration) : Restoration :=
  foldl (λ st component,
           if negb (includes (r_restored st) component)
           then {| r_fs := if includes rendered component
                           then restoreOriginalComponent projectPath component o (r_fs st)
                           else r_fs st;
                   r_restored := setAdd component (r_restored st);
                   r_recreated := r_recreated st ++ [component];
                   r_count := S (r_count st) |}
           else st)
    start missingComponents.

(** The [while] loop of step 6.  Each pass adds one to [iteration], so
    [config.maxIterations] passes are all it can make. *)
Fixpoint recoveryLoop (fuel : nat) (projectPath : string) (config : NuclearConfig)
    (o : Optimizer) (rendered : list string) (s : Recovery) : Recovery :=
  match fuel with
  | O => s
  | S fuel' =>
      if negb (test_success (rec_test s))
         && bool_decide (rec_iteration s < nuclear_maxIterations config)
      then
        let iteration := S (rec_iteration s) in
        let missingComponents := extractMissingComponents (test_errors (rec_test s)) o in
        let start :=
          {| r_fs := rec_fs s; r_restored := rec_restored s;
             r_recreated := rec_recreated s; r_count := 0 |} in
        let st :=
          if bool_decide (length missingComponents = 0)
          then restoreRendered projectPath o rendered start
          else restoreMissing projectPath o rendered missingComponents start in
        let stuckIterations :=
          if bool_decide (r_count st = 0) then S (rec_stuck s) else 0 in
        if bool_decide (r_count st = 0) && bool_decide (3 ≤ stuckIterations)
        then
          {| rec_fs := r_fs st; rec_restored := r_restored st;
             rec_recreated := r_recreated st; rec_iteration := iteration;
             rec_stuck := stuckIterations;
             rec_lastErrorCount := rec_lastErrorCount s; rec_test := rec_test s |}
        else
          let testResult := runTests projectPath (testCommand config) (r_fs st) in
          let noProgress :=
            bool_decide (length (test_errors testResult) = rec_lastErrorCount s)
            && bool_decide (r_count st = 0) in
          recoveryLoop fuel' projectPath config o rendered
            {| rec_fs := r_fs st; rec_restored := r_restored st;
               rec_recreated := r_recreated st; rec_iteration := iteration;
               rec_stuck := if noProgress then S stuckIterations else stuckIterations;
               rec_lastErrorCount :=
                 if noProgress then rec_lastErrorCount s
                 else length (test_errors testResult);
               rec_test := testResult |}
      else s
  end.

(** Step 5: after a zero state that builds, the rendered components that were
    deleted get their originals back. *)
Definition restoreAfterSuccess (projectPath : string) (o : Optimizer)
    (rendered : list string) (fs : FileTree) : FileTree * list string :=
  if bool_decide (0 < length rendered)
  then foldl (λ acc component,
                if mapHas (deletedComponents o) component
                then (restoreOriginalComponent projectPath component o acc.1,
                      acc.2 ++ [component])
                else acc)
         (fs, []) rendered
  else (fs, []).

(** [executeNuclearOptimization]; [zuluData] is [config.zuluData] and
    [rendered] the set [actuallyRenderedComponents] the instance holds when
    the call is made.  The result comes with the fields and the tree the call
    leaves. *)
Definition executeNuclearOptimization (projectPath : string) (config : NuclearConfig)
    (zuluData : option ZuluData) (rendered : list string) (o : Optimizer) (fs : FileTree)
  : Outcome NuclearResult * Optimizer * list string * FileTree :=
  let rendered := loadedRendered zuluData rendered in
  let originalSize := measureBundleSize projectPath fs in
  match nuclearDeleteAndStub parse globComponents projectPath config o fs with
  | (Throw msg, o, fs) => (Throw msg, o, rendered, fs)
  | (Return deletedFiles, o, fs) =>
      let testResult := runTests projectPath (testCommand config) fs in
      let '(fs, recreatedFiles, iterations, testResult) :=
        if test_success testResult
        then
          let restored := restoreAfterSuccess projectPath o rendered fs in
          (restored.1, restored.2, 0, testResult)
        else
          let s :=
            recoveryLoop (nuclear_maxIterations config) projectPath config o rendered
              {| rec_fs := fs; rec_restored := []; rec_recreated := [];
                 rec_iteration := 0; rec_stuck := 0;
                 rec_lastErrorCount := length (test_errors testResult);
                 rec_test := testResult |} in
          (rec_fs s, rec_recreated s, rec_iteration s, rec_test s) in
      (Return {| result_success := test_success testResult;
                 originalSize := originalSize;
                 finalSize := measureBundleSize projectPath fs;
                 deletedFiles := deletedFiles;
                 recreatedFiles := recreatedFiles;
                 testsPassed := test_success testResult;
                 iterations := iterations |},
       o, rendered, fs)
  end.

End Reconstruction.

(** What the recovery loop keeps true of its two records of restored names: the recreated names are the restored set, in
    order, and all of them are deleted components. *)
Definition restored_ok (o : Optimizer) (restored recreated : list string) : Prop :=
  recreated = restored ∧ NoDup restored
  ∧ Forall (λ c, c ∈ mapKeys (deletedComponents o)) restored.

(** The build of the small staging tree fails with one error line as long as
    [Chart.tsx] holds a stub. *)
Definition chartError : string :=
  "Could not resolve './components/ui/Chart' from client/src/App.tsx".

Definition execStaging (testCommand projectPath : string) (fs : FileTree)
  : option string :=
  if bool_decide (fs !! chartPath = Some chartSource) then None else Some chartError.

Definition parseErrorsStaging (errorOutput : string) : list string := [errorOutput].

Definition matchedStaging (error : string) : list string :=
  if bool_decide (error = chartError) then ["Chart"] else [].

End NuclearOptimizer.

(** ** The phase orchestrator (SmartBundleOptimizer.ts) *)

Module SmartBundleOptimizer.

Import SmartRecovery.

Record SmartOptimizationConfig := {
  mode : OptimizationMode;
  phases : list OptimizationPhase;
  autoTest : bool;
  visualize : bool;
  compare : bool;
  lastKnownGood : option OptimizationPhase
}.

(** [config.phases.push(p)] *)
Definition pushPhase (p : OptimizationPhase) (config : SmartOptimizationConfig)
  : SmartOptimizationConfig :=
  {| mode := mode config; phases := phases config ++ [p]; autoTest := autoTest config;
     visualize := visualize config; compare := compare config;
     lastKnownGood := lastKnownGood config |}.

(** The engines behind the phases.  [alphaElimination] and [betaRefinement]
    stand for the bodies of [executeAlphaPhase] and [executeBetaPhase] past
    their look-up of the earlier phase; both catch what their collaborators
    throw, so they always yield a result. *)
Class Engines (Tree BundleMetrics : Type) := {
  zuluBaseline : string → SmartOptimizationConfig → Tree → Outcome PhaseMetrics * Tree;
  alphaElimination :
    string → SmartOptimizationConfig → PhaseResult → Tree → PhaseResult * Tree;
  betaRefinement :
    string → SmartOptimizationConfig → PhaseResult → Tree → PhaseResult * Tree;
  orchestratorValidator : Validator Tree;
  totalSize : BundleMetrics → string
}.

Record SmartOptimizationResult := {
  optimization_success : bool;
  optimization_phases : list PhaseResult;
  recommendations : list string
}.

Section Orchestrator.

Context {Tree BundleMetrics : Type}
  `{!Collaborators Tree BundleMetrics} `{!Engines Tree BundleMetrics}.

Definition asPhase (p : OptimizationPhase) (r : PhaseResult) : PhaseResult :=
  {| phase := p; phase_success := phase_success r; metrics := metrics r;
     changes := changes r; phase_errors := phase_errors r |}.

(** [previousPhases.find(p => p.phase === wanted)] *)
Definition findPhase (wanted : OptimizationPhase) (previousPhases : list PhaseResult)
  : option PhaseResult :=
  snd <$> list_find (λ p, phase p = wanted) previousPhases.

(** An engine that always yields a result, as a computation on the tree. *)
Definition engine {A} (f : Tree → A * Tree) : M A :=
  await t := getTree in
  run putTree (snd (f t)) in
  ret (fst (f t)).

Definition executeZuluPhase (projectPath : string) (config : SmartOptimizationConfig)
  : M PhaseResult :=
  run emit (EvPhaseWork zulu) in
  await t := getTree in
  run putTree (snd (zuluBaseline projectPath config t)) in
  match fst (zuluBaseline projectPath config t) with
  | Return m =>
      ret {| phase := zulu; phase_success := true; metrics := m; changes := noChanges;
             phase_errors := [] |}
  | Throw msg => throw msg
  end.

Definition executeAlphaPhase (projectPath : string) (config : SmartOptimizationConfig)
    (previousPhases : list PhaseResult) : M PhaseResult :=
  match findPhase zulu previousPhases with
  | None => throw "ALPHA phase requires ZULU baseline"
  | Some zuluResult =>
      run emit (EvPhaseWork alpha) in
      await r := engine (alphaElimination projectPath config zuluResult) in
      ret (asPhase alpha r)
  end.

Definition emptyMetrics : PhaseMetrics :=
  {| bundleSize := "0"; dependencyCount := 0; componentCount := 0; buildTime := 0 |}.

Definition executeBetaPhase (projectPath : string) (config : SmartOptimizationConfig)
    (previousPhases : list PhaseResult) : M PhaseResult :=
  let alphaResult := findPhase alpha previousPhases in
  match alphaResult with
  | Some alphaResult =>
      if negb (phase_success alphaResult) then
        ret {| phase := beta; phase_success := false; metrics := metrics alphaResult;
               changes := noChanges;
               phase_errors := ["BETA skipped: ALPHA phase failed"] |}
      else
        run emit (EvPhaseWork beta) in
        await r := engine (betaRefinement projectPath config alphaResult) in
        ret (asPhase beta r)
  | None =>
      ret {| phase := beta; phase_success := false; metrics := emptyMetrics;
             changes := noChanges;
             phase_errors := ["BETA skipped: ALPHA phase failed"] |}
  end.

(** The options [executeCharliePhase] passes to the recovery engine. *)
Definition charlieOptions : PartialRecoveryConfig :=
  {| opt_maxIterations := Some 20; opt_testEachIteration := Some true;
     opt_preserveCritical := Some ["App"; "Router"; "QueryClient"];
     opt_recoveryStrategy := Some aggressive |}.

Definition executeCharliePhase (projectPath : string) (config : SmartOptimizationConfig)
    (previousPhases : list PhaseResult) : M PhaseResult :=
  let alphaPhase := findPhase alpha previousPhases in
  let noRecoveryNeeded : M PhaseResult :=
    match last previousPhases with
    | Some lastPhase =>
        ret {| phase := charlie; phase_success := true; metrics := metrics lastPhase;
               changes := noChanges; phase_errors := [] |}
    | None => throw "Cannot read properties of undefined (reading 'metrics')"
    end in
  match alphaPhase with
  | None => noRecoveryNeeded
  | Some alphaPhase =>
      if phase_success alphaPhase then noRecoveryNeeded
      else
        run emit (EvPhaseWork charlie) in
        tryCatch
          (await recoveryResult :=
             performBinarySearchRecovery projectPath alphaPhase
               (Some orchestratorValidator) charlieOptions in
           ret {| phase := charlie;
                  phase_success := success recoveryResult;
                  metrics :=
                    {| bundleSize :=
                         match finalMetrics recoveryResult with
                         | Some m => if decide (totalSize m = "") then "0" else totalSize m
                         | None => "0"
                         end;
                       dependencyCount := length (minimalDependencies recoveryResult);
                       componentCount := length (minimalComponents recoveryResult);
                       buildTime := 0 |};
                  changes :=
                    {| eliminatedComponents := []; eliminatedDependencies := [];
                       changes_restoredComponents := restoredComponents recoveryResult |};
                  phase_errors := errors recoveryResult |})
          (λ msg _,
             ret {| phase := charlie; phase_success := false; metrics := metrics alphaPhase;
                    changes := noChanges;
                    phase_errors := ["CHARLIE phase failed: " +:+ msg] |})
  end.

(** The [switch (phase)] of [optimize]. *)
Definition executePhase (ph : OptimizationPhase) (projectPath : string)
    (config : SmartOptimizationConfig) (results : list PhaseResult) : M PhaseResult :=
  match ph with
  | zulu => executeZuluPhase projectPath config
  | alpha => executeAlphaPhase projectPath config results
  | beta => executeBetaPhase projectPath config results
  | charlie => executeCharliePhase projectPath config results
  end.

(** What the [for (const phase of config.phases)] loop leaves: the phase list
    (it pushes to it), the results, and the message if a phase threw. *)
Record LoopEnd := {
  end_config : SmartOptimizationConfig;
  end_results : list PhaseResult;
  end_thrown : option string
}.

(** The loop, with the array iterator's index [i]: the iterator re-reads the
    length on every step, so a phase pushed during the loop is visited. *)
Fixpoint phaseLoop (fuel i : nat) (projectPath : string) (config : SmartOptimizationConfig)
    (results : list PhaseResult) : M LoopEnd :=
  match fuel with
  | O => ret {| end_config := config; end_results := results; end_thrown := None |}
  | S fuel' =>
      match phases config !! i with
      | None => ret {| end_config := config; end_results := results; end_thrown := None |}
      | Some ph =>
          run emit (EvPhaseStart ph) in
          await r := attempt (executePhase ph projectPath config results) in
          match r with
          | inr msg =>
              ret {| end_config := config; end_results := results;
                     end_thrown := Some msg |}
          | inl phaseResult =>
              let results := results ++ [phaseResult] in
              if bool_decide (ph = alpha) && negb (phase_success phaseResult)
                 && negb (bool_decide (charlie ∈ phases config))
              then phaseLoop fuel' (S i) projectPath (pushPhase charlie config) results
              else if bool_decide (ph = beta)
                      && existsb (λ r, bool_decide (phase r = alpha)
                                       && negb (phase_success r)) results
              then phaseLoop fuel' (S i) projectPath config results
              else if negb (phase_success phaseResult)
                      && bool_decide (mode config ≠ ModeRecovery)
                      && bool_decide (ph ≠ alpha)
              then ret {| end_config := config; end_results := results;
                          end_thrown := None |}
              else phaseLoop fuel' (S i) projectPath config results
          end
      end
  end.

(** At most one phase is ever pushed, so this many passes exhaust the list
    (lemma [loopFuel_enough] below). *)
Definition loopFuel (config : SmartOptimizationConfig) : nat := 2 + length (phases config).

(** [phase.toUpperCase()] *)
Definition phaseUpper (ph : OptimizationPhase) : string :=
  match ph with
  | zulu => "ZULU"
  | alpha => "ALPHA"
  | beta => "BETA"
  | charlie => "CHARLIE"
  end.

(** [calculateBundleReduction(before, after).percentage] as
    [generateRecommendations] reads it.  It is computed in floating point from
    the two size strings and rounded by [Math.round]; only its comparisons with
    50 and 20 are used, so it is taken as an integer (a [NaN] fails both
    comparisons, as does [0]). *)
Variable reductionPercentage : string → string → Z.
(** [fs.writeFile] of [smart-optimization-report.json], given what the report
    is built from: the configuration, the phase results and the
    recommendations. *)
Variable writeReport :
  string → SmartOptimizationConfig → list PhaseResult → list string → Tree → Tree + string.
(** [generateMarkdownReport]: [fs.writeFile] of [optimization-report.md]. *)
Variable writeMarkdownReport :
  string → SmartOptimizationConfig → list PhaseResult → list string → Tree → Tree + string.

(** The note on the size gained, then one note per failed phase. *)
Definition generateRecommendations (phases : list PhaseResult) : list string :=
  let gain :=
    match findPhase zulu phases, last phases with
    | Some zuluPhase, Some finalPhase =>
        let reductionPercent :=
          reductionPercentage (bundleSize (metrics zuluPhase))
            (bundleSize (metrics finalPhase)) in
        if (50 <? reductionPercent)%Z
        then ["Excellent optimization! Consider running this regularly."]
        else if (20 <? reductionPercent)%Z
        then ["Good optimization results. Monitor for future improvements."]
        else ["Limited optimization gains. Consider more aggressive settings."]
    | _, _ => []
    end in
  gain
  ++ ((λ ph, phaseUpper (phase ph)
             +:+ " phase failed: Consider reviewing errors and running in recovery mode.")
      <$> filter (λ ph, phase_success ph = false) phases).

(** The three notes on the size gained. *)
Definition gainNotes : list string :=
  [ "Excellent optimization! Consider running this regularly.";
    "Good optimization results. Monitor for future improvements.";
    "Limited optimization gains. Consider more aggressive settings." ].

(** The note [generateRecommendations] adds for a failed phase. *)
Definition failureNote (ph : PhaseResult) : string :=
  phaseUpper (phase ph)
  +:+ " phase failed: Consider reviewing errors and running in recovery mode.".

(** [generateFinalReport], without the size and count reductions of the
    summary: it writes the two report files and returns the verdict. *)
Definition generateFinalReport (projectPath : string) (phases : list PhaseResult)
    (config : SmartOptimizationConfig) : M SmartOptimizationResult :=
  match findPhase zulu phases, last phases with
  | Some zuluPhase, Some finalPhase =>
      let recommendations := generateRecommendations phases in
      await t := getTree in
      match writeReport projectPath config phases recommendations t with
      | inr msg => throw msg
      | inl t' =>
          run putTree t' in
          match writeMarkdownReport projectPath config phases recommendations t' with
          | inr msg => throw msg
          | inl t'' =>
              run putTree t'' in
              ret {| optimization_success := forallb phase_success phases;
                     optimization_phases := phases;
                     recommendations := recommendations |}
          end
      end
  | _, _ => throw "Missing phase data for report generation"
  end.

(** [optimize]: the loop over the phases, then the final report; whatever
    either throws is caught and reported as a failed run.  Of the result, the
    verdict, the phase results and the recommendations are kept. *)
Definition optimize (projectPath : string) (config : SmartOptimizationConfig)
  : M SmartOptimizationResult :=
  await e := phaseLoop (loopFuel config) 0 projectPath config [] in
  let failed msg : M SmartOptimizationResult :=
    ret {| optimization_success := false; optimization_phases := end_results e;
           recommendations := ["Optimization failed: " +:+ msg] |} in
  match end_thrown e with
  | Some msg => failed msg
  | None =>
      tryCatch (generateFinalReport projectPath (end_results e) (end_config e))
        (λ msg _, failed msg)
  end.

End Orchestrator.

End SmartBundleOptimizer.

(** ** The usage classifier (ComponentUsageAnalyzer.ts) *)

Module ComponentUsageAnalyzer.

Record ComponentImportInfo := {
  import_componentName : string;
  packageName : string;
  import_filePath : string;
  importStatement : string;
  isUIComponent : bool
}.

Record ComponentRenderInfo := {
  render_componentName : string;
  renderCount : nat;
  filePaths : list string;
  jsxUsages : list string
}.

Definition htmlTags : list string :=
  ["SVG"; "G"; "Path"; "Circle"; "Rect"; "Line"; "Text"; "Image"].

(** The body of the loop over the JSX matches of one file; [componentName] is
    [match[1]] and ["<" + componentName] is [match[0]]. *)
Definition recordUsage (filePath : string) (renderedComponents : JsMap ComponentRenderInfo)
    (componentName : string) : JsMap ComponentRenderInfo :=
  if includes htmlTags componentName then renderedComponents
  else
    match mapGet renderedComponents componentName with
    | Some info =>
        mapSet componentName
          {| render_componentName := render_componentName info;
             renderCount := S (renderCount info);
             filePaths := if includes (filePaths info) filePath then filePaths info
                          else filePaths info ++ [filePath];
             jsxUsages := jsxUsages info ++ ["<" +:+ componentName] |}
          renderedComponents
    | None =>
        mapSet componentName
          {| render_componentName := componentName; renderCount := 1;
             filePaths := [filePath]; jsxUsages := ["<" +:+ componentName] |}
          renderedComponents
    end.

Section Scan.

(** Reading a file and matching the JSX pattern against it: the capitalised
    tag names in order of occurrence, or [None] when the read fails. *)
Variable jsxTagsOf : string → option (list string).

Definition scanJSXUsage (sourceFiles : list string) : JsMap ComponentRenderInfo :=
  foldl (λ renderedComponents filePath,
           match jsxTagsOf filePath with
           | Some tags => foldl (recordUsage filePath) renderedComponents tags
           | None => renderedComponents
           end) [] sourceFiles.

End Scan.

Definition identifyBasicEliminationCandidates (imported : JsMap ComponentImportInfo)
    (rendered : JsMap ComponentRenderInfo) : list string :=
  foldl (λ candidates entry,
           let componentName := fst entry in
           match mapGet rendered componentName with
           | None => candidates ++ [componentName]
           | Some renderInfo =>
               if bool_decide (renderCount renderInfo ≤ 1)
                  && bool_decide (length (filePaths renderInfo) ≤ 1)
               then candidates ++ [componentName]
               else candidates
           end) [] imported.

(** Sample scan data: [Button] is rendered twice in one file, [Badge] once,
    [Tooltip] is imported only. *)
Definition sampleImport (componentName : string) : string * ComponentImportInfo :=
  (componentName,
   {| import_componentName := componentName;
      packageName := "@/components/ui/" +:+ componentName;
      import_filePath := "/app/client/src/pages/Home.tsx";
      importStatement := "import { " +:+ componentName +:+ " } from '@/components/ui/"
                         +:+ componentName +:+ "';";
      isUIComponent := true |}).

Definition sampleImported : JsMap ComponentImportInfo :=
  [sampleImport "Button"; sampleImport "Badge"; sampleImport "Tooltip"].

Definition sampleRendered : JsMap ComponentRenderInfo :=
  scanJSXUsage
    (λ filePath,
       if decide (filePath = "/app/client/src/pages/Home.tsx")
       then Some ["Button"; "Badge"; "Button"] else None)
    ["/app/client/src/pages/Home.tsx"; "/app/client/src/pages/Broken.tsx"].


(** [ComponentAnalysis] as [analyzeProject] builds it: the two maps are
    turned into plain objects (component name to file paths) before they are
    returned, whatever the interface says. *)
Record ComponentAnalysis := {
  totalDependencies : nat;
  totalComponents : nat;
  importedComponents : JsMap (list string);
  renderedComponents : JsMap (list string);
  eliminationCandidates : list string
}.

Record EliminationData := {
  data_eliminationCandidates : list string;
  safeCandidates : list string;
  riskyCandidates : list string;
  interdependentComponents : JsMap (list string)
}.

Record EliminationResult := {
  removedComponents : list string;
  removedPackages : list string;
  result_restoredComponents : list string;
  elimination_errors : list string
}.

(** The value passed where [classifyCandidatesSafety] expects a [Map]: a
    [Map], or the plain object [analyzeProject] returns. *)
Inductive ImportedComponents :=
| ImportedMap (entries : JsMap ComponentImportInfo)
| ImportedObject (properties : JsMap (list string)).

(** [importedComponents.get(candidate)].  A plain object has no [get] method
    (an own property of that name would hold an array), so the call throws. *)
Definition importedGet (importedComponents : ImportedComponents) (candidate : string)
  : Outcome (option ComponentImportInfo) :=
  match importedComponents with
  | ImportedMap entries => Return (mapGet entries candidate)
  | ImportedObject _ => Throw "importedComponents.get is not a function"
  end.

Definition isTrulyCritical (candidate : string) : bool :=
  bool_decide (candidate = "React") || bool_decide (candidate = "ReactDOM")
  || bool_decide (candidate = "Router") || bool_decide (candidate = "QueryClient")
  || bool_decide (candidate = "App").

(** The loop of [classifyCandidatesSafety]. *)
Fixpoint classifyEach (candidates : list string) (importedComponents : ImportedComponents)
    (safeCandidates riskyCandidates : list string) : Outcome (list string * list string) :=
  match candidates with
  | [] => Return (safeCandidates, riskyCandidates)
  | candidate :: rest =>
      match importedGet importedComponents candidate with
      | Throw msg => Throw msg
      | Return importInfo =>
          if isTrulyCritical candidate
          then classifyEach rest importedComponents safeCandidates
                 (riskyCandidates ++ [candidate])
          else classifyEach rest importedComponents (safeCandidates ++ [candidate])
                 riskyCandidates
      end
  end.

Definition classifyCandidatesSafety (candidates : list string)
    (interdependencies : JsMap (list string)) (importedComponents : ImportedComponents)
  : Outcome (list string * list string) :=
  classifyEach candidates importedComponents [] [].

(** *** identifyUnusedPackages *)

Definition componentToPackageMap : JsMap string :=
  [ ("Button", "@radix-ui/react-button");
    ("Card", "@radix-ui/react-card");
    ("Dialog", "@radix-ui/react-dialog");
    ("Dropdown", "@radix-ui/react-dropdown-menu") ].

(** [`@radix-ui/react-${name.toLowerCase().replace(/([A-Z])/g, '-$1').slice(1)}`] *)
Definition inferredPackage (componentName : string) : string :=
  "@radix-ui/react-" +:+ dropChars 1 (hyphenateCapitals (toLowerCase componentName)).

Definition packageFor (componentName : string) : string :=
  match mapGet componentToPackageMap componentName with
  | Some packageName => packageName
  | None => inferredPackage componentName
  end.

(** The result is [[...new Set(unusedPackages)]]. *)
Definition identifyUnusedPackages (removedComponents : list string) : list string :=
  foldl (λ unique packageName, setAdd packageName unique) []
    (packageFor <$> removedComponents).

Section Analysis.

(** The project as the analysis reads it: the glob of [findSourceFiles] (which
    may reject), the import and JSX matches of each file ([None] when the read
    fails), and the scan of the ui folder for internal dependencies, which
    catches its own failures. *)
Variable findSourceFiles : string → Outcome (list string).
Variable importsOf :
  string → option (list (list string * string * string)).
Variable jsxTagsOf : string → option (list string).
Variable findInterComponentDependencies : string → JsMap (list string).

(** The body of [imports.forEach]; [cleanName] is the import with its alias
    removed, [packageName] is [match[2]] and [statement] is [match[0]]. *)
Definition recordImport (filePath packageName statement : string)
    (importedComponents : JsMap ComponentImportInfo) (cleanName : string)
  : JsMap ComponentImportInfo :=
  if bool_decide (cleanName = "") then importedComponents
  else
    mapSet cleanName
      {| import_componentName := cleanName; packageName := packageName;
         import_filePath := filePath; importStatement := statement;
         isUIComponent := stringIncludes "@radix-ui/" packageName
                          || stringIncludes "@/components/ui/" packageName |}
      importedComponents.

Definition scanImports (sourceFiles : list string) : JsMap ComponentImportInfo :=
  foldl (λ importedComponents filePath,
           match importsOf filePath with
           | Some matches =>
               foldl (λ importedComponents m,
                        foldl (recordImport filePath m.1.2 m.2) importedComponents m.1.1)
                 importedComponents matches
           | None => importedComponents
           end) [] sourceFiles.

Definition analyzeProject (projectPath : string) : Outcome ComponentAnalysis :=
  match findSourceFiles projectPath with
  | Throw msg => Throw msg
  | Return sourceFiles =>
      let importedComponents := scanImports sourceFiles in
      let renderedComponents := scanJSXUsage jsxTagsOf sourceFiles in
      let eliminationCandidates :=
        identifyBasicEliminationCandidates importedComponents renderedComponents in
      Return {| totalDependencies := length importedComponents;
                totalComponents := length importedComponents;
                importedComponents :=
                  (λ entry, (entry.1, [import_filePath entry.2])) <$> importedComponents;
                renderedComponents :=
                  (λ entry, (entry.1, filePaths entry.2)) <$> renderedComponents;
                eliminationCandidates := eliminationCandidates |}
  end.

Definition identifyEliminationCandidates (projectPath : string) : Outcome EliminationData :=
  match analyzeProject projectPath with
  | Throw msg => Throw msg
  | Return analysis =>
      let basicCandidates := eliminationCandidates analysis in
      let interdependencies := findInterComponentDependencies projectPath in
      match classifyCandidatesSafety basicCandidates interdependencies
              (ImportedObject (importedComponents analysis)) with
      | Throw msg => Throw msg
      | Return (safeCandidates, riskyCandidates) =>
          Return {| data_eliminationCandidates := basicCandidates;
                    safeCandidates := safeCandidates;
                    riskyCandidates := riskyCandidates;
                    interdependentComponents := interdependencies |}
      end
  end.

End Analysis.

(** *** How often a source tree renders a component

    The comparison side of the candidate rule: the JSX elements of the source
    files, counted by tag name, whatever the scan makes of them.  A file that
    cannot be read shows no element. *)

Section Rendered.

Variable jsxTagsOf : string → option (list string).




End Rendered.



(** A one-page project for the analysis: [Home.tsx] imports [Button], [Badge]
    and [Tooltip] from the ui folder and renders the first two. *)
Definition samplePage : string := "/app/client/src/pages/Home.tsx".

Definition sampleSourceFiles (projectPath : string) : Outcome (list string) :=
  Return [samplePage].

Definition sampleImportsOf (filePath : string)
  : option (list (list string * string * string)) :=
  if decide (filePath = samplePage)
  then Some [(["Button"; "Badge"; "Tooltip"], "@/components/ui/kit",
              "import { Button, Badge, Tooltip } from '@/components/ui/kit';")]
  else None.

Definition sampleJsxTagsOf (filePath : string) : option (list string) :=
  if decide (filePath = samplePage) then Some ["Button"; "Badge"; "Button"] else None.





(** *** eliminateUnusedComponents and removeUnusedPackages *)

Section Elimination.

Import SmartRecovery.

Context {Tree BundleMetrics : Type} `{!Collaborators Tree BundleMetrics}.

(** [createBackup]: the recursive copy of the components folder to
    [.newk-backup]; a failing copy is caught and only logged. *)
Variable copyComponents : string → Tree → Tree.
(** The glob and the per-file rewriting of the analyzer's own
    [removeImportStatements]: per-file failures are caught inside, a failing
    glob rejects. *)
Variable rewriteComponentImports : string → list string → Tree → Tree + string.
(** The body of the [try] of [removeUnusedPackages]: the edit of
    [package.json], whose failures are caught and only logged. *)
Variable editPackageJson : string → list string → Tree → Tree.

Definition createBackup (projectPath : string) : M unit :=
  await t := getTree in putTree (copyComponents projectPath t).

Definition possiblePaths (projectPath componentName : string) : list string :=
  [ pathJoin projectPath ("client/src/components/ui/" +:+ componentName +:+ ".tsx");
    pathJoin projectPath ("client/src/components/ui/" +:+ componentName +:+ ".ts");
    pathJoin projectPath ("client/src/components/" +:+ componentName +:+ ".tsx");
    pathJoin projectPath ("client/src/components/" +:+ componentName +:+ ".ts") ].

Definition findComponentFile (projectPath componentName : string) : M (option string) :=
  await t := getTree in ret (firstAccessible (possiblePaths projectPath componentName) t).

(** The [for] loop of [eliminateUnusedComponents], with its two arrays. *)
Fixpoint eliminateEach (projectPath : string) (candidates : list string)
    (removedComponents errors : list string) : M (list string * list string) :=
  match candidates with
  | [] => ret (removedComponents, errors)
  | componentName :: rest =>
      await found := findComponentFile projectPath componentName in
      match found with
      | Some componentPath =>
          await t := getTree in
          match fs_rename componentPath (componentPath +:+ ".unused") t with
          | inl t' =>
              run putTree t' in
              eliminateEach projectPath rest (removedComponents ++ [componentName]) errors
          | inr msg =>
              eliminateEach projectPath rest removedComponents
                (errors ++ ["Failed to remove " +:+ componentName +:+ ": " +:+ msg])
          end
      | None => eliminateEach projectPath rest removedComponents errors
      end
  end.

Definition removeImportStatements (projectPath : string) (removedComponents : list string)
  : M unit :=
  if bool_decide (length removedComponents = 0) then ret tt
  else
    await t := getTree in
    match rewriteComponentImports projectPath removedComponents t with
    | inl t' => putTree t'
    | inr msg => throw msg
    end.

Definition eliminateUnusedComponents (projectPath : string) (candidates : list string)
  : M EliminationResult :=
  run createBackup projectPath in
  await looped := eliminateEach projectPath candidates [] [] in
  tryCatch
    (run removeImportStatements projectPath looped.1 in
     ret {| removedComponents := looped.1;
            removedPackages := identifyUnusedPackages looped.1;
            result_restoredComponents := [];
            elimination_errors := looped.2 |})
    (λ msg _,
       ret {| removedComponents := looped.1;
              removedPackages := [];
              result_restoredComponents := [];
              elimination_errors := looped.2 ++ ["Elimination failed: " +:+ msg] |}).

Definition removeUnusedPackages (projectPath : string) (packages : list string) : M unit :=
  if bool_decide (length packages = 0) then ret tt
  else await t := getTree in putTree (editPackageJson projectPath packages t).

End Elimination.

(** *** analyzeRefinementOpportunities and applyRefinements *)

Record RefinementData := {
  heavyDependencies : list string;
  unusedExports : JsMap (list string);
  optimizationOpportunities : list string
}.

Record RefinementResult := {
  appliedRefinements : list string;
  refinement_eliminatedDependencies : list string;
  refinement_errors : list string
}.

Definition identifyHeavyDependencies : list string :=
  ["@tanstack/react-query"; "recharts"; "framer-motion"; "lucide-react"].

(** A placeholder in the source: [new Map()]. *)
Definition findUnusedExports : JsMap (list string) := [].

Definition analyzeRefinementOpportunities : RefinementData :=
  {| heavyDependencies := identifyHeavyDependencies;
     unusedExports := findUnusedExports;
     optimizationOpportunities :=
       ["tree-shaking improvements"; "dynamic import opportunities";
        "bundle splitting optimizations"] |}.

Section Refinement.

(** [n.toString()] for the length in a message. *)
Variable lengthString : nat → string.

(** [applyRefinements].  [optimizeHeavyDependency] and [removeUnusedExports]
    only log, so neither loop can enter its [catch]; nothing is ever pushed to
    [eliminatedDependencies]. *)
Definition applyRefinements (data : RefinementData) : RefinementResult :=
  let appliedRefinements :=
    foldl (λ applied dep, applied ++ ["Optimized heavy dependency: " +:+ dep])
      [] (heavyDependencies data) in
  let appliedRefinements :=
    foldl (λ applied entry,
             applied ++ ["Removed " +:+ lengthString (length entry.2)
                         +:+ " unused exports from " +:+ entry.1])
      appliedRefinements (unusedExports data) in
  {| appliedRefinements := appliedRefinements;
     refinement_eliminatedDependencies := [];
     refinement_errors := [] |}.

End Refinement.

End ComponentUsageAnalyzer.

(** ** The tree-driven build configuration (class [TreeDrivenOptimizer] of
    TreeDrivenOptimizer.ts) *)

Module TreeDrivenOptimizer.

(** The dependency fields of the analysis.  The argument is untyped in the
    source and either field may be missing; [usedDependencies] is a [Set],
    [unusedDependencies] a list. *)
Record Analysis := {
  usedDependencies : option (list string);
  unusedDependencies : option (list string)
}.

Definition safeBuildTools : list string :=
  [ "esbuild"; "webpack"; "rollup"; "terser"; "tsx";
    "@types/node"; "@types/express"; "@types/ws"; "@types/passport";
    "@listenrightmeow/newk"; "@listenrightmeow/newk-plugin-bundle-optimization";
    "@listenrightmeow/newk-plugin-critical-css";
    "@listenrightmeow/newk-plugin-image-optimization";
    "@listenrightmeow/newk-plugin-lazy-loading"; "@listenrightmeow/newk-plugin-react";
    "@listenrightmeow/newk-plugin-seo"; "@listenrightmeow/newk-plugin-social-media";
    "@tailwindcss/vite";
    "drizzle-kit" ].

Definition validateExternalDependencies (external usedDependencies : list string)
  : Outcome unit :=
  let problematicExternals := filter (λ dep, dep ∈ usedDependencies) external in
  if bool_decide (0 < length problematicExternals)
  then Throw ("Cannot externalize imported dependencies: "
              +:+ joinWith ", " problematicExternals)
  else Return tt.

Definition generateExternalDependencies (analysis : Analysis) : Outcome (list string) :=
  let usedDependencies := default [] (usedDependencies analysis) in
  let external :=
    match unusedDependencies analysis with
    | Some unused =>
        foldl (λ external dep,
                 if includes usedDependencies dep then external
                 else if includes safeBuildTools dep || String.prefix "@types/" dep
                      then external ++ [dep]
                      else external) [] unused
    | None => []
    end in
  match validateExternalDependencies external usedDependencies with
  | Throw msg => Throw msg
  | Return _ => Return external
  end.

Definition shouldRemoveDependency (dependency : string) (analysis : Analysis) : bool :=
  let usedDependencies := default [] (usedDependencies analysis) in
  if includes usedDependencies dependency then false
  else if from_option (λ unused, includes unused dependency) false
            (unusedDependencies analysis)
       then true
       else false.

(** A sample analysis: [react] and [esbuild] are imported by the application,
    [esbuild] is nevertheless listed as unused. *)
Definition sampleAnalysis : Analysis :=
  {| usedDependencies := Some ["react"; "esbuild"];
     unusedDependencies := Some ["esbuild"; "terser"; "@types/lodash"; "lodash"] |}.

End TreeDrivenOptimizer.

(** ** The regular ALPHA phase (SmartBundleOptimizer.ts)

    The body of [executeAlphaPhase] past the look-up of the baseline, outside
    nuclear mode. *)

Module AlphaPhase.

Import SmartRecovery SmartBundleOptimizer.

(** What the phase reads of the result of [validateApplication]. *)
Record AppValidation := {
  app_success : bool;
  jsErrors : list string
}.

Section Regular.

Context {Tree BundleMetrics : Type} `{!Collaborators Tree BundleMetrics}.

(** The project as the analysis reads it in a given tree. *)
Variable findSourceFiles : Tree → string → Outcome (list string).
Variable importsOf : Tree → string → option (list (list string * string * string)).
Variable jsxTagsOf : Tree → string → option (list string).
Variable findInterComponentDependencies : Tree → string → JsMap (list string).

Variable copyComponents : string → Tree → Tree.
Variable rewriteComponentImports : string → list string → Tree → Tree + string.
Variable editPackageJson : string → list string → Tree → Tree.

(** [validator.validateApplication(projectPath)], or its rejection. *)
Variable validateApplication : string → Tree → AppValidation + string.
(** [metricsTracker.captureMetrics(projectPath, phase)] with what it does to
    the project: it removes [dist], runs the build and, when that succeeds,
    writes [<phase>-metrics.json].  The first component is the metrics or the
    message of the rejection, the second the tree the call leaves either way. *)
Variable captureMetrics : string → string → Tree → (BundleMetrics + string) * Tree.
(** The fields of the metrics the phase reports. *)
Variable totalSize : BundleMetrics → string.
Variable metricsDependencyCount : BundleMetrics → nat.
Variable metricsComponentCount : BundleMetrics → nat.
(** Writing [alpha-elimination.json]. *)
Variable writeAlphaData : string → Tree → Tree + string.
(** [Date.now() - startTime] *)
Variable elapsed : nat.

(** Step 4: the test of the application, giving [errors] and
    [shouldTriggerCharlie]. *)
Definition testAfterElimination (projectPath : string) (config : SmartOptimizationConfig)
  : M (list string * bool) :=
  if autoTest config then
    await t := getTree in
    match validateApplication projectPath t with
    | inl validationResult =>
        ret (jsErrors validationResult,
             negb (app_success validationResult)
             || bool_decide (0 < length (jsErrors validationResult)))
    | inr msg => ret (["Testing failed: " +:+ msg], true)
    end
  else ret ([], false).

Definition regularAlpha (projectPath : string) (config : SmartOptimizationConfig)
    (zuluResult : PhaseResult) : M PhaseResult :=
  tryCatch
    (await t := getTree in
     match ComponentUsageAnalyzer.identifyEliminationCandidates (findSourceFiles t)
             (importsOf t) (jsxTagsOf t) (findInterComponentDependencies t) projectPath with
     | Throw msg => throw msg
     | Return eliminationData =>
         await eliminationResult :=
           ComponentUsageAnalyzer.eliminateUnusedComponents copyComponents rewriteComponentImports
             projectPath (ComponentUsageAnalyzer.safeCandidates eliminationData) in
         run ComponentUsageAnalyzer.removeUnusedPackages editPackageJson projectPath
               (ComponentUsageAnalyzer.removedPackages eliminationResult) in
         await tested := testAfterElimination projectPath config in
         await t := getTree in
         let captured := captureMetrics projectPath "alpha" t in
         run putTree captured.2 in
         match captured.1 with
         | inr msg => throw msg
         | inl postBuildMetrics =>
             match writeAlphaData projectPath captured.2 with
             | inr msg => throw msg
             | inl t' =>
                 run putTree t' in
                 ret {| phase := alpha;
                        phase_success := bool_decide (length tested.1 = 0) && negb tested.2;
                        metrics :=
                          {| bundleSize := totalSize postBuildMetrics;
                             dependencyCount := metricsDependencyCount postBuildMetrics;
                             componentCount := metricsComponentCount postBuildMetrics;
                             buildTime := elapsed |};
                        changes :=
                          {| eliminatedComponents :=
                               ComponentUsageAnalyzer.removedComponents eliminationResult;
                             eliminatedDependencies :=
                               ComponentUsageAnalyzer.removedPackages eliminationResult;
                             changes_restoredComponents := [] |};
                        phase_errors := tested.1 |}
             end
         end
     end)
    (λ msg _,
       ret {| phase := alpha; phase_success := false;
              metrics :=
                {| bundleSize := bundleSize (metrics zuluResult);
                   dependencyCount := dependencyCount (metrics zuluResult);
                   componentCount := componentCount (metrics zuluResult);
                   buildTime := elapsed |};
              changes := noChanges;
              phase_errors := ["ALPHA phase failed: " +:+ msg] |}).

End Regular.

End AlphaPhase.

(** ** The validator (AutomatedValidator.ts) *)

Module AutomatedValidator.

(** [ServerHandle] without the child process. *)
Record ServerHandle := {
  port : nat;
  url : string
}.

Record RouteValidation := {
  route : string;
  route_success : bool;
  route_loadTime : nat;
  route_jsErrors : list string;
  consoleWarnings : list string;
  (** [None] is [NaN], what [parseInt] gives on a malformed status line. *)
  statusCode : option nat
}.

(** [ValidationResult], with its optional fields. *)
Record ValidationResult := {
  success : bool;
  loadTime : option nat;
  jsErrors : option (list string);
  routesValidated : option (list string);
  failedRoutes : option (list string);
  errors : list string;
  warnings : list string
}.

(** A method of the validator: it may reject, and it reads and writes the
    field [serverHandle]. *)
Definition V (A : Type) : Type := option ServerHandle → Outcome A * option ServerHandle.

Definition vret {A} (a : A) : V A := λ h, (Return a, h).
Definition vthrow {A} (msg : string) : V A := λ h, (Throw msg, h).
Definition vbind {A B} (m : V A) (k : A → V B) : V B :=
  λ h, match m h with
       | (Return a, h') => k a h'
       | (Throw msg, h') => (Throw msg, h')
       end.
(** [try { m } catch (error) { handler(error.message) }] *)
Definition vtry {A} (m : V A) (handler : string → V A) : V A :=
  λ h, match m h with
       | (Return a, h') => (Return a, h')
       | (Throw msg, h') => handler msg h'
       end.
(** [try { m } finally { cleanup }]: a rejecting [cleanup] overrides. *)
Definition vfinally {A} (m : V A) (cleanup : V unit) : V A :=
  λ h, match m h with
       | (out, h') =>
           match cleanup h' with
           | (Return _, h'') => (out, h'')
           | (Throw msg, h'') => (Throw msg, h'')
           end
       end.
Definition getHandle : V (option ServerHandle) := λ h, (Return h, h).
Definition setHandle (h' : option ServerHandle) : V unit := λ _, (Return tt, h').
Definition lift {A} (o : Outcome A) : V A := λ h, (o, h).

Notation "'vlet' x ':=' m 'in' k" := (vbind m (λ x, k))
  (at level 10, x name, m at level 100, k at level 200).
Notation "'vdo' m 'in' k" := (vbind m (λ _, k))
  (at level 10, m at level 100, k at level 200).

(** [[...new Set(jsErrors)]] *)
Definition unique (l : list string) : list string :=
  foldl (λ seen x, setAdd x seen) [] l.

Definition defaultRoutes : list string :=
  ["/"; "/docs"; "/features"; "/installation"; "/legal"; "/roadmap"].

Section Validator.

Context {Tree : Type}.

(** [lsof -ti:port] succeeds: the port is in use. *)
Variable portInUse : nat → Tree → bool.
(** [port.toString()] *)
Variable portString : nat → string.
(** The promise of [startServer] once the port is chosen: [None] when the
    server announces itself, otherwise the message of the rejection. *)
Variable spawnServer : string → nat → Tree → option string.
(** Whether a [curl] of the url succeeds within the timeout. *)
Variable reachable : string → N → Tree → bool.
(** [timeout.toString()] for the message of [waitForServerReady]. *)
Variable timeoutString : N → string.
(** [process.kill('SIGTERM')]: [None], or the message it throws. *)
Variable kill : ServerHandle → option string.
(** [discoverRoutes], which catches its own failures. *)
Variable discoverRoutes : string → Tree → list string.
(** The [curl] of one route: its standard output, or the rejection. *)
Variable curl : string → Tree → Outcome string.
(** From the output: the status after [HTTPSTATUS:] ([Some None] for a
    malformed number, [None] when the line is missing), the rounded time and
    the content without the two status lines. *)
Variable statusOf : string → option (option nat).
Variable timeOf : string → nat.
Variable contentOf : string → string.
(** [npm run build]: [None] when it succeeds, the error message otherwise. *)
Variable npmRunBuild : string → Tree → option string.
(** [Date.now() - startTime] *)
Variable elapsed : nat.

(** The loop of [findAvailablePort], over the ports still to try. *)
Fixpoint scanPorts (count port : nat) (t : Tree) : Outcome nat :=
  match count with
  | O => Throw "No available ports found"
  | S count' => if portInUse port t then scanPorts count' (S port) t else Return port
  end.

Definition findAvailablePort (startPort : nat) (t : Tree) : Outcome nat :=
  scanPorts 100 startPort t.

Definition startServer (projectPath : string) (t : Tree) : Outcome ServerHandle :=
  match findAvailablePort 3000 t with
  | Throw msg => Throw msg
  | Return port =>
      match spawnServer projectPath port t with
      | None => Return {| port := port; url := "http://localhost:" +:+ portString port |}
      | Some msg => Throw msg
      end
  end.

Definition stopServer : V unit :=
  vlet handle := getHandle in
  match handle with
  | Some serverHandle =>
      vtry
        (match kill serverHandle with
         | None => setHandle None
         | Some msg => vthrow msg
         end)
        (λ _, vret tt)
  | None => vret tt
  end.

Definition waitForServerReady (url : string) (timeout : N) (t : Tree) : Outcome unit :=
  if reachable url timeout t then Return tt
  else Throw ("Server not ready after " +:+ timeoutString timeout +:+ "ms").

Definition validateRoute (serverUrl route : string) (t : Tree) : Outcome RouteValidation :=
  let fullUrl := serverUrl +:+ route in
  match curl fullUrl t with
  | Return stdout =>
      let statusCode :=
        match statusOf stdout with
        | Some parsed => parsed
        | None => Some 0
        end in
      let success :=
        match statusCode with
        | Some code => bool_decide (200 ≤ code) && bool_decide (code < 300)
        | None => false
        end in
      let jsErrors :=
        if negb (stringIncludes "<!DOCTYPE html" (contentOf stdout))
           && negb (stringIncludes "<html" (contentOf stdout))
        then ["Response does not appear to be valid HTML"]
        else [] in
      Return {| route := route; route_success := success; route_loadTime := timeOf stdout;
                route_jsErrors := jsErrors; consoleWarnings := [];
                statusCode := statusCode |}
  | Throw msg =>
      Return {| route := route; route_success := false; route_loadTime := elapsed;
                route_jsErrors := ["Request failed: " +:+ msg]; consoleWarnings := [];
                statusCode := Some 0 |}
  end.

(** The five arrays [validateApplication] fills. *)
Record Tally := {
  tally_jsErrors : list string;
  tally_warnings : list string;
  tally_errors : list string;
  validatedRoutes : list string;
  tally_failedRoutes : list string
}.

(** The body of the [for] loop over the routes. *)
Definition tallyRoute (serverUrl : string) (t : Tree) (acc : Tally) (route : string)
  : Tally :=
  match validateRoute serverUrl route t with
  | Return routeResult =>
      {| tally_jsErrors := tally_jsErrors acc ++ route_jsErrors routeResult;
         tally_warnings := tally_warnings acc ++ consoleWarnings routeResult;
         tally_errors := tally_errors acc;
         validatedRoutes :=
           if route_success routeResult then validatedRoutes acc ++ [route]
           else validatedRoutes acc;
         tally_failedRoutes :=
           if route_success routeResult then tally_failedRoutes acc
           else tally_failedRoutes acc ++ [route] |}
  | Throw msg =>
      {| tally_jsErrors := tally_jsErrors acc;
         tally_warnings := tally_warnings acc;
         tally_errors := tally_errors acc ++ ["Route " +:+ route +:+ " failed: " +:+ msg];
         validatedRoutes := validatedRoutes acc;
         tally_failedRoutes := tally_failedRoutes acc ++ [route] |}
  end.

(** [validateApplication].  Its step 5, [testCriticalInteractions], repeats
    three of the requests and drops what they return.  Only the start of the
    server and the wait for it can reject inside the [try], so the arrays are
    still empty when the outer [catch] runs. *)
Definition validateApplication (projectPath : string) (t : Tree) : V ValidationResult :=
  vfinally
    (vtry
       (vlet handle := lift (startServer projectPath t) in
        vdo setHandle (Some handle) in
        vdo lift (waitForServerReady (url handle) 10000%N t) in
        let routes := discoverRoutes projectPath t in
        let tally :=
          foldl (tallyRoute (url handle) t)
            {| tally_jsErrors := []; tally_warnings := []; tally_errors := [];
               validatedRoutes := []; tally_failedRoutes := [] |} routes in
        vret {| success := bool_decide (length (tally_failedRoutes tally) = 0)
                           && bool_decide (length (tally_errors tally) = 0);
                loadTime := Some elapsed;
                jsErrors := Some (unique (tally_jsErrors tally));
                routesValidated := Some (validatedRoutes tally);
                failedRoutes := Some (tally_failedRoutes tally);
                errors := tally_errors tally;
                warnings := tally_warnings tally |})
       (λ msg,
          vret {| success := false; loadTime := None; jsErrors := Some [];
                  routesValidated := Some []; failedRoutes := Some [];
                  errors := ["Validation failed: " +:+ msg]; warnings := [] |}))
    stopServer.

Definition quickValidation (projectPath : string) (t : Tree) : V ValidationResult :=
  vtry
    (match npmRunBuild projectPath t with
     | Some error =>
         vret {| success := false; loadTime := None; jsErrors := Some [];
                 routesValidated := None; failedRoutes := None;
                 errors := ["Build failed: " +:+ error]; warnings := [] |}
     | None =>
         vlet handle := lift (startServer projectPath t) in
         vdo setHandle (Some handle) in
         vdo lift (waitForServerReady (url handle) 5000%N t) in
         vlet homeResult := lift (validateRoute (url handle) "/" t) in
         vdo stopServer in
         vret {| success := route_success homeResult;
                 loadTime := Some (route_loadTime homeResult);
                 jsErrors := Some (route_jsErrors homeResult);
                 routesValidated := Some (if route_success homeResult then ["/"] else []);
                 failedRoutes := Some (if route_success homeResult then [] else ["/"]);
                 errors := if route_success homeResult then [] else ["Home route failed"];
                 warnings := consoleWarnings homeResult |}
     end)
    (λ msg,
       vdo stopServer in
       vret {| success := false; loadTime := None; jsErrors := Some [];
               routesValidated := None; failedRoutes := None;
               errors := ["Quick validation failed: " +:+ msg]; warnings := [] |}).

End Validator.

End AutomatedValidator.

(** ** The BETA phase (SmartBundleOptimizer.ts)

    The body of [executeBetaPhase] past the look-up of the ALPHA result. *)

Module BetaPhase.

Import SmartRecovery SmartBundleOptimizer.

Section Refine.

Context {Tree BundleMetrics : Type}.

Variable lengthString : nat → string.
(** [validator.validateApplication(projectPath)], or its rejection. *)
Variable validateApplication : string → Tree → AlphaPhase.AppValidation + string.
(** [metricsTracker.captureMetrics(projectPath, phase)] with what it does to
    the project (it removes [dist], runs the build and writes
    [<phase>-metrics.json]): the metrics or the message of the rejection, and
    the tree the call leaves either way. *)
Variable captureMetrics : string → string → Tree → (BundleMetrics + string) * Tree.
Variable totalSize : BundleMetrics → string.
Variable metricsDependencyCount : BundleMetrics → nat.
Variable metricsComponentCount : BundleMetrics → nat.
(** Writing [beta-refinement.json]. *)
Variable writeBetaData : string → Tree → Tree + string.
(** [Date.now() - startTime] *)
Variable elapsed : nat.

(** Step 3: the test of the refinements, giving [errors]. *)
Definition testRefinements (projectPath : string) (config : SmartOptimizationConfig)
  : M (list string) :=
  if autoTest config then
    await t := getTree in
    match validateApplication projectPath t with
    | inl performance => ret (AlphaPhase.jsErrors performance)
    | inr msg => ret ["Testing failed: " +:+ msg]
    end
  else ret [].

Definition regularBeta (projectPath : string) (config : SmartOptimizationConfig)
    (alphaResult : PhaseResult) : M PhaseResult :=
  tryCatch
    (let refinementData := ComponentUsageAnalyzer.analyzeRefinementOpportunities in
     let refinementResult := ComponentUsageAnalyzer.applyRefinements lengthString refinementData in
     await errors := testRefinements projectPath config in
     await t := getTree in
     let captured := captureMetrics projectPath "beta" t in
     run putTree captured.2 in
     match captured.1 with
     | inr msg => throw msg
     | inl postBuildMetrics =>
         match writeBetaData projectPath captured.2 with
         | inr msg => throw msg
         | inl t' =>
             run putTree t' in
             ret {| phase := beta;
                    phase_success := bool_decide (length errors = 0);
                    metrics :=
                      {| bundleSize := totalSize postBuildMetrics;
                         dependencyCount := metricsDependencyCount postBuildMetrics;
                         componentCount := metricsComponentCount postBuildMetrics;
                         buildTime := elapsed |};
                    changes :=
                      {| eliminatedComponents := [];
                         eliminatedDependencies :=
                           ComponentUsageAnalyzer.refinement_eliminatedDependencies refinementResult;
                         changes_restoredComponents := [] |};
                    phase_errors := errors |}
         end
     end)
    (λ msg _,
       ret {| phase := beta; phase_success := false; metrics := metrics alphaResult;
              changes := noChanges;
              phase_errors := ["BETA phase failed: " +:+ msg] |}).

End Refine.

End BetaPhase.

(** ** A concrete working tree: the set of paths that exist

    The simplest tree the collaborators' interface admits, used to run the
    engine on examples: [fs.access] is membership, [fs.rename] moves a path and
    rejects when the source is missing, import rewriting leaves the set of
    paths alone, and the build succeeds exactly on the trees [builds] accepts. *)

Module PathSet.

Import SmartRecovery.

Abbreviation Tree := (gset string).

Definition access (p : string) (t : Tree) : bool := bool_decide (p ∈ t).

Definition rename (from to : string) (t : Tree) : Tree + string :=
  if bool_decide (from ∈ t) then inl ({[to]} ∪ t ∖ {[from]})
  else inr ("ENOENT: no such file or directory, rename " +:+ from).

Definition collaborators (builds : Tree → bool) : Collaborators Tree unit :=
  {| fs_access := access;
     fs_rename := rename;
     rewriteImports := λ _ _ t, inl t;
     npmRunBuild := λ _ t, if builds t then None else Some "Command failed: npm run build";
     captureMetrics := λ _ _ _, inl tt |}.

(** A validator whose quick and full validations both pass exactly on the
    trees [works] accepts. *)
Definition validator (works : Tree → bool) : Validator Tree :=
  let validate := λ (_ : string) (t : Tree),
    inl {| vr_success := works t;
           vr_errors := if works t then [] else ["Home route failed"] |} in
  {| quickValidation := validate; validateApplication := validate |}.

Definition uiFile (componentName : string) : string :=
  "/app/client/src/components/ui/" +:+ componentName +:+ ".tsx".

(** All of [names] eliminated: every component file renamed to [.unused]. *)
Definition eliminated (names : list string) : Tree :=
  list_to_set ((λ c, uiFile c +:+ ".unused") <$> names).

Definition present (componentName : string) (t : Tree) : bool :=
  bool_decide (uiFile componentName ∈ t).

Definition failedAlpha (components deps : list string) : PhaseResult :=
  {| phase := alpha; phase_success := false;
     metrics := {| bundleSize := "100 KB"; dependencyCount := 0; componentCount := 0;
                   buildTime := 0 |};
     changes := {| eliminatedComponents := components; eliminatedDependencies := deps;
                   changes_restoredComponents := [] |};
     phase_errors := ["Home route failed"] |}.

Definition noOverrides : PartialRecoveryConfig :=
  {| opt_maxIterations := None; opt_testEachIteration := None;
     opt_preserveCritical := None; opt_recoveryStrategy := None |}.

Definition withMaxIterations (n : nat) : PartialRecoveryConfig :=
  {| opt_maxIterations := Some n; opt_testEachIteration := None;
     opt_preserveCritical := None; opt_recoveryStrategy := None |}.

(** The application works when every component of [required] is in place. *)
Definition needs (required : list string) (t : Tree) : bool :=
  forallb (λ c, present c t) required.

(** A project that always builds and whose validation needs only [A]. *)
Definition world : Collaborators Tree unit := collaborators (λ _, true).
Definition onlyA : option (Validator Tree) := Some (validator (needs ["A"])).

(** The search over the elimination [A, B, C] from the tree where all three
    are eliminated. *)
Definition search : Run SearchResult :=
  binarySearchOptimalSet (Collaborators0 := world) onlyA "/app" ["A"; "B"; "C"] []
    defaultConfig (eliminated ["A"; "B"; "C"]).

(** A project whose validation passes as soon as [A] or [C] is in place, and
    the search over the elimination [A, B, C, D]. *)
Definition eitherAorC : option (Validator Tree) :=
  Some (validator (λ t, present "A" t || present "C" t)).

Definition searchEither : Run SearchResult :=
  binarySearchOptimalSet (Collaborators0 := world) eitherAorC "/app" ["A"; "B"; "C"; "D"] []
    defaultConfig (eliminated ["A"; "B"; "C"; "D"]).

(** Engines for the orchestrator over the same tree: the baseline always
    succeeds, the elimination disables [A], [B] and [C] and reports whether the
    application still works, the refinement changes nothing. *)
Definition baselineMetrics : PhaseMetrics :=
  {| bundleSize := "419 KB"; dependencyCount := 3; componentCount := 3; buildTime := 0 |}.

Definition engines : SmartBundleOptimizer.Engines Tree unit :=
  {| SmartBundleOptimizer.zuluBaseline := λ _ _ t, (Return baselineMetrics, t);
     SmartBundleOptimizer.alphaElimination := λ _ _ zuluResult _,
       let t' := eliminated ["A"; "B"; "C"] in
       ({| phase := alpha; phase_success := needs ["A"] t';
           metrics := metrics zuluResult;
           changes := {| eliminatedComponents := ["A"; "B"; "C"];
                         eliminatedDependencies := [];
                         changes_restoredComponents := [] |};
           phase_errors := ["Home route failed"] |}, t');
     SmartBundleOptimizer.betaRefinement := λ _ _ alphaResult t,
       ({| phase := beta; phase_success := true; metrics := metrics alphaResult;
           changes := noChanges; phase_errors := [] |}, t);
     SmartBundleOptimizer.orchestratorValidator := validator (needs ["A"]);
     SmartBundleOptimizer.totalSize := λ _, "275 KB" |}.

(** The caller asks for baseline, elimination and refinement only. *)
Definition threePhases : SmartBundleOptimizer.SmartOptimizationConfig :=
  {| SmartBundleOptimizer.mode := ModeSmart;
     SmartBundleOptimizer.phases := [zulu; alpha; beta];
     SmartBundleOptimizer.autoTest := true;
     SmartBundleOptimizer.visualize := false;
     SmartBundleOptimizer.compare := false;
     SmartBundleOptimizer.lastKnownGood := None |}.

(** All three components in place. *)
Definition intact : Tree := list_to_set (uiFile <$> ["A"; "B"; "C"]).

(** The caller lists the elimination twice, as in [--phases zulu,alpha,alpha,beta]. *)
Definition alphaTwice : SmartBundleOptimizer.SmartOptimizationConfig :=
  {| SmartBundleOptimizer.mode := ModeSmart;
     SmartBundleOptimizer.phases := [zulu; alpha; alpha; beta];
     SmartBundleOptimizer.autoTest := true;
     SmartBundleOptimizer.visualize := false;
     SmartBundleOptimizer.compare := false;
     SmartBundleOptimizer.lastKnownGood := None |}.

(** [fs.rename] of a component file to its [.unused] name. *)
Definition disable (componentName : string) (t : Tree) : Tree :=
  {[uiFile componentName +:+ ".unused"]} ∪ t ∖ {[uiFile componentName]}.

(** Engines whose elimination disables one component per run: [C] while it is
    in place, which the application survives, and [A] after that, which breaks
    it.  The refinement changes nothing and succeeds. *)
Definition enginesOneByOne : SmartBundleOptimizer.Engines Tree unit :=
  {| SmartBundleOptimizer.zuluBaseline := λ _ _ t, (Return baselineMetrics, t);
     SmartBundleOptimizer.alphaElimination := λ _ _ zuluResult t,
       let componentName := if present "C" t then "C" else "A" in
       let t' := disable componentName t in
       ({| phase := alpha; phase_success := needs ["A"] t';
           metrics := metrics zuluResult;
           changes := {| eliminatedComponents := [componentName];
                         eliminatedDependencies := [];
                         changes_restoredComponents := [] |};
           phase_errors := if needs ["A"] t' then [] else ["Home route failed"] |}, t');
     SmartBundleOptimizer.betaRefinement := λ _ _ alphaResult t,
       ({| phase := beta; phase_success := true; metrics := metrics alphaResult;
           changes := noChanges; phase_errors := [] |}, t);
     SmartBundleOptimizer.orchestratorValidator := validator (needs ["A"]);
     SmartBundleOptimizer.totalSize := λ _, "275 KB" |}.

(** The caller leaves the baseline out. *)
Definition skipBaseline : SmartBundleOptimizer.SmartOptimizationConfig :=
  {| SmartBundleOptimizer.mode := ModeSmart;
     SmartBundleOptimizer.phases := [alpha; beta];
     SmartBundleOptimizer.autoTest := true;
     SmartBundleOptimizer.visualize := false;
     SmartBundleOptimizer.compare := false;
     SmartBundleOptimizer.lastKnownGood := None |}.

End PathSet.

(** * Properties *)

Import SmartRecovery.

Lemma ceilHalf_bounds n : n ≤ 2 * ceilHalf n ∧ 2 * ceilHalf n ≤ n + 1.
Proof.
  unfold ceilHalf.
  destruct (Nat.Even_or_Odd (S n)) as [[k Hk]|[k Hk]].
  - rewrite Hk. rewrite Nat.div2_double. lia.
  - rewrite Hk. replace (2 * k + 1) with (S (2 * k)) by lia.
    rewrite Nat.div2_succ_double. lia.
Qed.

Lemma countIf_app f a b : countIf f (a ++ b) = countIf f a + countIf f b.
Proof. unfold countIf. rewrite List.filter_app, length_app. done. Qed.

Lemma bisections_cons fuel ws :
  0 < length ws →
  bisections (S fuel) ws
  = take (ceilHalf (length ws)) ws :: bisections fuel (drop (ceilHalf (length ws)) ws).
Proof. destruct ws; cbn [length]; [lia|done]. Qed.

Lemma bisections_concat fuel ws :
  length ws ≤ fuel → concat (bisections fuel ws) = ws.
Proof.
  revert ws. induction fuel as [|fuel IH]; intros ws Hfuel.
  - destruct ws; [done|cbn in Hfuel; lia].
  - destruct ws as [|c ws]; [done|].
    rewrite bisections_cons by (cbn; lia). cbn [concat].
    rewrite IH, take_drop; [done|].
    rewrite length_drop.
    pose proof (ceilHalf_bounds (length (c :: ws))). cbn [length] in *. lia.
Qed.

Section MonadFacts.
Context {Tree : Type}.
Implicit Types (t : Tree).

Lemma events_bind {A B} (m : M A) (k : A → M B) t :
  events (bind m k t) =
  events (m t) ++ match outcome (m t) with
                  | Return a => events (k a (treeAfter (m t)))
                  | Throw _ => []
                  end.
Proof. unfold bind. destruct (outcome (m t)); cbn; [done | by rewrite app_nil_r]. Qed.

Lemma pushed_bind {A B} (m : M A) (k : A → M B) t :
  pushed (bind m k t) =
  pushed (m t) ++ match outcome (m t) with
                  | Return a => pushed (k a (treeAfter (m t)))
                  | Throw _ => []
                  end.
Proof. unfold bind. destruct (outcome (m t)); cbn; [done | by rewrite app_nil_r]. Qed.

Lemma outcome_bind {A B} (m : M A) (k : A → M B) t :
  outcome (bind m k t) =
  match outcome (m t) with
  | Return a => outcome (k a (treeAfter (m t)))
  | Throw msg => Throw msg
  end.
Proof. unfold bind. by destruct (outcome (m t)). Qed.

Lemma treeAfter_bind {A B} (m : M A) (k : A → M B) t :
  treeAfter (bind m k t) =
  match outcome (m t) with
  | Return a => treeAfter (k a (treeAfter (m t)))
  | Throw msg => treeAfter (m t)
  end.
Proof. unfold bind. by destruct (outcome (m t)). Qed.

Lemma outcome_tryCatch {A} (m : M A) handler t :
  outcome (tryCatch m handler t)
  = match outcome (m t) with
    | Return a => Return a
    | Throw msg => outcome (handler msg (pushed (m t)) (treeAfter (m t)))
    end.
Proof. unfold tryCatch. by destruct (outcome (m t)) eqn:Hm. Qed.

Lemma treeAfter_tryCatch {A} (m : M A) handler t :
  treeAfter (tryCatch m handler t)
  = match outcome (m t) with
    | Return a => treeAfter (m t)
    | Throw msg => treeAfter (handler msg (pushed (m t)) (treeAfter (m t)))
    end.
Proof. unfold tryCatch. by destruct (outcome (m t)) eqn:Hm. Qed.

End MonadFacts.

Ltac run_simpl :=
  repeat (rewrite ?outcome_bind, ?events_bind, ?pushed_bind, ?treeAfter_bind; cbn).

Section EngineFacts.
Context {Tree BundleMetrics : Type} `{!Collaborators Tree BundleMetrics}.
Implicit Types (t : Tree) (v : option (Validator Tree)) (p : string)
  (cfg : RecoveryConfig) (lv : LoopVars).

#[local] Arguments firstAccessible : simpl never.
#[local] Arguments unusedPaths : simpl never.
#[local] Arguments activePaths : simpl never.
#[local] Arguments replaceFirst : simpl never.

Lemma restoreEach_run p comps errs t :
  events (restoreEach p comps errs t) = [] ∧ pushed (restoreEach p comps errs t) = []
  ∧ ∃ errs', outcome (restoreEach p comps errs t) = Return (errs ++ errs').
Proof.
  revert errs t. induction comps as [|c comps IH]; intros errs t.
  - cbn. split_and!; try done. exists []. by rewrite app_nil_r.
  - cbn. destruct (firstAccessible _ _) as [componentPath|]; cbn.
    + destruct (fs_rename _ _ _) as [t'|msg]; cbn.
      * destruct (IH errs t') as (-> & -> & errs' & ->). cbn. eauto.
      * destruct (IH (errs ++ ["Failed to restore " +:+ c +:+ ": " +:+ msg]) t)
          as (-> & -> & errs' & ->). cbn. split_and!; try done.
        eexists. by rewrite <- app_assoc.
    + destruct (IH (errs ++ ["Component file not found: " +:+ c]) t)
          as (-> & -> & errs' & ->). cbn. split_and!; try done.
        eexists. by rewrite <- app_assoc.
Qed.

Lemma restoreComponents_run p comps t :
  ∃ errs,
    outcome (restoreComponents p comps t) = Return (bool_decide (length errs = 0), errs)
    ∧ events (restoreComponents p comps t) = [EvRestore comps]
    ∧ pushed (restoreComponents p comps t) = [].
Proof.
  destruct (restoreEach_run p comps [] t) as (Hev & Hpu & errs & Hout).
  exists errs. unfold restoreComponents. run_simpl. rewrite Hout, Hev, Hpu. cbn. done.
Qed.

Lemma removeEach_run p comps t :
  events (removeEach p comps t) = [] ∧ pushed (removeEach p comps t) = []
  ∧ outcome (removeEach p comps t) = Return tt.
Proof.
  revert t. induction comps as [|c comps IH]; intros t; [done|].
  cbn. destruct (firstAccessible _ _) as [componentPath|]; cbn.
  - destruct (fs_rename _ _ _) as [t'|msg]; cbn.
    + destruct (IH t') as (-> & -> & ->). done.
    + destruct (IH t) as (-> & -> & ->). done.
  - destruct (IH t) as (-> & -> & ->). done.
Qed.

Lemma removeComponents_run p comps t :
  events (removeComponents p comps t) = [EvRemove comps]
  ∧ pushed (removeComponents p comps t) = []
  ∧ (outcome (removeComponents p comps t) = Return tt
     ∨ ∃ msg, outcome (removeComponents p comps t) = Throw msg ∧ globFailure msg).
Proof.
  destruct (removeEach_run p comps t) as (Hev & Hpu & Hout).
  unfold removeComponents, removeImportStatements. run_simpl. rewrite Hout, Hev, Hpu. cbn.
  destruct (rewriteImports _ _ _) as [t'|msg] eqn:Hglob; cbn.
  - auto.
  - split_and!; try done. right. exists msg. split; [done|]. by eexists _, _, _.
Qed.

Lemma testCurrentState_run v p cfg site t :
  ∃ ok errs,
    outcome (testCurrentState v p cfg site t) = Return (ok, errs)
    ∧ events (testCurrentState v p cfg site t) = [EvProbe site ok]
    ∧ pushed (testCurrentState v p cfg site t) = []
    ∧ treeAfter (testCurrentState v p cfg site t) = t.
Proof.
  unfold testCurrentState, testBuildOnly.
  destruct v as [val|]; [destruct (testEachIteration cfg)|]; run_simpl.
  - destruct (quickValidation val p t); cbn; by eexists _, _.
  - destruct (npmRunBuild p t); cbn; by eexists _, _.
  - destruct (npmRunBuild p t); cbn; by eexists _, _.
Qed.

#[local] Arguments restoreComponents : simpl never.
#[local] Arguments removeComponents : simpl never.
#[local] Arguments testCurrentState : simpl never.

Lemma necessityTested_app_l c pre evs :
  necessityTested c evs → necessityTested c (pre ++ evs).
Proof. intros (a & b & ->). exists (pre ++ a), b. by rewrite <- app_assoc. Qed.

Lemma necessityTested_app_r c evs post :
  necessityTested c evs → necessityTested c (evs ++ post).
Proof.
  intros (a & b & ->). exists a, (b ++ post). by rewrite <- !app_assoc.
Qed.

Lemma minimizeEach_run v p cfg ws acc t :
  let r := minimizeEach v p cfg ws acc t in
  pushed r = [] ∧ iterationsRun (events r) = 0 ∧ outerProbes (events r) = 0
  ∧ match outcome r with
    | Return kept =>
        ∀ c, c ∈ kept → c ∈ acc ∨ (c ∈ ws ∧ necessityTested c (events r))
    | Throw msg => globFailure msg
    end.
Proof.
  revert acc t. induction ws as [|c ws IH]; intros acc t; cbn zeta.
  - cbn. split_and!; auto.
  - cbn [minimizeEach]. run_simpl.
    destruct (removeComponents_run p [c] t) as (Hev & Hpu & Hout).
    rewrite Hev, Hpu.
    destruct Hout as [Hout|(msg & Hout & Hglob)]; rewrite Hout; [|by cbn].
    destruct (testCurrentState_run v p cfg MinimizeProbe
                (treeAfter (removeComponents p [c] t)))
      as (ok & errs & Hout2 & Hev2 & Hpu2 & Htree2).
    rewrite Hout2, Hev2, Hpu2, Htree2. cbn.
    destruct ok; cbn.
    + specialize (IH acc (treeAfter (removeComponents p [c] t))). cbn zeta in IH.
      destruct IH as (-> & Hit & Hop & IH). unfold iterationsRun, outerProbes in *.
      split_and!; try done.
      destruct (outcome (minimizeEach _ _ _ _ _ _)); [|done].
      intros c' Hc'. destruct (IH c' Hc') as [?|[? ?]]; [by left|right].
      split; [set_solver|].
      by apply (necessityTested_app_l _ [_; _]).
    + run_simpl.
      destruct (restoreComponents_run p [c] (treeAfter (removeComponents p [c] t)))
        as (errs' & Hout3 & Hev3 & Hpu3).
      rewrite Hout3, Hev3, Hpu3. cbn.
      set (t' := treeAfter (restoreComponents p [c] _)).
      specialize (IH (acc ++ [c]) t'). cbn zeta in IH.
      destruct IH as (-> & Hit & Hop & IH). unfold iterationsRun, outerProbes in *.
      split_and!; try done.
      destruct (outcome (minimizeEach _ _ _ _ _ _)); [|done].
      intros c' Hc'. destruct (IH c' Hc') as [Hacc|[? ?]].
      * apply elem_of_app in Hacc as [?|Hc]; [by left|right].
        apply list_elem_of_singleton in Hc as ->. split; [set_solver|].
        by exists [], (events (minimizeEach v p cfg ws (acc ++ [c]) t')).
      * right. split; [set_solver|].
        by apply (necessityTested_app_l _ [_; _; _]).
Qed.

Lemma minimizeEach_cons v p cfg c rest acc :
  minimizeEach v p cfg (c :: rest) acc
  = run removeComponents p [c] in
    await testResult := testCurrentState v p cfg MinimizeProbe in
    if negb (fst testResult) then
      run restoreComponents p [c] in minimizeEach v p cfg rest (acc ++ [c])
    else minimizeEach v p cfg rest acc.
Proof. reflexivity. Qed.

#[local] Arguments minimizeEach : simpl never.
#[local] Arguments ceilHalf : simpl never.

Lemma iterationBody_run v p cfg lv t :
  let r := iterationBody v p cfg lv t in
  let n := length (workingSet lv) in
  let testSet := take (ceilHalf n) (workingSet lv) in
  (∃ rest, events r = EvIteration (S (currentIteration lv)) n :: EvRestore testSet :: rest)
  ∧ iterationsRun (events r) = 1
  ∧ outerProbes (events r) ≤ 1
  ∧ match outcome r with
    | Return lv' =>
        workingSet lv' = drop (ceilHalf n) (workingSet lv)
        ∧ currentIteration lv' = S (currentIteration lv)
        ∧ (∃ ok errs,
             pushed r = [{| iteration := S (currentIteration lv); action := ActRestore;
                            components := testSet; dependencies := [];
                            step_success := ok; step_errors := errs |}])
        ∧ (∀ c, c ∈ restored lv' → c ∈ restored lv ∨ justified c (events r) (pushed r))
    | Throw msg => pushed r = [] ∧ globFailure msg
    end.
Proof.
  cbn zeta. unfold iterationBody. run_simpl.
  set (n := length (workingSet lv)).
  set (testSet := take (ceilHalf n) (workingSet lv)).
  destruct (restoreComponents_run p testSet t) as (errs & Hout & Hev & Hpu).
  rewrite Hout, Hev, Hpu. cbn.
  set (t1 := treeAfter (restoreComponents p testSet t)).
  unfold iterationsRun, outerProbes, countIf.
  destruct (bool_decide (length errs = 0)); run_simpl.
  2:{ split_and!; eauto 10. }
  destruct (testCurrentState_run v p cfg OuterProbe t1)
    as (ok & errs2 & Hout2 & Hev2 & Hpu2 & Htree2).
  rewrite Hout2, Hev2, Hpu2, Htree2. cbn.
  destruct ok; cbn.
  - (* the test set works *)
    case_bool_decide as Hlen; run_simpl.
    + unfold minimizeWorkingSet.
      pose proof (minimizeEach_run v p cfg testSet [] t1) as Hmin. cbn zeta in Hmin.
      destruct Hmin as (Hpu3 & Hit3 & Hop3 & Hmin).
      unfold iterationsRun, outerProbes, countIf in Hit3, Hop3. rewrite Hpu3.
      set (mr := minimizeEach v p cfg testSet [] t1) in *.
      destruct (outcome mr) as [actuallyNeeded|msg] eqn:Hout3; cbn.
      2:{ rewrite app_nil_r, Hit3, Hop3. split_and!; eauto. }
      assert (Hrestored : ∀ c post,
        c ∈ filter (λ comp, comp ∉ testSet ∨ comp ∈ actuallyNeeded)
              (restored lv ++ testSet) ++ actuallyNeeded →
        c ∈ restored lv
        ∨ necessityTested c
            (EvIteration (S (currentIteration lv)) n :: EvRestore testSet
             :: EvProbe OuterProbe true :: events mr ++ post)).
      { intros c post [Hc|Hc]%elem_of_app.
        - apply list_elem_of_filter in Hc as [Hkeep [Hc|Hc]%elem_of_app]; [by left|].
          destruct Hkeep as [?|Hn]; [done|].
          destruct (Hmin c Hn) as [?|[_ Ht]]; [set_solver|].
          right. apply (necessityTested_app_l _ [_; _; _]).
          by apply necessityTested_app_r.
        - destruct (Hmin c Hc) as [?|[_ Ht]]; [set_solver|].
          right. apply (necessityTested_app_l _ [_; _; _]).
          by apply necessityTested_app_r. }
      set (unnecessary := filter (λ comp, comp ∉ actuallyNeeded) testSet).
      case_bool_decide as Hunn; run_simpl.
      * destruct (removeComponents_run p unnecessary (treeAfter mr))
          as (Hev4 & Hpu4 & Hout4).
        rewrite Hev4, Hpu4.
        destruct Hout4 as [Hout4|(msg & Hout4 & Hglob)]; rewrite Hout4; cbn;
          rewrite !List.filter_app, !length_app, Hit3, Hop3; cbn.
        -- split_and!; eauto; [].
           intros c Hc. destruct (Hrestored c [EvRemove unnecessary] Hc); [by left|].
           right. by left.
        -- split_and!; eauto.
      * rewrite !List.filter_app, !length_app, Hit3, Hop3. cbn.
        split_and!; eauto; [].
        intros c Hc. destruct (Hrestored c [] Hc); [by left|].
        right. by left.
    + split_and!; eauto; [].
      intros c [Hc|Hc]%elem_of_app; [by left|right; right].
      eexists. split; [apply list_elem_of_singleton; reflexivity|]. cbn. split; [|done].
      destruct testSet as [|c1 [|c2 rest]]; cbn in *; [set_solver| |lia].
      by apply list_elem_of_singleton in Hc as ->.
  - (* the test set fails *)
    run_simpl.
    destruct (removeComponents_run p testSet t1) as (Hev4 & Hpu4 & Hout4).
    rewrite Hev4, Hpu4.
    destruct Hout4 as [Hout4|(msg & Hout4 & Hglob)]; rewrite Hout4; cbn.
    + split_and!; eauto.
    + split_and!; eauto.
Qed.

#[local] Arguments iterationBody : simpl never.

Lemma justified_app c pre evs post pre' st post' :
  justified c evs st → justified c (pre ++ evs ++ post) (pre' ++ st ++ post').
Proof.
  intros [Ht|(s & Hs & ? & ?)]; [left|right].
  - by apply necessityTested_app_l, necessityTested_app_r.
  - exists s. set_solver.
Qed.

Lemma ceilHalf_pos n : 0 < n → 0 < ceilHalf n.
Proof. pose proof (ceilHalf_bounds n). lia. Qed.

Lemma whileLoop_run fuel v p cfg lv t :
  length (workingSet lv) ≤ fuel →
  let r := whileLoop fuel v p cfg lv t in
  iterationsRun (events r) ≤ maxIterations cfg - currentIteration lv
  ∧ outerProbes (events r) ≤ iterationsRun (events r)
  ∧ length (pushed r) ≤ iterationsRun (events r)
  ∧ match outcome r with
    | Return lv' =>
        currentIteration lv' = currentIteration lv + iterationsRun (events r)
        ∧ length (pushed r) = iterationsRun (events r)
        ∧ (workingSet lv' = [] ∨ maxIterations cfg ≤ currentIteration lv')
        ∧ (∀ c, c ∈ restored lv' → c ∈ restored lv ∨ justified c (events r) (pushed r))
    | Throw msg => globFailure msg
    end.
Proof.
  revert lv t. induction fuel as [|fuel IH]; intros lv t Hfuel; cbn zeta.
  - cbn. split_and!; auto; try lia. left. apply nil_length_inv. lia.
  - cbn [whileLoop].
    destruct (bool_decide (0 < length (workingSet lv))) eqn:Hws; cbn [andb].
    2:{ cbn. apply bool_decide_eq_false in Hws.
        split_and!; auto; try lia. left. apply nil_length_inv. lia. }
    destruct (bool_decide (currentIteration lv < maxIterations cfg)) eqn:Hit.
    2:{ cbn. apply bool_decide_eq_false in Hit. split_and!; auto; lia. }
    apply bool_decide_eq_true in Hws, Hit.
    pose proof (iterationBody_run v p cfg lv t) as Hbody. cbn zeta in Hbody.
    destruct Hbody as (_ & Hit1 & Hop1 & Hbody).
    run_simpl. set (body := iterationBody v p cfg lv t) in *.
    unfold iterationsRun, outerProbes in *.
    destruct (outcome body) as [lv1|msg] eqn:Hout1.
    2:{ rewrite ?app_nil_r. destruct Hbody as [-> ?]. cbn. split_and!; auto; lia. }
    destruct Hbody as (Hws1 & Hiter1 & (ok & errs & Hpu1) & Hres1).
    case_bool_decide as Hmax; run_simpl; rewrite !countIf_app, !length_app, Hpu1; cbn.
    + rewrite Hit1. split_and!; auto; try lia.
      intros c Hc. destruct (Hres1 c Hc) as [?|Hj]; [by left|right].
      rewrite Hpu1 in Hj.
      by apply (justified_app c [] _ [EvReachedMax] [] _ []) in Hj.
    + assert (Hfuel1 : length (workingSet lv1) ≤ fuel).
      { rewrite Hws1, length_drop.
        pose proof (ceilHalf_pos (length (workingSet lv)) Hws). lia. }
      specialize (IH lv1 (treeAfter body) Hfuel1). cbn zeta in IH.
      destruct IH as (Hit2 & Hop2 & Hpu2 & IH).
      set (rest := whileLoop fuel v p cfg lv1 (treeAfter body)) in *.
      split_and!; try lia.
      destruct (outcome rest) as [lv2|msg]; [|done].
      destruct IH as (Hiter2 & Hlen2 & Hhalt & Hres2).
      split_and!; auto; try lia.
      intros c Hc. destruct (Hres2 c Hc) as [Hc1|Hj].
      * destruct (Hres1 c Hc1) as [?|Hj]; [by left|right].
        rewrite Hpu1 in Hj.
        by apply (justified_app c [] _ (events rest) [] _ (pushed rest)) in Hj.
      * right.
        apply (justified_app c (events body) _ []
                 [{| iteration := S (currentIteration lv); action := ActRestore;
                     components := take (ceilHalf (length (workingSet lv))) (workingSet lv);
                     dependencies := []; step_success := ok; step_errors := errs |}]
                 _ []) in Hj.
        by rewrite !app_nil_r in Hj.
Qed.

#[local] Arguments bisections : simpl never.

Lemma whileLoop_schedule fuel v p cfg lv t :
  let r := whileLoop fuel v p cfg lv t in
  components <$> pushed r = take (length (pushed r)) (bisections fuel (workingSet lv))
  ∧ iteration <$> pushed r = seq (S (currentIteration lv)) (length (pushed r)).
Proof.
  revert lv t. induction fuel as [|fuel IH]; intros lv t; cbn zeta; [done|].
  cbn [whileLoop].
  destruct (bool_decide (0 < length (workingSet lv))) eqn:Hws; cbn [andb]; [|done].
  destruct (bool_decide (currentIteration lv < maxIterations cfg)); [|done].
  apply bool_decide_eq_true in Hws.
  pose proof (iterationBody_run v p cfg lv t) as Hbody. cbn zeta in Hbody.
  destruct Hbody as (_ & _ & _ & Hbody).
  run_simpl. set (body := iterationBody v p cfg lv t) in *.
  destruct (outcome body) as [lv1|msg] eqn:Hout1.
  2:{ destruct Hbody as [-> ?]. done. }
  destruct Hbody as (Hws1 & Hiter1 & (ok & errs & Hpu1) & _).
  rewrite Hpu1, (bisections_cons fuel (workingSet lv) Hws).
  case_bool_decide as Hmax; run_simpl; [done|].
  specialize (IH lv1 (treeAfter body)). cbn zeta in IH. destruct IH as [IH1 IH2].
  rewrite IH1, IH2, Hws1, Hiter1. done.
Qed.

Lemma whileLoop_S fuel v p cfg lv :
  whileLoop (S fuel) v p cfg lv
  = if bool_decide (0 < length (workingSet lv))
       && bool_decide (currentIteration lv < maxIterations cfg)
    then
      await lv' := iterationBody v p cfg lv in
      if bool_decide (maxIterations cfg ≤ currentIteration lv') then
        run emit EvReachedMax in ret lv'
      else whileLoop fuel v p cfg lv'
    else ret lv.
Proof. reflexivity. Qed.

#[local] Arguments whileLoop : simpl never.

Lemma binarySearchOptimalSet_run v p ec ed cfg t :
  let loop := whileLoop (length ec) v p cfg (initialVars ec) t in
  let search := binarySearchOptimalSet v p ec ed cfg t in
  pushed search = pushed loop
  ∧ match outcome loop with
    | Return lv =>
        ∃ ok,
          events search = events loop ++ [EvProbe FinalProbe ok]
          ∧ outcome search =
            Return {| search_success := ok; search_minimalDependencies := ed;
                      search_minimalComponents := restored lv;
                      search_restoredComponents := restored lv |}
    | Throw msg => events search = events loop ∧ outcome search = Throw msg
    end.
Proof.
  cbn zeta. unfold binarySearchOptimalSet. run_simpl.
  set (loop := whileLoop (length ec) v p cfg (initialVars ec) t).
  destruct (outcome loop) as [lv|msg]; [|by rewrite !app_nil_r].
  destruct (testCurrentState_run v p cfg FinalProbe (treeAfter loop))
    as (ok & errs & Hout & Hev & Hpu & _).
  run_simpl. rewrite Hout, Hev, Hpu. cbn. rewrite !app_nil_r. eauto.
Qed.

(** C2.  Whatever the elimination set and the bound [maxIterations] (20 by
    default), the outer loop of the recovery engine runs at most
    [maxIterations] passes, issues at most that many probes of its own and
    pushes at most that many steps.  When the loop ends it is because the
    working set is empty or the bound is reached, and the search then returns,
    as its value, the restored set accumulated so far.  The only rejection the
    search can end in is a failing glob in [removeImportStatements]; reaching
    the bound is never one. *)
Theorem outer_loop_bounded v p ec ed cfg t :
  let loop := whileLoop (length ec) v p cfg (initialVars ec) t in
  let search := binarySearchOptimalSet v p ec ed cfg t in
  maxIterations defaultConfig = 20
  ∧ iterationsRun (events search) ≤ maxIterations cfg
  ∧ outerProbes (events search) ≤ maxIterations cfg
  ∧ length (pushed search) ≤ maxIterations cfg
  ∧ match outcome loop with
    | Return lv =>
        currentIteration lv = iterationsRun (events search)
        ∧ (workingSet lv = [] ∨ currentIteration lv = maxIterations cfg)
        ∧ ∃ ok,
            outcome search =
            Return {| search_success := ok; search_minimalDependencies := ed;
                      search_minimalComponents := restored lv;
                      search_restoredComponents := restored lv |}
    | Throw msg => outcome search = Throw msg ∧ globFailure msg
    end.
Proof.
  cbn zeta.
  pose proof (whileLoop_run (length ec) v p cfg (initialVars ec) t) as Hloop.
  pose proof (binarySearchOptimalSet_run v p ec ed cfg t) as Hsearch.
  cbn zeta in Hloop, Hsearch. specialize (Hloop (le_n _)).
  destruct Hloop as (Hit & Hop & Hpu & Hloop). destruct Hsearch as (Hpu' & Hsearch).
  set (loop := whileLoop (length ec) v p cfg (initialVars ec) t) in *.
  set (search := binarySearchOptimalSet v p ec ed cfg t) in *.
  cbn [initialVars currentIteration] in Hit, Hloop.
  unfold iterationsRun, outerProbes in *. rewrite Hpu'.
  destruct (outcome loop) as [lv|msg].
  - destruct Hsearch as (ok & -> & ->). destruct Hloop as (Hiter & _ & Hhalt & _).
    rewrite !countIf_app. cbn. split_and!; try done; try lia; [|by eexists]. destruct Hhalt; [by left|right; lia].
  - destruct Hsearch as (-> & ->). split_and!; try done; lia.
Qed.

(** C3.  In every pass of the outer loop the working set of size [n] is split
    into the test set made of its first [ceil(n/2)] elements, in the order of
    the elimination list, and the rest, which becomes the next working set.
    Hence the test sets of the recorded steps are the successive bisections of
    the elimination list, which cut it into consecutive pieces, and the steps
    are numbered from 1, whatever the probe answers: identical inputs give the
    same sequence of steps. *)
Theorem split_is_first_ceil_half v p ec ed cfg t :
  let search := binarySearchOptimalSet v p ec ed cfg t in
  (∀ lv t',
     let n := length (workingSet lv) in
     let body := iterationBody v p cfg lv t' in
     n ≤ 2 * ceilHalf n ∧ 2 * ceilHalf n ≤ n + 1
     ∧ (∃ rest, events body
                = EvIteration (S (currentIteration lv)) n
                  :: EvRestore (take (ceilHalf n) (workingSet lv)) :: rest)
     ∧ match outcome body with
       | Return lv' =>
           components <$> pushed body = [take (ceilHalf n) (workingSet lv)]
           ∧ workingSet lv' = drop (ceilHalf n) (workingSet lv)
       | Throw _ => True
       end)
  ∧ components <$> pushed search
    = take (length (pushed search)) (bisections (length ec) ec)
  ∧ concat (bisections (length ec) ec) = ec
  ∧ iteration <$> pushed search = seq 1 (length (pushed search)).
Proof.
  cbn zeta. split.
  - intros lv t'. pose proof (iterationBody_run v p cfg lv t') as Hbody.
    cbn zeta in Hbody. destruct Hbody as (Hev & _ & _ & Hbody).
    pose proof (ceilHalf_bounds (length (workingSet lv))).
    split_and!; try lia; [done|].
    destruct (outcome (iterationBody v p cfg lv t')); [|done].
    destruct Hbody as (? & _ & (ok & errs & ->) & _). done.
  - pose proof (binarySearchOptimalSet_run v p ec ed cfg t) as [-> _].
    destruct (whileLoop_schedule (length ec) v p cfg (initialVars ec) t) as [Hc Hi].
    split_and!; [exact Hc | by apply bisections_concat | exact Hi].
Qed.

(** C1, as amended.  After the search returns, every component of the restored
    set is there for one of two reasons: the Minimize pass removed it alone,
    saw the probe fail on the tree as it then stood, and put it back; or it
    was the single member of a test set whose probe passed.  A pass whose test
    set has at most one member never runs a necessity test. *)
Theorem restored_units_justified v p ec ed cfg t :
  let search := binarySearchOptimalSet v p ec ed cfg t in
  (∀ r c,
     outcome search = Return r →
     c ∈ search_restoredComponents r →
     justified c (events search) (pushed search))
  ∧ (∀ lv t',
       length (take (ceilHalf (length (workingSet lv))) (workingSet lv)) ≤ 1 →
       countIf isMinimizeProbe (events (iterationBody v p cfg lv t')) = 0).
Proof.
  cbn zeta. split.
  - intros r c Hout Hc.
    pose proof (whileLoop_run (length ec) v p cfg (initialVars ec) t (le_n _)) as Hloop.
    pose proof (binarySearchOptimalSet_run v p ec ed cfg t) as Hsearch.
    cbn zeta in Hloop, Hsearch.
    destruct Hloop as (_ & _ & _ & Hloop). destruct Hsearch as (Hpu' & Hsearch).
    set (loop := whileLoop (length ec) v p cfg (initialVars ec) t) in *.
    rewrite Hpu'.
    destruct (outcome loop) as [lv|msg].
    + destruct Hsearch as (ok & -> & Hout'). rewrite Hout' in Hout.
      injection Hout as <-. cbn in Hc.
      destruct Hloop as (_ & _ & _ & Hres).
      destruct (Hres c Hc) as [Hnil|Hj]; [cbn in Hnil; set_solver|].
      apply (justified_app c [] _ [EvProbe FinalProbe ok] [] _ []) in Hj.
      by rewrite app_nil_r in Hj.
    + destruct Hsearch as (_ & Hout'). congruence.
  - intros lv t' Hlen. unfold iterationBody. run_simpl.
    set (testSet := take (ceilHalf (length (workingSet lv))) (workingSet lv)) in *.
    destruct (restoreComponents_run p testSet t') as (errs & Hout & Hev & _).
    rewrite Hout, Hev. cbn. unfold countIf. cbn.
    destruct (bool_decide (length errs = 0)); run_simpl; [|done].
    destruct (testCurrentState_run v p cfg OuterProbe
                (treeAfter (restoreComponents p testSet t')))
      as (ok & errs2 & Hout2 & Hev2 & _ & Htree2).
    rewrite Hout2, Hev2, Htree2. cbn.
    destruct ok; cbn.
    + rewrite bool_decide_eq_false_2 by lia. done.
    + run_simpl.
      match goal with |- context [removeComponents p ?u ?t1] =>
        destruct (removeComponents_run p u t1) as (Hev4 & _ & Hout4)
      end.
      rewrite Hev4. cbn.
      destruct Hout4 as [Hout4|(msg & Hout4 & _)]; rewrite Hout4; done.
Qed.

(** C7.  When restoring the test set fails (a backup that cannot be found, a
    rename that is rejected), the pass does not abort the run: the step it
    pushes carries the restoration errors and [success = false], the test set
    is dropped without being probed or added to the restored set, and the
    outer loop goes on with the remainder of the working set. *)
Theorem restore_failure_continues v p cfg lv t errs fuel :
  let n := length (workingSet lv) in
  let testSet := take (ceilHalf n) (workingSet lv) in
  let remainder :=
    {| workingSet := drop (ceilHalf n) (workingSet lv); restored := restored lv;
       currentIteration := S (currentIteration lv) |} in
  let step :=
    {| iteration := S (currentIteration lv); action := ActRestore;
       components := testSet; dependencies := []; step_success := false;
       step_errors := errs |} in
  let body := iterationBody v p cfg lv t in
  let loop := whileLoop (S fuel) v p cfg lv t in
  let next := whileLoop fuel v p cfg remainder (treeAfter body) in
  outcome (restoreComponents p testSet t) = Return (false, errs) →
  0 < n →
  S (currentIteration lv) < maxIterations cfg →
  errs ≠ []
  ∧ outcome body = Return remainder
  ∧ pushed body = [step]
  ∧ events body = [EvIteration (S (currentIteration lv)) n; EvRestore testSet]
  ∧ outcome loop = outcome next
  ∧ treeAfter loop = treeAfter next
  ∧ events loop = events body ++ events next
  ∧ pushed loop = step :: pushed next.
Proof.
  cbn zeta. intros Hfail Hn Hmax.
  set (n := length (workingSet lv)) in *.
  set (testSet := take (ceilHalf n) (workingSet lv)) in *.
  destruct (restoreComponents_run p testSet t) as (errs' & Hout & Hev & Hpu).
  rewrite Hout in Hfail. injection Hfail as Hok <-.
  assert (Hbody :
    outcome (iterationBody v p cfg lv t)
    = Return {| workingSet := drop (ceilHalf n) (workingSet lv);
                restored := restored lv; currentIteration := S (currentIteration lv) |}
    ∧ pushed (iterationBody v p cfg lv t)
      = [{| iteration := S (currentIteration lv); action := ActRestore;
            components := testSet; dependencies := []; step_success := false;
            step_errors := errs' |}]
    ∧ events (iterationBody v p cfg lv t)
      = [EvIteration (S (currentIteration lv)) n; EvRestore testSet]).
  { unfold iterationBody. run_simpl. fold n. fold testSet.
    rewrite Hout, Hev, Hpu, Hok. cbn. done. }
  destruct Hbody as (Hbo & Hbp & Hbe).
  split_and!; try done.
  - intros ->. by apply bool_decide_eq_false in Hok.
  - rewrite whileLoop_S. fold n. rewrite !bool_decide_eq_true_2 by lia. cbn [andb].
    run_simpl. rewrite Hbo. cbn [currentIteration].
    by rewrite bool_decide_eq_false_2 by lia.
  - rewrite whileLoop_S. fold n. rewrite !bool_decide_eq_true_2 by lia. cbn [andb].
    run_simpl. rewrite Hbo. cbn [currentIteration].
    by rewrite bool_decide_eq_false_2 by lia.
  - rewrite whileLoop_S. fold n. rewrite !bool_decide_eq_true_2 by lia. cbn [andb].
    run_simpl. rewrite Hbo, Hbe. cbn [currentIteration].
    by rewrite bool_decide_eq_false_2 by lia.
  - rewrite whileLoop_S. fold n. rewrite !bool_decide_eq_true_2 by lia. cbn [andb].
    run_simpl. rewrite Hbo, Hbp. cbn [currentIteration].
    by rewrite bool_decide_eq_false_2 by lia.
Qed.

(** A missing backup is a restoration failure. *)
Lemma restoreComponents_missing p c t :
  firstAccessible (unusedPaths p c) t = None →
  outcome (restoreComponents p [c] t)
  = Return (false, ["Component file not found: " +:+ c]).
Proof.
  intros Hmiss. unfold restoreComponents. run_simpl. by rewrite Hmiss.
Qed.

#[local] Arguments binarySearchOptimalSet : simpl never.

Lemma performBinarySearchRecovery_run p failedPhase v config t :
  let r := performBinarySearchRecovery p failedPhase v config t in
  pushed r = []
  ∧ ∃ res, outcome r = Return res ∧ totalIterations res = 0.
Proof.
  cbn zeta. unfold performBinarySearchRecovery, localSteps, tryCatch, withSteps.
  cbn [pushed outcome].
  destruct (_ && _); cbn; [eauto|].
  match goal with |- context [outcome (bind ?m ?k t)] => set (inner := bind m k t) end.
  destruct (outcome inner); cbn; eauto.
Qed.

(** C10.  If the failed phase eliminated no component and no dependency,
    [performBinarySearchRecovery] returns at once: [success] is false, the only
    error is 'No changes detected to recover from', [totalIterations] is 0, the
    minimal and restored sets and the step log are empty, and nothing was
    restored, removed or probed: the tree is untouched. *)
Theorem empty_changeset_returns_immediately p failedPhase v config t :
  eliminatedComponents (changes failedPhase) = [] →
  eliminatedDependencies (changes failedPhase) = [] →
  performBinarySearchRecovery p failedPhase v config t
  = {| outcome :=
         Return {| success := false; minimalDependencies := []; minimalComponents := [];
                   restoredComponents := []; totalIterations := 0; finalMetrics := None;
                   recoverySteps := [];
                   errors := ["No changes detected to recover from"];
                   performance := None |};
       treeAfter := t; events := []; pushed := [] |}.
Proof.
  intros Hc Hd. unfold performBinarySearchRecovery. by rewrite Hc, Hd.
Qed.

Lemma whileLoop_first_iteration fuel v p cfg lv t :
  0 < length (workingSet lv) → currentIteration lv < maxIterations cfg →
  0 < iterationsRun (events (whileLoop (S fuel) v p cfg lv t)).
Proof.
  intros Hws Hit. rewrite whileLoop_S, !bool_decide_eq_true_2 by done. cbn [andb].
  rewrite events_bind. unfold iterationsRun. rewrite countIf_app.
  pose proof (iterationBody_run v p cfg lv t) as Hbody. cbn zeta in Hbody.
  destruct Hbody as (_ & Hit1 & _). unfold iterationsRun in Hit1. lia.
Qed.

(** C9, as amended.  [performBinarySearchRecovery] always returns a result, and
    its [totalIterations] is always 0.  Whenever the eliminated-components list
    is not empty and the bound [maxIterations] is at least 1, at least one pass
    of the loop ran, so the result under-reports the iteration count. *)
Theorem totalIterations_always_zero p failedPhase v config t :
  let r := performBinarySearchRecovery p failedPhase v config t in
  ∃ res,
    outcome r = Return res
    ∧ totalIterations res = 0
    ∧ (eliminatedComponents (changes failedPhase) ≠ [] →
       0 < maxIterations (mergeConfig defaultConfig config) →
       totalIterations res < iterationsRun (events r)).
Proof.
  cbn zeta.
  destruct (performBinarySearchRecovery_run p failedPhase v config t)
    as (_ & res & Hout & Hzero).
  exists res. split_and!; [done..|]. intros Hne Hmax. rewrite Hzero.
  unfold performBinarySearchRecovery, localSteps, tryCatch, withSteps. cbn [events].
  destruct (eliminatedComponents (changes failedPhase)) as [|c ec] eqn:Hec; [done|].
  cbn [length bool_decide andb]. rewrite bool_decide_eq_false_2 by (cbn; lia).
  cbn [andb].
  match goal with |- context [outcome (bind ?m ?k t)] => set (inner := bind m k t) end.
  assert (Hinner : 0 < iterationsRun (events inner)).
  { subst inner. rewrite events_bind. unfold iterationsRun. rewrite countIf_app.
    unfold binarySearchOptimalSet at 1. rewrite events_bind, countIf_app.
    pose proof (whileLoop_first_iteration (length ec) v p
                  (mergeConfig defaultConfig config) (initialVars (c :: ec)) t) as H1.
    unfold iterationsRun in H1. cbn [length] in *.
    specialize (H1 ltac:(cbn; lia) Hmax). lia. }
  destruct (outcome inner); cbn [events]; cbn [ret events];
    rewrite app_nil_r; exact Hinner.
Qed.


(** Everything the engine emits is a recovery event. *)
Lemma minimizeEach_events v p cfg ws acc t :
  Forall (λ e, isRecoveryEvent e = true) (events (minimizeEach v p cfg ws acc t)).
Proof.
  revert acc t. induction ws as [|c ws IH]; intros acc t; [by constructor|].
  rewrite minimizeEach_cons. run_simpl.
  destruct (removeComponents_run p [c] t) as (Hev & _ & Hout). rewrite Hev.
  constructor; [done|]. cbn.
  destruct Hout as [Hout|(msg & Hout & _)]; rewrite Hout; [|by constructor].
  destruct (testCurrentState_run v p cfg MinimizeProbe
              (treeAfter (removeComponents p [c] t)))
    as (ok & errs & Hout2 & Hev2 & _ & Htree2).
  rewrite Hout2, Hev2, Htree2. cbn. constructor; [done|].
  destruct ok; cbn; [apply IH|]. run_simpl.
  destruct (restoreComponents_run p [c] (treeAfter (removeComponents p [c] t)))
    as (errs' & Hout3 & Hev3 & _).
  rewrite Hout3, Hev3. cbn. constructor; [done|]. apply IH.
Qed.

Lemma iterationBody_events v p cfg lv t :
  Forall (λ e, isRecoveryEvent e = true) (events (iterationBody v p cfg lv t)).
Proof.
  unfold iterationBody. run_simpl.
  set (testSet := take (ceilHalf (length (workingSet lv))) (workingSet lv)).
  destruct (restoreComponents_run p testSet t) as (errs & Hout & Hev & _).
  rewrite Hout, Hev. cbn. do 2 (constructor; [done|]).
  set (t1 := treeAfter (restoreComponents p testSet t)).
  destruct (bool_decide (length errs = 0)); run_simpl; [|by constructor].
  destruct (testCurrentState_run v p cfg OuterProbe t1)
    as (ok & errs2 & Hout2 & Hev2 & _ & Htree2).
  rewrite Hout2, Hev2, Htree2. cbn. constructor; [done|].
  destruct ok; cbn.
  - case_bool_decide; run_simpl; [|by constructor].
    unfold minimizeWorkingSet.
    apply Forall_app. split; [apply minimizeEach_events|].
    destruct (outcome (minimizeEach v p cfg testSet [] t1)); [|by constructor].
    case_bool_decide; run_simpl; [|by constructor].
    match goal with |- context [removeComponents p ?u ?t'] =>
      destruct (removeComponents_run p u t') as (Hev4 & _ & Hout4)
    end.
    rewrite Hev4. constructor; [done|].
    destruct Hout4 as [Hout4|(msg & Hout4 & _)]; rewrite Hout4; by constructor.
  - run_simpl. destruct (removeComponents_run p testSet t1) as (Hev4 & _ & Hout4).
    rewrite Hev4. constructor; [done|].
    destruct Hout4 as [Hout4|(msg & Hout4 & _)]; rewrite Hout4; by constructor.
Qed.

Lemma whileLoop_events fuel v p cfg lv t :
  Forall (λ e, isRecoveryEvent e = true) (events (whileLoop fuel v p cfg lv t)).
Proof.
  revert lv t. induction fuel as [|fuel IH]; intros lv t; [by constructor|].
  rewrite whileLoop_S. destruct (_ && _); [|by constructor].
  rewrite events_bind. apply Forall_app. split; [apply iterationBody_events|].
  destruct (outcome (iterationBody v p cfg lv t)) as [lv1|msg]; [|by constructor].
  case_bool_decide; [by repeat constructor|apply IH].
Qed.

Lemma performBinarySearchRecovery_events p failedPhase v config t :
  Forall (λ e, isRecoveryEvent e = true)
    (events (performBinarySearchRecovery p failedPhase v config t)).
Proof.
  unfold performBinarySearchRecovery, localSteps, tryCatch, withSteps. cbn [events].
  destruct (_ && _); [by constructor|].
  match goal with |- context [outcome (bind ?m ?k t)] => set (inner := bind m k t) end.
  assert (Hinner : Forall (λ e, isRecoveryEvent e = true) (events inner)).
  { subst inner. rewrite events_bind. apply Forall_app. split.
    - unfold binarySearchOptimalSet. rewrite events_bind. apply Forall_app.
      split; [apply whileLoop_events|].
      destruct (outcome (whileLoop _ _ _ _ _ _)) as [lv|msg]; [|by constructor].
      run_simpl.
      match goal with |- context [testCurrentState v p ?c FinalProbe ?t'] =>
        destruct (testCurrentState_run v p c FinalProbe t')
          as (ok & errs & Hout & Hev & _)
      end.
      rewrite Hout, Hev. cbn. by repeat constructor.
    - destruct (outcome (binarySearchOptimalSet _ _ _ _ _ _)) as [result|msg];
        [|by constructor].
      rewrite events_bind. apply Forall_app. split.
      + destruct v as [val|]; [|by constructor].
        destruct (search_success result); [|by constructor].
        unfold liftThrow. run_simpl.
        destruct (validateApplication val p _) as [perf|msg]; cbn; [|by constructor].
        destruct (vr_success perf); run_simpl; [|by constructor].
        destruct (captureMetrics p _ _); cbn; by constructor.
      + destruct (outcome _); by constructor. }
  destruct (outcome inner); cbn [events]; cbn [ret events]; by rewrite app_nil_r.
Qed.

End EngineFacts.


(** C1 as stated fails.  Only [A] is needed.  The search over [A, B, C]
    succeeds and returns [C] in the restored set, restored as a singleton test
    set; removing [C] alone from the final tree leaves the probe passing. *)
Lemma singleton_restore_not_necessary :
  ∃ r,
    outcome PathSet.search = Return r
    ∧ search_success r = true
    ∧ "C" ∈ search_restoredComponents r
    ∧ outcome ((run removeComponents (Collaborators0 := PathSet.world) "/app" ["C"] in
                testCurrentState (Collaborators0 := PathSet.world) PathSet.onlyA "/app"
                  defaultConfig FinalProbe) (treeAfter PathSet.search))
      = Return (true, []).
Proof.
  eexists. split_and!.
  - vm_compute. reflexivity.
  - reflexivity.
  - cbn. set_solver.
  - vm_compute. reflexivity.
Qed.

(** Necessity is relative to the tree of the moment.  Here [A] or [C] is
    enough.  The Minimize pass keeps [A], whose removal broke the application
    while [C] was still eliminated; [C] and [D] are then restored as singleton
    test sets, and in the final tree [A] can be removed alone without harm. *)
Lemma minimized_unit_not_necessary_later :
  ∃ r,
    outcome PathSet.searchEither = Return r
    ∧ search_success r = true
    ∧ "A" ∈ search_restoredComponents r
    ∧ necessityTested "A" (events PathSet.searchEither)
    ∧ outcome ((run removeComponents (Collaborators0 := PathSet.world) "/app" ["A"] in
                testCurrentState (Collaborators0 := PathSet.world) PathSet.eitherAorC
                  "/app" defaultConfig FinalProbe) (treeAfter PathSet.searchEither))
      = Return (true, []).
Proof.
  eexists. split_and!.
  - vm_compute. reflexivity.
  - reflexivity.
  - cbn. set_solver.
  - exists [EvIteration 1 4; EvRestore ["A"; "B"]; EvProbe OuterProbe true].
    eexists. vm_compute. reflexivity.
  - vm_compute. reflexivity.
Qed.

(** The amended C1 on that run, for [C]. *)
Lemma restored_units_justified_witness :
  justified "C" (events PathSet.search) (pushed PathSet.search)
  ∧ countIf isMinimizeProbe
      (events (iterationBody (Collaborators0 := PathSet.world) PathSet.onlyA "/app"
                 defaultConfig
                 {| workingSet := ["C"]; restored := ["A"; "A"]; currentIteration := 1 |}
                 (PathSet.eliminated ["C"]))) = 0.
Proof.
  destruct (restored_units_justified (Collaborators0 := PathSet.world) PathSet.onlyA "/app"
              ["A"; "B"; "C"] [] defaultConfig (PathSet.eliminated ["A"; "B"; "C"]))
    as [Hjust Hquiet].
  split.
  - unfold PathSet.search. eapply Hjust.
    + vm_compute. reflexivity.
    + vm_compute. repeat constructor.
  - refine (Hquiet {| workingSet := ["C"]; restored := ["A"; "A"];
                      currentIteration := 1 |} (PathSet.eliminated ["C"]) _).
    cbn. lia.
Defined.

(** C9 as stated fails.  With [maxIterations = 0] and the non-empty elimination
    [A], no pass runs: the reported 0 is the true count, not an under-report. *)
Lemma zero_bound_nothing_to_report :
  let failedPhase := PathSet.failedAlpha ["A"] [] in
  let r := performBinarySearchRecovery (Collaborators0 := PathSet.world) "/app" failedPhase
             PathSet.onlyA (PathSet.withMaxIterations 0) (PathSet.eliminated ["A"]) in
  eliminatedComponents (changes failedPhase) ≠ []
  ∧ ∃ res, outcome r = Return res ∧ totalIterations res = iterationsRun (events r).
Proof.
  cbn zeta. split; [done|]. eexists. split; vm_compute; reflexivity.
Qed.

(** The amended C9 on the run over [A, B, C] with the default bound. *)
Lemma totalIterations_always_zero_witness :
  let failedPhase := PathSet.failedAlpha ["A"; "B"; "C"] [] in
  let r := performBinarySearchRecovery (Collaborators0 := PathSet.world) "/app" failedPhase
             PathSet.onlyA PathSet.noOverrides (PathSet.eliminated ["A"; "B"; "C"]) in
  ∃ res, outcome r = Return res ∧ totalIterations res = 0
         ∧ totalIterations res < iterationsRun (events r).
Proof.
  cbn zeta.
  destruct (totalIterations_always_zero (Collaborators0 := PathSet.world) "/app"
              (PathSet.failedAlpha ["A"; "B"; "C"] []) PathSet.onlyA PathSet.noOverrides
              (PathSet.eliminated ["A"; "B"; "C"])) as (res & Hout & Hzero & Hunder).
  exists res. split_and!; [done..|]. apply Hunder; [done|]. vm_compute. lia.
Defined.

(** C10 on a failed phase that changed nothing. *)
Lemma empty_changeset_witness :
  outcome (performBinarySearchRecovery (Collaborators0 := PathSet.world) "/app"
             (PathSet.failedAlpha [] []) PathSet.onlyA PathSet.noOverrides
             (PathSet.eliminated []))
  = Return {| success := false; minimalDependencies := []; minimalComponents := [];
              restoredComponents := []; totalIterations := 0; finalMetrics := None;
              recoverySteps := [];
              errors := ["No changes detected to recover from"];
              performance := None |}.
Proof.
  rewrite (empty_changeset_returns_immediately (Collaborators0 := PathSet.world) "/app"
             (PathSet.failedAlpha [] []) PathSet.onlyA PathSet.noOverrides
             (PathSet.eliminated [])); reflexivity.
Defined.

(** C7 on a tree where the backups of [A] and [B] are missing: the first pass
    records both errors and the loop goes on with [C]. *)
Lemma restore_failure_continues_witness :
  let lv := initialVars ["A"; "B"; "C"] in
  let t := PathSet.eliminated ["C"] in
  let body := iterationBody (Collaborators0 := PathSet.world) PathSet.onlyA "/app"
                defaultConfig lv t in
  outcome (restoreComponents (Collaborators0 := PathSet.world) "/app" ["A"; "B"] t)
  = Return (false, ["Component file not found: A"; "Component file not found: B"])
  ∧ outcome body
    = Return {| workingSet := ["C"]; restored := []; currentIteration := 1 |}
  ∧ pushed (whileLoop (Collaborators0 := PathSet.world) 3 PathSet.onlyA "/app"
              defaultConfig lv t)
    = {| iteration := 1; action := ActRestore; components := ["A"; "B"];
         dependencies := []; step_success := false;
         step_errors := ["Component file not found: A"; "Component file not found: B"] |}
      :: pushed (whileLoop (Collaborators0 := PathSet.world) 2 PathSet.onlyA "/app"
                   defaultConfig
                   {| workingSet := ["C"]; restored := []; currentIteration := 1 |}
                   (treeAfter body)).
Proof.
  cbn zeta.
  assert (Hfail :
    outcome (restoreComponents (Collaborators0 := PathSet.world) "/app" ["A"; "B"]
               (PathSet.eliminated ["C"]))
    = Return (false, ["Component file not found: A"; "Component file not found: B"])).
  { vm_compute. reflexivity. }
  split; [exact Hfail|].
  destruct (restore_failure_continues (Collaborators0 := PathSet.world) PathSet.onlyA
              "/app" defaultConfig (initialVars ["A"; "B"; "C"]) (PathSet.eliminated ["C"])
              ["Component file not found: A"; "Component file not found: B"] 2
              Hfail ltac:(cbn; lia) ltac:(cbn; lia))
    as (_ & Hbody & _ & _ & _ & _ & _ & Hpushed).
  split; [exact Hbody|exact Hpushed].
Defined.

Section OrchestratorFacts.
Import SmartBundleOptimizer.
Context {Tree BundleMetrics : Type}
  `{!Collaborators Tree BundleMetrics} `{!Engines Tree BundleMetrics}.
Implicit Types (t : Tree) (p : string) (config : SmartOptimizationConfig)
  (results : list PhaseResult).

#[local] Arguments executePhase : simpl never.
#[local] Arguments phaseLoop : simpl never.

Lemma phaseLoop_S fuel i p config results :
  phaseLoop (S fuel) i p config results
  = match phases config !! i with
    | None => ret {| end_config := config; end_results := results; end_thrown := None |}
    | Some ph =>
        run emit (EvPhaseStart ph) in
        await r := attempt (executePhase ph p config results) in
        match r with
        | inr msg =>
            ret {| end_config := config; end_results := results; end_thrown := Some msg |}
        | inl phaseResult =>
            let results := results ++ [phaseResult] in
            if bool_decide (ph = alpha) && negb (phase_success phaseResult)
               && negb (bool_decide (charlie ∈ phases config))
            then phaseLoop fuel (S i) p (pushPhase charlie config) results
            else if bool_decide (ph = beta)
                    && existsb (λ r, bool_decide (phase r = alpha)
                                     && negb (phase_success r)) results
            then phaseLoop fuel (S i) p config results
            else if negb (phase_success phaseResult)
                    && bool_decide (mode config ≠ ModeRecovery)
                    && bool_decide (ph ≠ alpha)
            then ret {| end_config := config; end_results := results;
                        end_thrown := None |}
            else phaseLoop fuel (S i) p config results
        end
    end.
Proof. reflexivity. Qed.

(** The loop always ends with a verdict, and pushes at most one phase:
    [charlie], when it was not in the list. *)
Lemma phaseLoop_returns fuel i p config results t :
  ∃ e,
    outcome (phaseLoop fuel i p config results t) = Return e
    ∧ (phases (end_config e) = phases config
       ∨ ((charlie ∉ phases config)
          ∧ phases (end_config e) = phases config ++ [charlie])).
Proof.
  revert i config results t.
  induction fuel as [|fuel IH]; intros i config results t; [cbn; eauto|].
  rewrite phaseLoop_S. destruct (phases config !! i) as [ph|]; [|cbn; eauto].
  run_simpl. destruct (outcome (executePhase ph p config results t)) as [r|msg];
    [|cbn; eauto].
  set (t' := treeAfter (executePhase ph p config results t)).
  repeat case_match; try (cbn; by eauto); try apply IH.
  destruct (IH (S i) (pushPhase charlie config) (results ++ [r]) t')
    as (e & He & Hphases).
  exists e. split; [done|]. right.
  assert (Hnot : charlie ∉ phases config).
  { match goal with
    | H : _ && negb (bool_decide (charlie ∈ _)) = true |- _ =>
        apply andb_prop in H as [_ H%negb_true_iff]; by apply bool_decide_eq_false in H
    end. }
  split; [done|]. destruct Hphases as [Hp|[Hin _]]; [done|].
  cbn in Hin. set_solver.
Qed.

(** Past this much fuel the loop no longer depends on it: every phase of the
    list, and the one the loop may push, has been visited. *)
Lemma phaseLoop_fuel fuel i p config results t :
  length (phases config) + (if bool_decide (charlie ∈ phases config) then 0 else 1)
  < i + fuel →
  phaseLoop fuel i p config results t = phaseLoop (S fuel) i p config results t.
Proof.
  revert i config results t.
  induction fuel as [|fuel IH]; intros i config results t Hfuel.
  - assert (length (phases config) ≤ i) by (destruct (bool_decide _); lia).
    rewrite phaseLoop_S. by rewrite (lookup_ge_None_2 (phases config) i).
  - assert (Hsame : length (phases config) < S i + fuel)
      by (destruct (bool_decide _); lia).
    rewrite (phaseLoop_S (S fuel)), (phaseLoop_S fuel).
    destruct (phases config !! i) as [ph|]; [|done].
    unfold bind. cbn.
    destruct (outcome (executePhase ph p config results t)) as [r|msg]; [|done].
    set (t' := treeAfter (executePhase ph p config results t)).
    destruct (bool_decide (ph = alpha) && negb (phase_success r)
              && negb (bool_decide (charlie ∈ phases config))) eqn:Hpush.
    + rewrite (IH (S i) (pushPhase charlie config)); [done|].
      apply andb_prop in Hpush as [_ Hnot%negb_true_iff]. rewrite Hnot in Hfuel.
      cbn [pushPhase phases]. rewrite length_app. cbn [length].
      rewrite bool_decide_eq_true_2 by set_solver. lia.
    + assert (Hnext :
        phaseLoop fuel (S i) p config (results ++ [r]) t'
        = phaseLoop (S fuel) (S i) p config (results ++ [r]) t').
      { apply IH. destruct (bool_decide (charlie ∈ phases config)); lia. }
      repeat case_match; try done; by rewrite Hnext.
Qed.

(** The fuel [optimize] gives the loop is enough. *)
Lemma loopFuel_enough p config t extra :
  phaseLoop (loopFuel config + extra) 0 p config [] t
  = phaseLoop (loopFuel config) 0 p config [] t.
Proof.
  induction extra as [|extra IH]; [by rewrite Nat.add_0_r|].
  rewrite Nat.add_succ_r, <- phaseLoop_fuel; [done|].
  unfold loopFuel. destruct (bool_decide _); lia.
Qed.

Lemma findPhase_Some wanted results r :
  findPhase wanted results = Some r → r ∈ results ∧ phase r = wanted.
Proof.
  unfold findPhase. destruct (list_find _ _) as [[k r']|] eqn:Hfind; [|done].
  intros [= <-]. apply list_find_Some in Hfind as (Hk & ? & _).
  split; [|done]. by eapply list_elem_of_lookup_2.
Qed.

Lemma findPhase_app wanted results more r :
  findPhase wanted results = Some r → findPhase wanted (results ++ more) = Some r.
Proof.
  unfold findPhase. destruct (list_find _ results) as [[k r']|] eqn:Hfind; [|done].
  intros [= <-]. by rewrite (list_find_app_l _ _ _ _ _ Hfind).
Qed.

Lemma executeCharliePhase_events p config results t ev :
  ev ∈ events (executeCharliePhase p config results t) →
  ev = EvPhaseWork charlie ∨ isRecoveryEvent ev = true.
Proof.
  unfold executeCharliePhase.
  destruct (findPhase alpha results) as [a|]; cbn.
  2:{ destruct (last results); cbn; by intros ?%elem_of_nil. }
  destruct (phase_success a); cbn.
  { destruct (last results); cbn; by intros ?%elem_of_nil. }
  intros [->|Hin]%elem_of_cons; [by left|right].
  unfold tryCatch in Hin. revert Hin.
  match goal with |- context [outcome (bind ?m ?k t)] => set (inner := bind m k t) end.
  assert (Hinner : Forall (λ e, isRecoveryEvent e = true) (events inner)).
  { subst inner. rewrite events_bind. apply Forall_app. split.
    - apply performBinarySearchRecovery_events.
    - destruct (outcome _); by constructor. }
  destruct (outcome inner); cbn; rewrite ?app_nil_r; intros Hin;
    by eapply Forall_forall in Hinner.
Qed.

Lemma executePhase_events ph p config results t ev :
  ev ∈ events (executePhase ph p config results t) →
  (ev = EvPhaseWork beta →
   ∃ a, findPhase alpha results = Some a ∧ phase_success a = true)
  ∧ (ev = EvPhaseWork charlie ∨ isRecoveryEvent ev = true →
     ∃ a, findPhase alpha results = Some a ∧ phase_success a = false).
Proof.
  unfold executePhase. destruct ph.
  - unfold executeZuluPhase. run_simpl.
    destruct (zuluBaseline p config t).1; cbn;
      intros ->%list_elem_of_singleton; split; [done|by intros [?|?]|done|by intros [?|?]].
  - unfold executeAlphaPhase.
    destruct (findPhase zulu results); cbn; [|by intros ?%elem_of_nil].
    intros ->%list_elem_of_singleton; split; [done|by intros [?|?]].
  - unfold executeBetaPhase.
    destruct (findPhase alpha results) as [a|]; cbn; [|by intros ?%elem_of_nil].
    destruct (phase_success a) eqn:Hok; cbn; [|by intros ?%elem_of_nil].
    intros ->%list_elem_of_singleton. split; [eauto|by intros [?|?]].
  - intros Hin. pose proof (executeCharliePhase_events _ _ _ _ _ Hin) as Hkind.
    split; [intros ->; by destruct Hkind|]. intros _.
    unfold executeCharliePhase in Hin.
    destruct (findPhase alpha results) as [a|]; cbn in Hin.
    2:{ destruct (last results); cbn in Hin; by apply elem_of_nil in Hin. }
    destruct (phase_success a) eqn:Hok; [|eauto].
    destruct (last results); cbn in Hin; by apply elem_of_nil in Hin.
Qed.

(** Over a whole pass of the loop: the refinement engine is handed control
    only when the alpha result on record succeeded, and recovery work is done
    only when it failed. *)
Lemma phaseLoop_trace fuel i p config results t :
  ∃ e,
    outcome (phaseLoop fuel i p config results t) = Return e
    ∧ results `prefix_of` end_results e
    ∧ ∀ ev, ev ∈ events (phaseLoop fuel i p config results t) →
        (ev = EvPhaseWork beta →
         ∃ a, findPhase alpha (end_results e) = Some a ∧ phase_success a = true)
        ∧ (ev = EvPhaseWork charlie ∨ isRecoveryEvent ev = true →
           ∃ a, findPhase alpha (end_results e) = Some a ∧ phase_success a = false).
Proof.
  revert i config results t.
  induction fuel as [|fuel IH]; intros i config results t.
  { cbn. eexists. split_and!; [done..|]. by intros ev ?%elem_of_nil. }
  rewrite phaseLoop_S. destruct (phases config !! i) as [ph|].
  2:{ cbn. eexists. split_and!; [done..|]. by intros ev ?%elem_of_nil. }
  run_simpl.
  pose proof (executePhase_events ph p config results t) as Hphase.
  set (step := executePhase ph p config results t) in *.
  assert (Hstart : ∀ ev (P Q : Prop),
    ev = EvPhaseStart ph →
    (ev = EvPhaseWork beta → P) ∧ (ev = EvPhaseWork charlie ∨ isRecoveryEvent ev = true → Q)).
  { intros ev P Q ->. split; [done|by intros [?|?]]. }
  destruct (outcome step) as [r|msg].
  2:{ cbn. eexists. split_and!; [done..|]. rewrite app_nil_r.
      intros ev [Hev|Hev]%elem_of_cons; [by apply Hstart|].
      destruct (Hphase ev Hev) as [Hb Hc]. split; intros Hk.
      - apply Hb in Hk as (a & ? & ?). eauto.
      - apply Hc in Hk as (a & ? & ?). eauto. }
  assert (Hend : ∀ e,
    (results ++ [r]) `prefix_of` end_results e →
    results `prefix_of` end_results e
    ∧ ∀ ev, ev ∈ events step →
        (ev = EvPhaseWork beta →
         ∃ a, findPhase alpha (end_results e) = Some a ∧ phase_success a = true)
        ∧ (ev = EvPhaseWork charlie ∨ isRecoveryEvent ev = true →
           ∃ a, findPhase alpha (end_results e) = Some a ∧ phase_success a = false)).
  { intros e [more Hpre]. split.
    - exists ([r] ++ more). by rewrite Hpre, <- app_assoc.
    - intros ev Hev. destruct (Hphase ev Hev) as [Hb Hc]. split; intros Hk.
      + apply Hb in Hk as (a & Hfind & ?). exists a. split; [|done].
        rewrite Hpre, <- app_assoc. by apply findPhase_app.
      + apply Hc in Hk as (a & Hfind & ?). exists a. split; [|done].
        rewrite Hpre, <- app_assoc. by apply findPhase_app. }
  assert (Hrec : ∀ config',
    let next := phaseLoop fuel (S i) p config' (results ++ [r]) (treeAfter step) in
    ∃ e, outcome next = Return e
         ∧ results `prefix_of` end_results e
         ∧ ∀ ev, ev ∈ EvPhaseStart ph :: events step ++ events next →
             (ev = EvPhaseWork beta →
              ∃ a, findPhase alpha (end_results e) = Some a ∧ phase_success a = true)
             ∧ (ev = EvPhaseWork charlie ∨ isRecoveryEvent ev = true →
                ∃ a, findPhase alpha (end_results e) = Some a
                     ∧ phase_success a = false)).
  { intros config'. cbn zeta.
    destruct (IH (S i) config' (results ++ [r]) (treeAfter step)) as (e & He & Hpre & Hev).
    destruct (Hend e Hpre) as [Hpre' Hstep].
    exists e. split_and!; [done..|].
    intros ev [Hin|[Hin|Hin]%elem_of_app]%elem_of_cons; [by apply Hstart|by apply Hstep|by apply Hev]. }
  repeat case_match; try apply Hrec.
  cbn. eexists. split; [done|]. cbn [end_results].
  destruct (Hend {| end_config := config; end_results := results ++ [r];
                    end_thrown := None |}) as [Hpre' Hstep]; [done|].
  split; [done|]. rewrite app_nil_r.
  intros ev [Hin|Hin]%elem_of_cons; [by apply Hstart|by apply Hstep].
Qed.

(** The transitions of the orchestrator's loop, as far as the first alpha
    result on record goes (the one [find] returns): (1) when alpha fails and
    charlie is not in the phase list, charlie is pushed to the list, the loop
    goes on with it, and the list it ends with is the configured one followed
    by charlie; (2) when the alpha result on record failed, beta does no
    refinement: it returns the 'BETA skipped' result without touching the tree
    or calling its engine, the loop moves on to the next phase, and over the
    whole loop the refinement engine is never handed control; (3) when the
    alpha result on record succeeded, charlie restores nothing and returns
    success with empty change lists, and over the whole loop no recovery work
    is done. *)
Theorem phase_transitions p config t :
  (∀ fuel i results r,
     phases config !! i = Some alpha →
     outcome (executeAlphaPhase p config results t) = Return r →
     phase_success r = false →
     charlie ∉ phases config →
     let next :=
       phaseLoop fuel (S i) p (pushPhase charlie config) (results ++ [r])
         (treeAfter (executeAlphaPhase p config results t)) in
     phases (pushPhase charlie config) = phases config ++ [charlie]
     ∧ outcome (phaseLoop (S fuel) i p config results t) = outcome next
     ∧ ∃ e, outcome next = Return e ∧ phases (end_config e) = phases config ++ [charlie])
  ∧ (∀ fuel i results alphaResult,
       findPhase alpha results = Some alphaResult →
       phase_success alphaResult = false →
       let skipped :=
         {| phase := beta; phase_success := false; metrics := metrics alphaResult;
            changes := noChanges;
            phase_errors := ["BETA skipped: ALPHA phase failed"] |} in
       executeBetaPhase p config results t
       = {| outcome := Return skipped; treeAfter := t; events := []; pushed := [] |}
       ∧ (phases config !! i = Some beta →
          let next := phaseLoop fuel (S i) p config (results ++ [skipped]) t in
          outcome (phaseLoop (S fuel) i p config results t) = outcome next
          ∧ events (phaseLoop (S fuel) i p config results t)
            = EvPhaseStart beta :: events next))
  ∧ (∀ fuel i results e alphaResult,
       outcome (phaseLoop fuel i p config results t) = Return e →
       findPhase alpha (end_results e) = Some alphaResult →
       phase_success alphaResult = false →
       EvPhaseWork beta ∉ events (phaseLoop fuel i p config results t))
  ∧ (∀ results alphaResult,
       findPhase alpha results = Some alphaResult →
       phase_success alphaResult = true →
       ∃ lastPhase,
         last results = Some lastPhase
         ∧ executeCharliePhase p config results t
           = {| outcome :=
                  Return {| phase := charlie; phase_success := true;
                            metrics := metrics lastPhase; changes := noChanges;
                            phase_errors := [] |};
                treeAfter := t; events := []; pushed := [] |})
  ∧ (∀ fuel i results e alphaResult,
       outcome (phaseLoop fuel i p config results t) = Return e →
       findPhase alpha (end_results e) = Some alphaResult →
       phase_success alphaResult = true →
       Forall (λ ev, ev ≠ EvPhaseWork charlie ∧ isRecoveryEvent ev = false)
         (events (phaseLoop fuel i p config results t))).
Proof.
  split_and!.
  - intros fuel i results r Hi Hout Hfail Hnot. cbn zeta. split; [done|]. split.
    + rewrite phaseLoop_S, Hi. run_simpl. unfold executePhase at 1. rewrite Hout.
      unfold executePhase. rewrite Hfail.
      rewrite (bool_decide_eq_true_2 (alpha = alpha)) by done.
      by rewrite (bool_decide_eq_false_2 _ Hnot).
    + destruct (phaseLoop_returns fuel (S i) p (pushPhase charlie config)
                  (results ++ [r]) (treeAfter (executeAlphaPhase p config results t)))
        as (e & He & Hphases).
      exists e. split; [done|]. destruct Hphases as [Hp|[Hin _]]; [done|].
      cbn in Hin. set_solver.
  - intros fuel i results alphaResult Hfind Hfail. cbn zeta.
    assert (Hbeta :
      executeBetaPhase p config results t
      = {| outcome :=
             Return {| phase := beta; phase_success := false;
                       metrics := metrics alphaResult; changes := noChanges;
                       phase_errors := ["BETA skipped: ALPHA phase failed"] |};
           treeAfter := t; events := []; pushed := [] |}).
    { unfold executeBetaPhase. by rewrite Hfind, Hfail. }
    split; [done|]. intros Hi.
    apply findPhase_Some in Hfind as [Hin Hphase].
    assert (Hsome :
      existsb (λ r, bool_decide (phase r = alpha) && negb (phase_success r))
        (results ++ [{| phase := beta; phase_success := false;
                        metrics := metrics alphaResult; changes := noChanges;
                        phase_errors := ["BETA skipped: ALPHA phase failed"] |}]) = true).
    { apply existsb_exists. exists alphaResult. split.
      - apply list_elem_of_In. set_solver.
      - by rewrite Hfail, bool_decide_eq_true_2. }
    rewrite phaseLoop_S, Hi. run_simpl. unfold executePhase. rewrite Hbeta. cbn.
    rewrite Hsome. done.
  - intros fuel i results e alphaResult Hout Hfind Hfail Hin.
    destruct (phaseLoop_trace fuel i p config results t) as (e' & Hout' & _ & Htrace).
    rewrite Hout in Hout'. injection Hout' as <-.
    destruct (Htrace _ Hin) as [Hb _]. destruct (Hb eq_refl) as (a & Hfind' & Hok).
    congruence.
  - intros results alphaResult Hfind Hok.
    destruct (last results) as [lastPhase|] eqn:Hlast.
    + exists lastPhase. split; [done|].
      unfold executeCharliePhase. by rewrite Hfind, Hok, Hlast.
    + apply findPhase_Some in Hfind as [Hin _].
      apply last_None in Hlast. subst. set_solver.
  - intros fuel i results e alphaResult Hout Hfind Hok.
    destruct (phaseLoop_trace fuel i p config results t) as (e' & Hout' & _ & Htrace).
    rewrite Hout in Hout'. injection Hout' as <-.
    apply Forall_forall. intros ev Hin. destruct (Htrace _ Hin) as [_ Hc]. split.
    + intros ->. destruct (Hc (or_introl eq_refl)) as (a & Hfind' & Hfail). congruence.
    + destruct (isRecoveryEvent ev) eqn:Hrec; [|done].
      destruct (Hc (or_intror eq_refl)) as (a & Hfind' & Hfail). congruence.
Qed.

End OrchestratorFacts.

(** On the three-phase configuration: after the failed alpha the loop ends
    with charlie in the list, the skipped beta and the idle charlie do
    nothing observable. *)
Lemma phase_transitions_witness :
  let p := "/app" in
  let config := PathSet.threePhases in
  let zuluResult :=
    {| phase := zulu; phase_success := true; metrics := PathSet.baselineMetrics;
       changes := noChanges; phase_errors := [] |} in
  let alphaFailed :=
    {| phase := alpha; phase_success := false; metrics := PathSet.baselineMetrics;
       changes := {| eliminatedComponents := ["A"; "B"; "C"]; eliminatedDependencies := [];
                     changes_restoredComponents := [] |};
       phase_errors := ["Home route failed"] |} in
  let alphaPassed :=
    {| phase := alpha; phase_success := true; metrics := PathSet.baselineMetrics;
       changes := noChanges; phase_errors := [] |} in
  (∃ e, outcome (SmartBundleOptimizer.phaseLoop (Collaborators0 := PathSet.world)
                   (Engines0 := PathSet.engines) 3 2 p
                   (SmartBundleOptimizer.pushPhase charlie config)
                   ([zuluResult] ++ [alphaFailed]) (PathSet.eliminated ["A"; "B"; "C"]))
        = Return e
        ∧ SmartBundleOptimizer.phases (SmartBundleOptimizer.end_config e)
          = [zulu; alpha; beta; charlie])
  ∧ events (SmartBundleOptimizer.executeBetaPhase
              (Engines0 := PathSet.engines) p config [zuluResult; alphaFailed]
              (PathSet.eliminated ["A"; "B"; "C"])) = []
  ∧ (EvPhaseWork beta
     ∉ events (SmartBundleOptimizer.phaseLoop (Collaborators0 := PathSet.world)
                 (Engines0 := PathSet.engines) 5 0 p config [] PathSet.intact))
  ∧ events (SmartBundleOptimizer.executeCharliePhase (Collaborators0 := PathSet.world)
              (Engines0 := PathSet.engines) p config [zuluResult; alphaPassed]
              PathSet.intact) = [].
Proof.
  cbn zeta.
  destruct (phase_transitions (Collaborators0 := PathSet.world)
              (Engines0 := PathSet.engines) "/app" PathSet.threePhases PathSet.intact)
    as (H1 & _ & H2' & H3 & _).
  destruct (phase_transitions (Collaborators0 := PathSet.world)
              (Engines0 := PathSet.engines) "/app" PathSet.threePhases
              (PathSet.eliminated ["A"; "B"; "C"]))
    as (_ & H2 & _).
  split_and!.
  - edestruct (H1 3 1
      [{| phase := zulu; phase_success := true; metrics := PathSet.baselineMetrics;
          changes := noChanges; phase_errors := [] |}])
      as (_ & _ & He).
    + reflexivity.
    + vm_compute. reflexivity.
    + reflexivity.
    + vm_compute. intros Hin. by repeat (apply elem_of_cons in Hin as [?|Hin]; [done|]);
        apply elem_of_nil in Hin.
    + exact He.
  - edestruct (H2 0 0) as [Hbeta _]; [ | | rewrite Hbeta; reflexivity].
    + vm_compute. reflexivity.
    + reflexivity.
  - eapply (H2' 5 0 []).
    + vm_compute. reflexivity.
    + vm_compute. reflexivity.
    + reflexivity.
  - edestruct H3 as (lastPhase & _ & Hcharlie); [ | | rewrite Hcharlie; reflexivity].
    + vm_compute. reflexivity.
    + reflexivity.
Defined.

(** C6 fails when the elimination is listed twice.  With the phases
    [zulu, alpha, alpha, beta] and only the second elimination failing, the
    loop appends charlie, yet beta and charlie both look up the first alpha
    result, which succeeded: beta hands control to its refinement engine and
    reports success although alpha failed, and charlie reports that no
    recovery is needed and restores nothing, leaving the application without
    the component it needs.  The loop's own test after beta, which asks
    whether some alpha result failed, sees the failure. *)
Theorem second_alpha_failure_overlooked :
  let loop :=
    SmartBundleOptimizer.phaseLoop (Collaborators0 := PathSet.world)
      (Engines0 := PathSet.enginesOneByOne)
      (SmartBundleOptimizer.loopFuel PathSet.alphaTwice) 0 "/app" PathSet.alphaTwice []
      PathSet.intact in
  ∃ e,
    outcome loop = Return e
    ∧ SmartBundleOptimizer.end_thrown e = None
    ∧ SmartBundleOptimizer.phases (SmartBundleOptimizer.end_config e)
      = [zulu; alpha; alpha; beta; charlie]
    ∧ phase <$> SmartBundleOptimizer.end_results e = [zulu; alpha; alpha; beta; charlie]
    ∧ phase_success <$> SmartBundleOptimizer.end_results e = [true; true; false; true; true]
    ∧ existsb (λ r, bool_decide (phase r = alpha) && negb (phase_success r))
        (SmartBundleOptimizer.end_results e) = true
    ∧ EvPhaseWork beta ∈ events loop
    ∧ Forall (λ ev, ev ≠ EvPhaseWork charlie ∧ isRecoveryEvent ev = false) (events loop)
    ∧ changes <$> last (SmartBundleOptimizer.end_results e) = Some noChanges
    ∧ PathSet.needs ["A"] (treeAfter loop) = false.
Proof.
  cbn zeta.
  set (loop := SmartBundleOptimizer.phaseLoop _ _ _ _ _ _).
  assert (Hevents : events loop
                    = [EvPhaseStart zulu; EvPhaseWork zulu; EvPhaseStart alpha;
                       EvPhaseWork alpha; EvPhaseStart alpha; EvPhaseWork alpha;
                       EvPhaseStart beta; EvPhaseWork beta; EvPhaseStart charlie])
    by (vm_compute; reflexivity).
  eexists. split; [vm_compute; reflexivity|].
  split; [reflexivity|]. split; [reflexivity|]. split; [reflexivity|].
  split; [reflexivity|]. split; [reflexivity|].
  rewrite Hevents. split.
  { do 7 (apply elem_of_cons; right). apply elem_of_cons. by left. }
  split; [by repeat constructor|].
  split; [reflexivity|]. vm_compute. reflexivity.
Qed.


Section MapFacts.
Context {V : Type}.
Implicit Types (m : JsMap V) (k : string).

Lemma mapGet_mapSet m k k' (v : V) :
  mapGet (mapSet k v m) k' = if decide (k = k') then Some v else mapGet m k'.
Proof.
  induction m as [|[k0 v0] m IH]; cbn.
  - by destruct (decide (k = k')).
  - destruct (decide (k0 = k)) as [->|Hne]; cbn.
    + by destruct (decide (k = k')).
    + rewrite IH. destruct (decide (k0 = k')) as [->|]; [|done].
      by rewrite decide_False by congruence.
Qed.

End MapFacts.

Section NuclearFacts.
Import NuclearOptimizer.
Variable parse : string → option Program.
Variable globComponents : string → FileTree → list string.

Lemma scanEach_spares_critical componentFiles (o : Optimizer) (fs : FileTree) name :
  name ∈ criticalComponents o →
  let '(_, o', fs') := scanEach parse componentFiles o fs in
  criticalComponents o' = criticalComponents o
  ∧ mapGet (deletedComponents o') name = mapGet (deletedComponents o) name
  ∧ ∀ filePath,
      basename filePath (extname filePath) = name → fs' !! filePath = fs !! filePath.
Proof.
  revert o fs. induction componentFiles as [|filePath rest IH]; intros o fs Hcrit;
    cbn [scanEach]; [done|].
  unfold includes. case_bool_decide as Hin; cbn [negb].
  { by apply IH. }
  destruct (fs !! filePath) as [content|] eqn:Hread; [|done].
  set (componentName := basename filePath (extname filePath)) in *.
  match goal with |- context [scanEach parse rest ?o1 ?fs1] =>
    specialize (IH o1 fs1 Hcrit); destruct (scanEach parse rest o1 fs1) as [[out o'] fs']
  end.
  cbn in IH. destruct IH as (-> & -> & Hfs). split; [done|].
  assert (componentName ≠ name) by (intros ->; done).
  split.
  - rewrite mapGet_mapSet. by rewrite decide_False.
  - intros filePath' Hname. rewrite Hfs by done.
    apply lookup_delete_ne. intros <-. done.
Qed.

(** What the scan does protect: the built-in entry points are neither backed
    up as deleted nor unlinked, whatever the tree holds. *)
Lemma entry_points_never_eliminated projectPath (fs : FileTree) name :
  name ∈ ["App"; "main"; "index"] →
  let '(_, o', fs') :=
    scanAndDeleteAllComponents parse globComponents projectPath newOptimizer fs in
  mapGet (deletedComponents o') name = None
  ∧ ∀ filePath,
      basename filePath (extname filePath) = name → fs' !! filePath = fs !! filePath.
Proof.
  intros Hname. unfold scanAndDeleteAllComponents.
  pose proof (scanEach_spares_critical (globComponents projectPath fs) newOptimizer fs
                name Hname) as Hscan.
  destruct (scanEach parse (globComponents projectPath fs) newOptimizer fs)
    as [[out o'] fs'].
  destruct Hscan as (_ & Hdel & Hfs). by split.
Qed.

End NuclearFacts.

Section StubFacts.
Import NuclearOptimizer.

Lemma elem_of_setAdd x y s : x ∈ setAdd y s ↔ x = y ∨ x ∈ s.
Proof.
  unfold setAdd. case_bool_decide.
  - split; [auto|]. by intros [->|?].
  - rewrite elem_of_app, list_elem_of_singleton. tauto.
Qed.

Lemma declarationExports_names d exports x :
  handledDeclaration d →
  x ∈ declarationExports d exports ↔ x ∈ exports ∨ x ∈ declaredNames d.
Proof.
  destruct d as [[id|]|declarations|?|?|?|?]; cbn; try done.
  - intros _. rewrite elem_of_setAdd, list_elem_of_singleton. tauto.
  - revert exports.
    induction declarations as [|declarator declarations IH]; intros exports Hall.
    + cbn. split; [auto|]. intros [?|Hin]; [done|]. by apply elem_of_nil in Hin.
    + apply Forall_cons in Hall as [[name ->] Hall]. cbn [foldl mbind list_bind].
      rewrite (IH _ Hall), elem_of_setAdd, elem_of_app, list_elem_of_singleton. tauto.
Qed.

Lemma specifiersExports_names specifiers exports x :
  Forall handledSpecifier specifiers →
  x ∈ foldl (λ acc spec, specifierExports spec acc) exports specifiers
  ↔ x ∈ exports ∨ x ∈ map specifierName specifiers.
Proof.
  revert exports. induction specifiers as [|spec specifiers IH]; intros exports Hall.
  - cbn. split; [auto|]. intros [?|Hin]; [done|]. by apply elem_of_nil in Hin.
  - apply Forall_cons in Hall as [Hspec Hall]. cbn [foldl map].
    rewrite (IH _ Hall), elem_of_cons.
    destruct spec as [local [name|value]|?|?]; cbn in *; try done;
      rewrite elem_of_setAdd; tauto.
Qed.

Lemma visit_names node exports x :
  handledStatement node →
  x ∈ visit exports node ↔ x ∈ exports ∨ x ∈ statementExportedNames node.
Proof.
  destruct node as [declaration specifiers| |?|]; cbn.
  - intros [Hd Hs]. rewrite (specifiersExports_names _ _ _ Hs), elem_of_app.
    destruct declaration as [d|]; cbn in *.
    + rewrite (declarationExports_names _ _ _ Hd). tauto.
    + split; [tauto|]. intros [?|[Hin|?]]; [tauto| |tauto]. by apply elem_of_nil in Hin.
  - intros _. rewrite elem_of_setAdd, list_elem_of_singleton. tauto.
  - done.
  - intros _. split; [auto|]. intros [?|Hin]; [done|]. by apply elem_of_nil in Hin.
Qed.

Lemma recorded_names ast exports x :
  Forall handledStatement ast →
  x ∈ foldl visit exports ast ↔ x ∈ exports ∨ x ∈ exportedNames ast.
Proof.
  revert exports. induction ast as [|node ast IH]; intros exports Hall.
  - cbn. split; [auto|]. intros [?|Hin]; [done|]. by apply elem_of_nil in Hin.
  - apply Forall_cons in Hall as [Hnode Hall]. unfold exportedNames in *.
    cbn [foldl mbind list_bind]. rewrite (IH _ Hall), (visit_names _ _ _ Hnode), elem_of_app.
    tauto.
Qed.

Lemma stubExport_names componentName exports acc x :
  let body := foldl (stubExport componentName (hyphensToUnderscores componentName))
                acc exports in
  x ∈ stubExportNames body
  ↔ x ∈ stubExportNames acc ∨ ∃ e, e ∈ exports ∧ x = stubName e.
Proof.
  cbn zeta. revert acc. induction exports as [|e exports IH]; intros acc.
  - cbn. split; [auto|]. intros [?|(e & Hin & _)]; [done|]. by apply elem_of_nil in Hin.
  - cbn [foldl]. rewrite IH. clear IH.
    assert (Hstep :
      x ∈ stubExportNames
            (stubExport componentName (hyphensToUnderscores componentName) acc e)
      ↔ x ∈ stubExportNames acc ∨ x = stubName e).
    { unfold stubExport, stubName, stubExportNames.
      destruct (decide (e = "default")); destruct (hasDefault acc); cbn;
        rewrite ?elem_of_app, ?list_elem_of_singleton, ?elem_of_nil; tauto. }
    rewrite Hstep. split.
    + intros [[?| ->]|(e' & ? & ->)]; [by left|right..].
      * exists e. split; [apply elem_of_cons; by left|done].
      * exists e'. split; [apply elem_of_cons; by right|done].
    + intros [?|(e' & [-> |?]%elem_of_cons & ->)]; [by left; left|by left; right|].
      right. by exists e'.
Qed.

(** What the stub does preserve: for a module made of the handled shapes, the
    stub exports exactly the module's exported names, each under its stub
    name (hyphens turned into underscores). *)
Lemma stub_preserves_handled_exports parse componentName content ast x :
  parse content = Some ast →
  Forall handledStatement ast →
  x ∈ stubExportNames (buildStub componentName (extractedExports parse content))
  ↔ ∃ e, e ∈ exportedNames ast ∧ x = stubName e.
Proof.
  intros Hparse Hall. unfold extractedExports. rewrite Hparse.
  assert (Hbuild : ∀ exports,
    stubExportNames (buildStub componentName exports)
    = stubExportNames
        (foldl (stubExport componentName (hyphensToUnderscores componentName))
           {| stub_text := stubHeader; namedExports := []; hasDefault := false |}
           exports)) by done.
  rewrite Hbuild, stubExport_names. cbn [stubExportNames namedExports hasDefault app].
  split.
  - intros [Hin|(e & He & ->)]; [by apply elem_of_nil in Hin|].
    exists e. split; [|done].
    apply (recorded_names ast [] e Hall) in He as [Hin|?]; [by apply elem_of_nil in Hin|done].
  - intros (e & He & ->). right. exists e. split; [|done].
    apply (recorded_names ast [] e Hall). by right.
Qed.

End StubFacts.

(** C5, on the failing input.  The caller's preserve list names [Header] next
    to the entry points, yet the scan deletes [Header.tsx], stores its content
    in the deleted-components backup and reports it among the deleted files;
    the zero state then holds a stub in its place.  The scan consults the
    built-in critical set only. *)
Theorem preserve_list_not_consulted :
  let stubbed :=
    NuclearOptimizer.nuclearDeleteAndStub NuclearOptimizer.parseStaging
      NuclearOptimizer.globStaging "/app" NuclearOptimizer.keepHeader
      NuclearOptimizer.newOptimizer NuclearOptimizer.stagingTree in
  let scan :=
    NuclearOptimizer.scanAndDeleteAllComponents NuclearOptimizer.parseStaging
      NuclearOptimizer.globStaging "/app"
      NuclearOptimizer.newOptimizer NuclearOptimizer.stagingTree in
  "Header" ∈ NuclearOptimizer.preserveList NuclearOptimizer.keepHeader
  ∧ scan.2 !! NuclearOptimizer.headerPath = None
  ∧ mapGet (NuclearOptimizer.deletedComponents scan.1.2) "Header"
    = Some NuclearOptimizer.headerSource
  ∧ stubbed.1.1 = Return ["Header"; "Chart"]
  ∧ stubbed.2 !! NuclearOptimizer.headerPath
    = Some (NuclearOptimizer.stub_text
              (NuclearOptimizer.buildStub "Header" ["Header"])).
Proof.
  cbn zeta. split_and!.
  - cbn. set_solver.
  - vm_compute. reflexivity.
  - vm_compute. reflexivity.
  - vm_compute. reflexivity.
  - vm_compute. reflexivity.
Qed.

(** C4, on the failing input.  [ui/Chart.tsx] exports the class [Chart] and a
    default.  The export set recorded for it, and therefore the export list
    of the stub the zero state holds in its place, is the default alone: the
    named export [Chart] is dropped. *)
Theorem class_export_dropped_from_stub :
  let recorded :=
    NuclearOptimizer.extractedExports NuclearOptimizer.parseStaging
      NuclearOptimizer.chartSource in
  let stub := NuclearOptimizer.buildStub "Chart" recorded in
  let stubbed :=
    NuclearOptimizer.nuclearDeleteAndStub NuclearOptimizer.parseStaging
      NuclearOptimizer.globStaging "/app" NuclearOptimizer.keepHeader
      NuclearOptimizer.newOptimizer NuclearOptimizer.stagingTree in
  "Chart" ∈ NuclearOptimizer.exportedNames NuclearOptimizer.chartAst
  ∧ recorded = ["default"]
  ∧ NuclearOptimizer.stubExportNames stub = ["default"]
  ∧ ("Chart" ∉ NuclearOptimizer.stubExportNames stub)
  ∧ mapGet (NuclearOptimizer.deletedComponents stubbed.1.2) "Chart"
    = Some NuclearOptimizer.chartSource
  ∧ stubbed.2 !! NuclearOptimizer.chartPath = Some (NuclearOptimizer.stub_text stub).
Proof.
  cbn zeta.
  assert (Hstub :
    NuclearOptimizer.stubExportNames
      (NuclearOptimizer.buildStub "Chart"
         (NuclearOptimizer.extractedExports NuclearOptimizer.parseStaging
            NuclearOptimizer.chartSource)) = ["default"]) by (vm_compute; reflexivity).
  split_and!.
  - cbn. set_solver.
  - vm_compute. reflexivity.
  - exact Hstub.
  - rewrite Hstub. intros Hin. apply list_elem_of_singleton in Hin. discriminate.
  - vm_compute. reflexivity.
  - vm_compute. reflexivity.
Qed.

Section ClassifierFacts.
Import ComponentUsageAnalyzer.


(** On the data the scan produces, a recorded component was rendered at least
    once, in no more files than it has renders. *)
Lemma recordUsage_counts filePath (m : JsMap ComponentRenderInfo) tag :
  (∀ k info, mapGet m k = Some info →
             1 ≤ length (filePaths info) ∧ length (filePaths info) ≤ renderCount info) →
  ∀ k info, mapGet (recordUsage filePath m tag) k = Some info →
            1 ≤ length (filePaths info) ∧ length (filePaths info) ≤ renderCount info.
Proof.
  intros Hinv k info. unfold recordUsage.
  destruct (includes htmlTags tag); [apply Hinv|].
  destruct (mapGet m tag) as [old|] eqn:Hold; rewrite mapGet_mapSet;
    (destruct (decide (tag = k)) as [->|]; [|apply Hinv]); intros [= <-]; cbn.
  - destruct (Hinv _ _ Hold). destruct (includes _ _); rewrite ?length_app; cbn; lia.
  - lia.
Qed.

Lemma scanJSXUsage_counts jsxTagsOf sourceFiles k info :
  mapGet (scanJSXUsage jsxTagsOf sourceFiles) k = Some info →
  1 ≤ length (filePaths info) ∧ length (filePaths info) ≤ renderCount info.
Proof.
  unfold scanJSXUsage.
  assert (Hgen : ∀ (m : JsMap ComponentRenderInfo),
    (∀ k info, mapGet m k = Some info →
               1 ≤ length (filePaths info) ∧ length (filePaths info) ≤ renderCount info) →
    ∀ k info,
      mapGet (foldl (λ renderedComponents filePath,
                       match jsxTagsOf filePath with
                       | Some tags => foldl (recordUsage filePath) renderedComponents tags
                       | None => renderedComponents
                       end) m sourceFiles) k = Some info →
      1 ≤ length (filePaths info) ∧ length (filePaths info) ≤ renderCount info).
  { induction sourceFiles as [|filePath rest IH]; intros m Hinv; [exact Hinv|].
    cbn [foldl]. apply IH. destruct (jsxTagsOf filePath) as [tags|]; [|exact Hinv].
    clear IH. revert m Hinv. induction tags as [|tag tags IHt]; intros m Hinv; [exact Hinv|].
    cbn [foldl]. apply IHt. by apply recordUsage_counts. }
  apply Hgen. intros k' info'. cbn. done.
Qed.

End ClassifierFacts.

Section JsxScanFacts.
Import ComponentUsageAnalyzer.

Variable jsxTagsOf : string → option (list string).









End JsxScanFacts.

Section CandidateFacts.
Import ComponentUsageAnalyzer.

Variable findSourceFiles : string → Outcome (list string).
Variable importsOf : string → option (list (list string * string * string)).
Variable jsxTagsOf : string → option (list string).


End CandidateFacts.



Section RecoveryMore.
Context {Tree BundleMetrics : Type} `{!Collaborators Tree BundleMetrics}.
Implicit Types (t : Tree) (v : option (Validator Tree)) (p : string)
  (cfg : RecoveryConfig) (lv : LoopVars).

#[local] Arguments firstAccessible : simpl never.
#[local] Arguments unusedPaths : simpl never.
#[local] Arguments activePaths : simpl never.
#[local] Arguments replaceFirst : simpl never.
#[local] Arguments restoreComponents : simpl never.
#[local] Arguments removeComponents : simpl never.
#[local] Arguments testCurrentState : simpl never.
#[local] Arguments minimizeEach : simpl never.
#[local] Arguments ceilHalf : simpl never.

Lemma iterationBody_restored v p cfg lv t lv' :
  outcome (iterationBody v p cfg lv t) = Return lv' →
  ∀ c, c ∈ restored lv' → c ∈ restored lv ∨ c ∈ workingSet lv.
Proof.
  unfold iterationBody. run_simpl.
  set (testSet := take (ceilHalf (length (workingSet lv))) (workingSet lv)).
  assert (Hsub : ∀ c, c ∈ testSet → c ∈ workingSet lv).
  { intros c Hc. by apply (subseteq_take (ceilHalf (length (workingSet lv))) (workingSet lv)). }
  destruct (restoreComponents_run p testSet t) as (errs & Hout & Hev & Hpu).
  rewrite Hout. cbn.
  set (t1 := treeAfter (restoreComponents p testSet t)).
  destruct (bool_decide (length errs = 0)); run_simpl.
  2:{ intros [= <-]. cbn. auto. }
  destruct (testCurrentState_run v p cfg OuterProbe t1)
    as (ok & errs2 & Hout2 & Hev2 & Hpu2 & Htree2).
  rewrite Hout2, Htree2. cbn.
  destruct ok; cbn.
  - case_bool_decide as Hlen; run_simpl.
    + unfold minimizeWorkingSet.
      pose proof (minimizeEach_run v p cfg testSet [] t1) as Hmin. cbn zeta in Hmin.
      destruct Hmin as (_ & _ & _ & Hmin).
      set (mr := minimizeEach v p cfg testSet [] t1) in *.
      destruct (outcome mr) as [actuallyNeeded|msg] eqn:Hout3; cbn; [|done].
      assert (Hneeded : ∀ c, c ∈ actuallyNeeded → c ∈ testSet).
      { intros c Hc. destruct (Hmin c Hc) as [Hnil|[? _]]; [|done].
        by apply elem_of_nil in Hnil. }
      case_bool_decide as Hunn; run_simpl.
      * match goal with |- context [removeComponents p ?u ?t'] =>
          destruct (removeComponents_run p u t') as (_ & _ & Hout4)
        end.
        destruct Hout4 as [Hout4|(msg & Hout4 & _)]; rewrite Hout4; cbn; [|done].
        intros [= <-]. cbn. intros c [Hc|Hc]%elem_of_app; [|auto].
        apply list_elem_of_filter in Hc as [_ [?|?]%elem_of_app]; auto.
      * intros [= <-]. cbn. intros c [Hc|Hc]%elem_of_app; [|auto].
        apply list_elem_of_filter in Hc as [_ [?|?]%elem_of_app]; auto.
    + intros [= <-]. cbn. intros c [?|?]%elem_of_app; auto.
  - run_simpl. destruct (removeComponents_run p testSet t1) as (_ & _ & Hout4).
    destruct Hout4 as [Hout4|(msg & Hout4 & _)]; rewrite Hout4; cbn; [|done].
    intros [= <-]. cbn. auto.
Qed.


Lemma whileLoop_restored fuel v p cfg lv t lv' :
  outcome (whileLoop fuel v p cfg lv t) = Return lv' →
  ∀ c, c ∈ restored lv' → c ∈ restored lv ∨ c ∈ workingSet lv.
Proof.
  revert lv t. induction fuel as [|fuel IH]; intros lv t.
  { cbn. intros [= <-]. auto. }
  rewrite whileLoop_S. destruct (_ && _); [|cbn; intros [= <-]; auto].
  rewrite outcome_bind.
  pose proof (iterationBody_restored v p cfg lv t) as Hbody.
  pose proof (iterationBody_run v p cfg lv t) as Hrun. cbn zeta in Hrun.
  destruct Hrun as (_ & _ & _ & Hrun).
  destruct (outcome (iterationBody v p cfg lv t)) as [lv1|msg]; [|done].
  destruct Hrun as (Hws & _). specialize (Hbody lv1 eq_refl).
  assert (Hnext : ∀ c, c ∈ restored lv1 ∨ c ∈ workingSet lv1 →
                       c ∈ restored lv ∨ c ∈ workingSet lv).
  { intros c [Hc|Hc]; [by apply Hbody|right].
    rewrite Hws in Hc.
    by apply (subseteq_drop (ceilHalf (length (workingSet lv))) (workingSet lv)). }
  case_bool_decide.
  - run_simpl. intros [= <-]. intros c Hc. apply Hnext. by left.
  - intros Hout c Hc. apply Hnext. by eapply IH.
Qed.

#[local] Arguments iterationBody : simpl never.
#[local] Arguments whileLoop : simpl never.

Lemma binarySearchOptimalSet_restored v p ec ed cfg t r :
  outcome (binarySearchOptimalSet v p ec ed cfg t) = Return r →
  search_restoredComponents r ⊆ ec
  ∧ search_minimalComponents r = search_restoredComponents r
  ∧ search_minimalDependencies r = ed.
Proof.
  intros Hout.
  pose proof (binarySearchOptimalSet_run v p ec ed cfg t) as Hsearch.
  cbn zeta in Hsearch. destruct Hsearch as (_ & Hsearch).
  pose proof (whileLoop_restored (length ec) v p cfg (initialVars ec) t) as Hloop.
  destruct (outcome (whileLoop _ _ _ _ _ _)) as [lv|msg].
  - destruct Hsearch as (ok & _ & Hout'). rewrite Hout' in Hout. injection Hout as <-.
    cbn. split_and!; [|done..]. intros c Hc.
    destruct (Hloop lv eq_refl c Hc) as [Hnil|?]; [|done].
    cbn in Hnil. by apply elem_of_nil in Hnil.
  - destruct Hsearch as (_ & Hout'). congruence.
Qed.

#[local] Arguments binarySearchOptimalSet : simpl never.

Lemma performBinarySearchRecovery_shape p failedPhase v config t :
  let ec := eliminatedComponents (changes failedPhase) in
  let ed := eliminatedDependencies (changes failedPhase) in
  let search := binarySearchOptimalSet v p ec ed (mergeConfig defaultConfig config) t in
  let r := performBinarySearchRecovery p failedPhase v config t in
  let failed msg :=
    Return {| success := false; minimalDependencies := []; minimalComponents := [];
              restoredComponents := []; totalIterations := 0; finalMetrics := None;
              recoverySteps := pushed search;
              errors := ["Recovery failed: " +:+ msg]; performance := None |} in
  if bool_decide (length ec = 0) && bool_decide (length ed = 0) then
    outcome r
    = Return {| success := false; minimalDependencies := []; minimalComponents := [];
                restoredComponents := []; totalIterations := 0; finalMetrics := None;
                recoverySteps := [];
                errors := ["No changes detected to recover from"]; performance := None |}
  else
    match outcome search with
    | Throw msg => outcome r = failed msg
    | Return sr =>
        (∃ msg, outcome r = failed msg ∧ search_success sr = true ∧ is_Some v)
        ∨ ∃ fm perf,
            outcome r
            = Return {| success := search_success sr;
                        minimalDependencies := search_minimalDependencies sr;
                        minimalComponents := search_minimalComponents sr;
                        restoredComponents := search_restoredComponents sr;
                        totalIterations := 0; finalMetrics := fm;
                        recoverySteps := pushed search; errors := [];
                        performance := perf |}
            ∧ (is_Some fm →
               search_success sr = true
               ∧ ∃ pf, perf = Some pf ∧ vr_success pf = true)
            ∧ (is_Some perf → search_success sr = true ∧ is_Some v)
    end.
Proof.
  cbn zeta. unfold performBinarySearchRecovery, localSteps, tryCatch, withSteps.
  cbn [outcome].
  destruct (_ && _); [done|].
  rewrite !outcome_bind, !pushed_bind.
  set (search := binarySearchOptimalSet v p _ _ _ t).
  destruct (outcome search) as [sr|msg]; cbn; [|by rewrite app_nil_r].
  destruct v as [val|]; cbn.
  2:{ right. eexists None, None. rewrite !app_nil_r. split_and!; [done|by intros [? [=]]..]. }
  destruct (search_success sr) eqn:Hok; cbn.
  2:{ right. eexists None, None. rewrite !app_nil_r, ?Hok. split_and!; [done|by intros [? [=]]..]. }
  unfold liftThrow. run_simpl.
  destruct (validateApplication val p _) as [perf|msg]; cbn.
  2:{ left. exists msg. rewrite ?app_nil_r. eauto. }
  destruct (vr_success perf) eqn:Hperf; run_simpl.
  2:{ right. eexists None, (Some perf). rewrite ?app_nil_r, ?Hok.
      split_and!; [done|by intros [? [=]]|eauto]. }
  destruct (captureMetrics p _ _) as [m|msg]; cbn.
  - right. eexists (Some m), (Some perf). rewrite ?app_nil_r, ?Hok. split_and!; eauto.
  - left. exists msg. rewrite ?app_nil_r. eauto.
Qed.


(** The recovery engine only ever restores what the failed phase eliminated:
    the restored set is drawn from the eliminated components, the minimal
    component set is the restored set, and the dependencies reported as
    minimal are the eliminated ones (none is ever dropped). *)
Theorem recovery_restores_only_eliminated p failedPhase v config t res :
  outcome (performBinarySearchRecovery p failedPhase v config t) = Return res →
  restoredComponents res ⊆ eliminatedComponents (changes failedPhase)
  ∧ minimalComponents res = restoredComponents res
  ∧ (minimalDependencies res = []
     ∨ minimalDependencies res = eliminatedDependencies (changes failedPhase)).
Proof.
  intros Hout.
  pose proof (performBinarySearchRecovery_shape p failedPhase v config t) as Hshape.
  cbn zeta in Hshape. rewrite Hout in Hshape.
  destruct (_ && _).
  { injection Hshape as ->. cbn. split_and!; [set_solver|done|by left]. }
  pose proof (binarySearchOptimalSet_restored v p
                (eliminatedComponents (changes failedPhase))
                (eliminatedDependencies (changes failedPhase))
                (mergeConfig defaultConfig config) t) as Hsearch.
  destruct (outcome (binarySearchOptimalSet _ _ _ _ _ _)) as [sr|msg].
  - destruct (Hsearch sr eq_refl) as (Hsub & Hmin & Hdeps).
    destruct Hshape as [(msg & [= ->] & _)|(fm & perf & [= ->] & _)]; cbn.
    + split_and!; [set_solver|done|by left].
    + split_and!; [done|done|by right].
  - injection Hshape as ->. cbn. split_and!; [set_solver|done|by left].
Qed.

(** The result of [performBinarySearchRecovery], path by path: the early
    return, the search, the full validation after a final probe that passed,
    and the metrics capture after a validation that passed. *)
Lemma performBinarySearchRecovery_paths p failedPhase v config t :
  let ec := eliminatedComponents (changes failedPhase) in
  let ed := eliminatedDependencies (changes failedPhase) in
  let search := binarySearchOptimalSet v p ec ed (mergeConfig defaultConfig config) t in
  let r := outcome (performBinarySearchRecovery p failedPhase v config t) in
  let failed msg :=
    Return {| success := false; minimalDependencies := []; minimalComponents := [];
              restoredComponents := []; totalIterations := 0; finalMetrics := None;
              recoverySteps := pushed search;
              errors := ["Recovery failed: " +:+ msg]; performance := None |} in
  let found sr fm perf :=
    Return {| success := search_success sr;
              minimalDependencies := search_minimalDependencies sr;
              minimalComponents := search_minimalComponents sr;
              restoredComponents := search_restoredComponents sr;
              totalIterations := 0; finalMetrics := fm;
              recoverySteps := pushed search; errors := [];
              performance := perf |} in
  if bool_decide (length ec = 0) && bool_decide (length ed = 0) then
    r = Return {| success := false; minimalDependencies := []; minimalComponents := [];
                  restoredComponents := []; totalIterations := 0; finalMetrics := None;
                  recoverySteps := [];
                  errors := ["No changes detected to recover from"];
                  performance := None |}
  else
    match outcome search with
    | Throw msg => r = failed msg
    | Return sr =>
        match v with
        | Some val =>
            if search_success sr then
              match validateApplication val p (treeAfter search) with
              | inr msg => r = failed msg
              | inl pf =>
                  if vr_success pf then
                    match captureMetrics p "charlie-final" (treeAfter search) with
                    | inr msg => r = failed msg
                    | inl m => r = found sr (Some m) (Some pf)
                    end
                  else r = found sr None (Some pf)
              end
            else r = found sr None None
        | None => r = found sr None None
        end
    end.
Proof.
  cbn zeta. unfold performBinarySearchRecovery, localSteps, tryCatch, withSteps.
  cbn [outcome].
  destruct (_ && _); [done|].
  rewrite !outcome_bind, !pushed_bind, ?treeAfter_bind.
  set (search := binarySearchOptimalSet v p _ _ _ t).
  destruct (outcome search) as [sr|msg]; cbn; [|by rewrite app_nil_r].
  destruct v as [val|]; cbn; [|by rewrite !app_nil_r].
  destruct (search_success sr) eqn:Hok; cbn; [|by rewrite !app_nil_r, ?Hok].
  unfold liftThrow. run_simpl.
  destruct (validateApplication val p _) as [perf|msg]; cbn; [|by rewrite ?app_nil_r].
  destruct (vr_success perf) eqn:Hperf; run_simpl; [|by rewrite ?app_nil_r, ?Hok].
  destruct (captureMetrics p _ _) as [m|msg]; cbn; by rewrite ?app_nil_r, ?Hok.
Qed.

(** [performBinarySearchRecovery] never rejects.  A rejection inside it (of
    the glob that removes imports during the search, of the full validation
    after a final probe that passed, or of the metrics capture after a
    validation that passed) comes back as the result with [success = false],
    the one error [Recovery failed: ] followed by the message of the
    rejection, empty component and dependency lists and the steps recorded so
    far.  When there are changes to recover from and nothing rejects, the
    result carries no error and its verdict is that of the final probe.  So a
    successful result carries no error, a result with an error is a failure
    with empty lists, and final metrics are present only when the final probe
    and the full validation both passed. *)
Theorem recovery_never_rejects p failedPhase v config t :
  let ec := eliminatedComponents (changes failedPhase) in
  let ed := eliminatedDependencies (changes failedPhase) in
  let search := binarySearchOptimalSet v p ec ed (mergeConfig defaultConfig config) t in
  let failed msg :=
    {| success := false; minimalDependencies := []; minimalComponents := [];
       restoredComponents := []; totalIterations := 0; finalMetrics := None;
       recoverySteps := pushed search;
       errors := ["Recovery failed: " +:+ msg]; performance := None |} in
  let validated val := validateApplication val p (treeAfter search) in
  let captured := captureMetrics p "charlie-final" (treeAfter search) in
  ∃ res,
    outcome (performBinarySearchRecovery p failedPhase v config t) = Return res
    ∧ (success res = true → errors res = [])
    ∧ (errors res ≠ [] →
       success res = false ∧ restoredComponents res = [] ∧ minimalComponents res = []
       ∧ minimalDependencies res = [] ∧ finalMetrics res = None
       ∧ performance res = None ∧ ∃ msg, errors res = [msg])
    ∧ (is_Some (finalMetrics res) →
       success res = true ∧ ∃ pf, performance res = Some pf ∧ vr_success pf = true)
    ∧ (ec ≠ [] ∨ ed ≠ [] →
       (∀ msg, outcome search = Throw msg → res = failed msg)
       ∧ (∀ sr val msg,
            outcome search = Return sr → search_success sr = true → v = Some val →
            validated val = inr msg →
            res = failed msg)
       ∧ (∀ sr val pf msg,
            outcome search = Return sr → search_success sr = true → v = Some val →
            validated val = inl pf → vr_success pf = true →
            captured = inr msg →
            res = failed msg)
       ∧ (∀ sr,
            outcome search = Return sr →
            (∀ val, v = Some val → search_success sr = true →
                    ∃ pf, validated val = inl pf
                          ∧ (vr_success pf = true → ∃ m, captured = inl m)) →
            errors res = []
            ∧ success res = search_success sr
            ∧ restoredComponents res = search_restoredComponents sr
            ∧ recoverySteps res = pushed search)).
Proof.
  cbn zeta.
  pose proof (performBinarySearchRecovery_paths p failedPhase v config t) as Hpaths.
  cbn zeta in Hpaths.
  destruct (bool_decide (length _ = 0) && bool_decide (length _ = 0)) eqn:Hnone.
  { eexists. split; [exact Hpaths|]. cbn.
    split_and!; [done|eauto 10|by intros [? [=]]|].
    apply andb_prop in Hnone as [H1%bool_decide_eq_true H2%bool_decide_eq_true].
    apply length_zero_iff_nil in H1, H2. intros [?|?]; done. }
  clear Hnone.
  destruct (outcome (binarySearchOptimalSet _ _ _ _ _ _)) as [sr|thrown].
  2:{ eexists. split; [exact Hpaths|]. cbn.
      split_and!; [done|eauto 10|by intros [? [=]]|]. intros _.
      split_and!; [by intros ? [= ->]|done..]. }
  assert (Hfailed : ∀ msg (P : Prop),
    P →
    let res : RecoveryResult BundleMetrics :=
                {| success := false; minimalDependencies := []; minimalComponents := [];
                  restoredComponents := []; totalIterations := 0; finalMetrics := None;
                  recoverySteps := pushed (binarySearchOptimalSet v p
                                             (eliminatedComponents (changes failedPhase))
                                             (eliminatedDependencies (changes failedPhase))
                                             (mergeConfig defaultConfig config) t);
                  errors := ["Recovery failed: " +:+ msg]; performance := None |} in
    (success res = true → errors res = [])
    ∧ (errors res ≠ [] →
       success res = false ∧ restoredComponents res = [] ∧ minimalComponents res = []
       ∧ minimalDependencies res = [] ∧ finalMetrics res = None
       ∧ performance res = None ∧ ∃ msg, errors res = [msg])
    ∧ (is_Some (finalMetrics res) →
       success res = true ∧ ∃ pf, performance res = Some pf ∧ vr_success pf = true)
    ∧ P).
  { intros msg P HP. cbn. split_and!; [done|eauto 10|by intros [? [=]]|done]. }
  destruct v as [val|].
  2:{ eexists. split; [exact Hpaths|]. cbn.
      split_and!; [done|done|by intros [? [=]]|]. intros _.
      split_and!; [done..|]. by intros ? [= <-] _. }
  destruct (search_success sr) eqn:Hok.
  2:{ eexists. split; [exact Hpaths|]. cbn.
      split_and!; [done|done|by intros [? [=]]|]. intros _.
      split_and!; [done|by (intros; simplify_eq; congruence)..|].
      intros ? [= <-] _. by rewrite Hok. }
  destruct (validateApplication val p _) as [pf|msg] eqn:Hval.
  2:{ eexists. split; [exact Hpaths|]. apply Hfailed. intros _.
      split_and!; [done|by (intros; simplify_eq; congruence)..|].
      intros ? [= <-] Hfine. destruct (Hfine val eq_refl Hok) as (? & ? & _). congruence. }
  destruct (vr_success pf) eqn:Hpf.
  2:{ eexists. split; [exact Hpaths|]. cbn.
      split_and!; [done|done|by intros [? [=]]|]. intros _.
      split_and!; [done|by (intros; simplify_eq; congruence)..|].
      intros ? [= <-] _. by rewrite Hok. }
  destruct (captureMetrics p _ _) as [m|msg] eqn:Hcap.
  - eexists. split; [exact Hpaths|]. cbn.
    split_and!; [done|done|by eauto| ]. intros _.
    split_and!; [done|by (intros; simplify_eq; congruence)..|].
    intros ? [= <-] _. by rewrite Hok.
  - eexists. split; [exact Hpaths|]. apply Hfailed. intros _.
    split_and!; [done|by (intros; simplify_eq; congruence)..|].
    intros ? [= <-] Hfine. destruct (Hfine val eq_refl Hok) as (pf' & Hval' & Hm).
    rewrite Hval in Hval'. injection Hval' as <-.
    destruct (Hm Hpf) as [? ?]. congruence.
Qed.




#[local] Arguments iterationBody : simpl never.



End RecoveryMore.

Lemma append_assoc (a b c : string) : (a +:+ b) +:+ c = a +:+ (b +:+ c).
Proof.
  induction a as [|x a IH]; [reflexivity|].
  change (String x ((a +:+ b) +:+ c) = String x (a +:+ (b +:+ c))). by f_equal.
Qed.

Lemma append_cons x (s t : string) : String x s +:+ t = String x (s +:+ t).
Proof. reflexivity. Qed.

Lemma append_nil_l (t : string) : "" +:+ t = t.
Proof. reflexivity. Qed.

(** [.unused] has no proper border, so appending it creates no earlier match. *)
Lemma prefix_unused_append s :
  String.prefix ".unused" (s +:+ ".unused")
  = String.prefix ".unused" s || bool_decide (s = "").
Proof.
  destruct s as [|c1 s]; [reflexivity|].
  rewrite bool_decide_eq_false_2, orb_false_r by done.
  repeat (rewrite ?append_cons, ?append_nil_l; cbn [String.prefix];
          try (destruct (ascii_dec _ _) as [<-|?]; [|reflexivity]);
          try reflexivity;
          try (destruct s as [|? s])).
Qed.

Lemma replaceFirst_unused_suffix q :
  stringIncludes ".unused" q = false →
  replaceFirst ".unused" "" (q +:+ ".unused") = q.
Proof.
  induction q as [|a q IH]; [done|].
  cbn [stringIncludes]. intros [Hpre Hrest]%orb_false_elim.
  rewrite append_cons. cbn [replaceFirst]. rewrite <- append_cons.
  rewrite prefix_unused_append, Hpre. cbn [orb]. rewrite bool_decide_eq_false_2 by done.
  by rewrite IH.
Qed.

(** [removeComponents] renames a component file [q] to [q.unused], which is
    the very path [findUnusedComponent] looks for; [restoreComponents] renames
    it to the path with the first [.unused] removed.  That is [q] again as
    long as [.unused] does not already occur in [q]. *)
Theorem restore_path_inverts_remove_path p c :
  Forall (λ q, stringIncludes ".unused" q = false) (activePaths p c) →
  unusedPaths p c = (λ q, q +:+ ".unused") <$> activePaths p c
  ∧ replaceFirst ".unused" "" <$> unusedPaths p c = activePaths p c.
Proof.
  intros Hfree.
  assert (Hpaths : unusedPaths p c = (λ q, q +:+ ".unused") <$> activePaths p c).
  { unfold unusedPaths, activePaths, pathJoin. cbn [fmap list_fmap].
    by rewrite !append_assoc. }
  split; [done|].
  rewrite Hpaths, <- list_fmap_compose.
  rewrite <- (list_fmap_id (activePaths p c)) at 2.
  apply Forall_fmap_ext_1. eapply Forall_impl; [exact Hfree|].
  intros q Hq. cbn. by apply replaceFirst_unused_suffix.
Qed.

(** In a project directory whose own name contains [.unused] the round trip
    fails: the restored file lands outside the project, still as a backup. *)
Lemma restore_path_wrong_under_unused_directory :
  replaceFirst ".unused" ""
    ("/srv/app.unused/client/src/components/ui/Button.tsx" +:+ ".unused")
  = "/srv/app/client/src/components/ui/Button.tsx.unused".
Proof. reflexivity. Qed.

Lemma restore_path_inverts_remove_path_witness :
  replaceFirst ".unused" "" <$> unusedPaths "/app" "Button" = activePaths "/app" "Button".
Proof.
  apply (restore_path_inverts_remove_path "/app" "Button").
  repeat constructor.
Defined.

Lemma recovery_restores_only_eliminated_witness :
  ∃ res,
    outcome (performBinarySearchRecovery (Collaborators0 := PathSet.world) "/app"
               (PathSet.failedAlpha ["A"; "B"; "C"] []) PathSet.onlyA PathSet.noOverrides
               (PathSet.eliminated ["A"; "B"; "C"])) = Return res
    ∧ restoredComponents res = ["A"; "A"; "C"]
    ∧ restoredComponents res ⊆ ["A"; "B"; "C"].
Proof.
  eexists. split; [vm_compute; reflexivity|]. split; [reflexivity|].
  refine (proj1 (recovery_restores_only_eliminated (Collaborators0 := PathSet.world) "/app"
                   (PathSet.failedAlpha ["A"; "B"; "C"] []) PathSet.onlyA
                   PathSet.noOverrides (PathSet.eliminated ["A"; "B"; "C"]) _ _)).
  vm_compute. reflexivity.
Defined.


Section OrchestratorMore.
Import SmartBundleOptimizer.
Context {Tree BundleMetrics : Type}
  `{!Collaborators Tree BundleMetrics} `{!Engines Tree BundleMetrics}.
Implicit Types (t : Tree) (p : string) (config : SmartOptimizationConfig)
  (results : list PhaseResult).

Lemma executePhase_phase ph p config results t r :
  outcome (executePhase ph p config results t) = Return r → phase r = ph.
Proof.
  unfold executePhase. destruct ph.
  - unfold executeZuluPhase. run_simpl.
    destruct (zuluBaseline p config t).1; cbn; [|done]. by intros [= <-].
  - unfold executeAlphaPhase. destruct (findPhase zulu results); cbn; [|done].
    by intros [= <-].
  - unfold executeBetaPhase. destruct (findPhase alpha results) as [a|]; cbn.
    + destruct (phase_success a); cbn; by intros [= <-].
    + by intros [= <-].
  - unfold executeCharliePhase.
    assert (Hidle : ∀ a,
      outcome (match last results with
               | Some lastPhase =>
                   ret {| phase := charlie; phase_success := true;
                          metrics := metrics lastPhase; changes := noChanges;
                          phase_errors := [] |}
               | None => throw a
               end t) = Return r → phase r = charlie).
    { intros a. destruct (last results); cbn; [|done]. by intros [= <-]. }
    destruct (findPhase alpha results) as [a|]; [|apply Hidle].
    destruct (phase_success a); [apply Hidle|].
    rewrite outcome_bind. cbn. unfold tryCatch.
    match goal with |- context [outcome (bind ?m ?k t)] => set (inner := bind m k t) end.
    assert (Hinner : ∀ x, outcome inner = Return x → phase x = charlie).
    { subst inner. intros x. rewrite outcome_bind.
      destruct (outcome (performBinarySearchRecovery _ _ _ _ _)); cbn; [|done].
      by intros [= <-]. }
    destruct (outcome inner) as [x|msg] eqn:Hin; cbn.
    + rewrite Hin. intros [= <-]. by apply Hinner.
    + by intros [= <-].
Qed.

#[local] Arguments executePhase : simpl never.
#[local] Arguments phaseLoop : simpl never.

(** The loop visits the phase list by index: the results it has recorded are,
    in order, the results of the first phases of the list it ends with. *)
Lemma phaseLoop_order fuel i p config results t :
  phase <$> results = take i (phases config) →
  i ≤ length (phases config) →
  ∃ e k,
    outcome (phaseLoop fuel i p config results t) = Return e
    ∧ phase <$> end_results e = take k (phases (end_config e))
    ∧ k ≤ length (phases (end_config e)).
Proof.
  revert i config results t.
  induction fuel as [|fuel IH]; intros i config results t Hres Hi.
  { cbn. eauto. }
  rewrite phaseLoop_S. destruct (phases config !! i) as [ph|] eqn:Hph; [|cbn; eauto].
  run_simpl.
  pose proof (executePhase_phase ph p config results t) as Hphase.
  destruct (outcome (executePhase ph p config results t)) as [r|msg]; [|cbn; eauto].
  specialize (Hphase r eq_refl).
  set (t' := treeAfter (executePhase ph p config results t)).
  assert (Hlt : i < length (phases config)) by by eapply lookup_lt_Some.
  assert (Hnext : phase <$> results ++ [r] = take (S i) (phases config)).
  { rewrite fmap_app, Hres. cbn. rewrite Hphase.
    by erewrite take_S_r. }
  assert (Hnext' : phase <$> results ++ [r]
                   = take (S i) (phases (pushPhase charlie config))).
  { cbn [pushPhase phases]. rewrite take_app_le by lia. exact Hnext. }
  assert (Hlen' : S i ≤ length (phases (pushPhase charlie config))).
  { cbn [pushPhase phases]. rewrite length_app. cbn. lia. }
  repeat case_match; try (cbn; by eauto); by apply IH.
Qed.


Lemma phaseLoop_extends fuel i p config results t :
  ∃ e, outcome (phaseLoop fuel i p config results t) = Return e
       ∧ results `prefix_of` end_results e.
Proof.
  destruct (phaseLoop_trace fuel i p config results t) as (e & He & Hpre & _). eauto.
Qed.

Variable reductionPercentage : string → string → Z.
Variable writeReport :
  string → SmartOptimizationConfig → list PhaseResult → list string → Tree → Tree + string.
Variable writeMarkdownReport :
  string → SmartOptimizationConfig → list PhaseResult → list string → Tree → Tree + string.

Lemma generateRecommendations_spec results z l :
  findPhase zulu results = Some z →
  last results = Some l →
  ∃ note,
    note ∈ gainNotes
    ∧ generateRecommendations reductionPercentage results
      = note :: (failureNote <$> filter (λ ph, phase_success ph = false) results).
Proof.
  intros Hz Hl. unfold generateRecommendations. rewrite Hz, Hl.
  unfold gainNotes. repeat case_match; eexists; (split; [|reflexivity]); set_solver.
Qed.

Lemma filter_failed_nil results :
  forallb phase_success results = true →
  filter (λ ph, phase_success ph = false) results = [].
Proof.
  induction results as [|ph results IH]; [done|]. cbn [forallb].
  intros [Hph Hrest]%andb_prop. rewrite filter_cons_False by congruence. by apply IH.
Qed.

Lemma findPhase_last wanted results z :
  findPhase wanted results = Some z → is_Some (last results).
Proof.
  intros [Hin _]%findPhase_Some. destruct results as [|x l].
  - by apply elem_of_nil in Hin.
  - rewrite last_cons. destruct (last l); by eexists.
Qed.

(** What [optimize] comes to, given how the loop ended. *)
Lemma optimize_run p config t :
  let loop := phaseLoop (loopFuel config) 0 p config [] t in
  let whole := optimize reductionPercentage writeReport writeMarkdownReport p config t in
  ∃ e,
    outcome loop = Return e
    ∧ let recs := generateRecommendations reductionPercentage (end_results e) in
      let failed msg :=
        Return {| optimization_success := false; optimization_phases := end_results e;
                  recommendations := ["Optimization failed: " +:+ msg] |} in
      match end_thrown e with
      | Some msg => outcome whole = failed msg ∧ treeAfter whole = treeAfter loop
      | None =>
          match findPhase zulu (end_results e) with
          | None =>
              outcome whole = failed "Missing phase data for report generation"
              ∧ treeAfter whole = treeAfter loop
          | Some _ =>
              match writeReport p (end_config e) (end_results e) recs (treeAfter loop) with
              | inr msg => outcome whole = failed msg ∧ treeAfter whole = treeAfter loop
              | inl t1 =>
                  match writeMarkdownReport p (end_config e) (end_results e) recs t1 with
                  | inr msg => outcome whole = failed msg ∧ treeAfter whole = t1
                  | inl t2 =>
                      outcome whole
                      = Return {| optimization_success :=
                                    forallb phase_success (end_results e);
                                  optimization_phases := end_results e;
                                  recommendations := recs |}
                      ∧ treeAfter whole = t2
                  end
              end
          end
      end.
Proof.
  cbn zeta.
  destruct (phaseLoop_returns (loopFuel config) 0 p config [] t) as (e & He & _).
  exists e. split; [exact He|].
  unfold optimize. rewrite outcome_bind, treeAfter_bind, He.
  set (afterLoop := treeAfter (phaseLoop (loopFuel config) 0 p config [] t)).
  destruct (end_thrown e) as [msg|]; [done|].
  rewrite outcome_tryCatch, treeAfter_tryCatch.
  unfold generateFinalReport.
  destruct (findPhase zulu (end_results e)) as [z|] eqn:Hz; [|done].
  destruct (findPhase_last _ _ _ Hz) as [l ->].
  rewrite outcome_bind, treeAfter_bind. cbn [getTree outcome treeAfter].
  destruct (writeReport p (end_config e) (end_results e) _ afterLoop) as [t1|msg]; [|done].
  rewrite outcome_bind, treeAfter_bind. cbn [putTree outcome treeAfter].
  by destruct (writeMarkdownReport p (end_config e) (end_results e) _ t1) as [t2|msg].
Qed.

(** [optimize] never rejects, and its result is settled by how the loop over
    the phases ended.  The verdict is positive exactly when no phase threw, the
    baseline is among the recorded results, every recorded phase succeeded and
    both report files were written; the recommendations are then the note on
    the size gained and nothing else.  So a run in which some phase failed is
    reported as failed, also when charlie then recovers the application.
    Whenever the report is written, the recommendations are the gain note
    followed by one note per failed phase, in the order of the phases.  When a
    phase throws, the baseline is missing, or one of the two writes rejects,
    the run is a failure whose one recommendation is the message of the error;
    the recorded phase results are returned in every case. *)
Theorem optimize_verdict p config t :
  let loop := phaseLoop (loopFuel config) 0 p config [] t in
  ∃ e r,
    outcome loop = Return e
    ∧ outcome (optimize reductionPercentage writeReport writeMarkdownReport p config t) = Return r
    ∧ optimization_phases r = end_results e
    ∧ let recs := generateRecommendations reductionPercentage (end_results e) in
      let report := writeReport p (end_config e) (end_results e) recs (treeAfter loop) in
      let markdown := writeMarkdownReport p (end_config e) (end_results e) recs in
      let failed msg :=
        {| optimization_success := false; optimization_phases := end_results e;
           recommendations := ["Optimization failed: " +:+ msg] |} in
      (optimization_success r = true
       ↔ end_thrown e = None
         ∧ is_Some (findPhase zulu (end_results e))
         ∧ Forall (λ ph, phase_success ph = true) (end_results e)
         ∧ ∃ t1 t2, report = inl t1 ∧ markdown t1 = inl t2)
      ∧ (optimization_success r = true →
         ∃ note, note ∈ gainNotes ∧ recommendations r = [note])
      ∧ ((∃ ph, ph ∈ optimization_phases r ∧ phase_success ph = false) →
         optimization_success r = false)
      ∧ (end_thrown e = None →
         is_Some (findPhase zulu (end_results e)) →
         ∀ t1 t2, report = inl t1 → markdown t1 = inl t2 →
           treeAfter (optimize reductionPercentage writeReport writeMarkdownReport p config t) = t2
           ∧ optimization_success r = forallb phase_success (end_results e)
           ∧ ∃ note,
               note ∈ gainNotes
               ∧ recommendations r
                 = note :: (failureNote
                            <$> filter (λ ph, phase_success ph = false) (end_results e)))
      ∧ (∀ msg, end_thrown e = Some msg → r = failed msg)
      ∧ (end_thrown e = None →
         findPhase zulu (end_results e) = None →
         r = failed "Missing phase data for report generation")
      ∧ (end_thrown e = None →
         is_Some (findPhase zulu (end_results e)) →
         ∀ msg, report = inr msg ∨ (∃ t1, report = inl t1 ∧ markdown t1 = inr msg) →
           r = failed msg).
Proof.
  cbn zeta.
  destruct (optimize_run p config t) as (e & He & Hrun). cbn zeta in Hrun.
  exists e.
  destruct (end_thrown e) as [thrown|].
  { destruct Hrun as [Hout Htree]. eexists. split_and!; [done..| | | | | | |];
      cbn [optimization_success recommendations optimization_phases];
      first [ done
            | by (split; [done|]; intros [? _])
            | by intros msg [= ->] ]. }
  destruct (findPhase zulu (end_results e)) as [z|] eqn:Hz.
  2:{ destruct Hrun as [Hout Htree]. eexists. split_and!; [done..| | | | | | |];
        cbn [optimization_success recommendations optimization_phases];
        first [ done
              | by (split; [done|]; intros (_ & [? ?] & _))
              | by intros _ [? ?] ]. }
  destruct (findPhase_last _ _ _ Hz) as [l Hl].
  destruct (generateRecommendations_spec _ _ _ Hz Hl) as (note & Hnote & Hrecs).
  destruct (writeReport p (end_config e) (end_results e) _ _) as [t1|msg1] eqn:Hw1.
  2:{ destruct Hrun as [Hout Htree]. eexists. split_and!; [done..| | | | | | |];
        cbn [optimization_success recommendations optimization_phases];
        first [ done
              | by (split; [done|]; intros (_ & _ & _ & ? & ? & ? & _))
              | by intros _ _ msg [[= ->]|(? & ? & _)] ]. }
  destruct (writeMarkdownReport p (end_config e) (end_results e) _ t1) as [t2|msg2] eqn:Hw2.
  2:{ destruct Hrun as [Hout Htree]. eexists. split_and!; [done..| | | | | | |];
        cbn [optimization_success recommendations optimization_phases];
        first [ done
              | by (split; [done|]; intros (_ & _ & _ & ? & ? & [= <-] & ?); congruence)
              | by (intros _ _ ? ? [= <-]; congruence)
              | by (intros _ _ msg [?|(? & [= <-] & ?)]; [done|congruence]) ]. }
  destruct Hrun as [Hout Htree]. eexists. split_and!; [done..| | | | | | |];
    cbn [optimization_success recommendations optimization_phases].
  - rewrite forallb_forall, Forall_forall. split.
    + intros Hall. split_and!; [done|by eexists| |by eauto].
      intros ph Hin. apply Hall. by apply list_elem_of_In.
    + intros (_ & _ & Hall & _) ph Hin. apply Hall. by apply list_elem_of_In.
  - intros Hall. exists note. split; [done|]. by rewrite Hrecs, filter_failed_nil.
  - intros (ph & Hin & Hfail). apply not_true_is_false. intros Hall.
    rewrite forallb_forall in Hall. apply list_elem_of_In, Hall in Hin. congruence.
  - intros _ _ ? ? [= <-] Hw2'. rewrite Hw2 in Hw2'. injection Hw2' as <-.
    split_and!; [done..|]. by exists note.
  - done.
  - done.
  - intros _ _ msg [?|(? & [= <-] & ?)]; [done|congruence].
Qed.

(** Phases run in the order of the phase list, each position once: the
    recorded results are, in order, results of the leading phases of the
    configured list, possibly followed by the one [charlie] the loop appends. *)
Theorem phases_run_in_list_order p config t r :
  outcome (optimize reductionPercentage writeReport writeMarkdownReport p config t) = Return r →
  (phase <$> optimization_phases r) `prefix_of` (phases config ++ [charlie])
  ∧ length (optimization_phases r) ≤ length (phases config) + 1.
Proof.
  intros Hout.
  destruct (phaseLoop_order (loopFuel config) 0 p config [] t)
    as (e & k & He & Hord & Hk); [done|lia|].
  destruct (phaseLoop_returns (loopFuel config) 0 p config [] t) as (e' & He' & Hphases).
  rewrite He in He'. injection He' as <-.
  assert (Hres : optimization_phases r = end_results e).
  { destruct (optimize_run p config t) as (e' & He' & Hrun). cbn zeta in Hrun.
    rewrite He in He'. injection He' as <-.
    repeat case_match; destruct Hrun as [Hout' _];
      rewrite Hout in Hout'; by injection Hout' as ->. }
  rewrite Hres. split.
  - rewrite Hord. destruct Hphases as [->|[_ ->]].
    + etrans; [apply prefix_take|]. by apply prefix_app_r.
    + apply prefix_take.
  - rewrite <- (length_fmap phase), Hord, length_take.
    destruct Hphases as [Hp|[_ Hp]]; rewrite Hp in *; rewrite ?length_app in *;
      cbn in *; lia.
Qed.

(** The loop when the first phase of the list is not the baseline. *)
Lemma phaseLoop_without_zulu p config t :
  phases config !! 0 ≠ Some zulu →
  ∃ e,
    outcome (phaseLoop (loopFuel config) 0 p config [] t) = Return e
    ∧ (phases config !! 0 = Some alpha →
       e = {| end_config := config; end_results := [];
              end_thrown := Some "ALPHA phase requires ZULU baseline" |}
       ∧ treeAfter (phaseLoop (loopFuel config) 0 p config [] t) = t)
    ∧ (end_thrown e = None →
       end_results e = []
       ∨ ∃ first, [first] `prefix_of` end_results e ∧ phase_success first = false).
Proof.
  intros Hfirst. unfold loopFuel. cbn [Nat.add].
  rewrite phaseLoop_S.
  destruct (phases config !! 0) as [[]|] eqn:H0; [done|..].
  - (* alpha *)
    unfold executePhase, executeAlphaPhase. cbn. eexists. split_and!; [done..|].
    by intros [=].
  - (* beta *)
    unfold executePhase, executeBetaPhase. cbn.
    set (skipped := {| phase := beta; phase_success := false; metrics := emptyMetrics;
                       changes := noChanges;
                       phase_errors := ["BETA skipped: ALPHA phase failed"] |}).
    rewrite (bool_decide_eq_false_2 (beta = alpha)) by done.
    rewrite (bool_decide_eq_true_2 (beta = beta)) by done.
    rewrite (bool_decide_eq_true_2 (beta ≠ alpha)) by done. cbn [andb orb negb].
    destruct (bool_decide (mode config ≠ ModeRecovery)); cbn.
    + eexists. split_and!; [done|by intros [=]|]. intros _. right.
      exists skipped. done.
    + destruct (phaseLoop_extends (S (length (phases config))) 1 p config [skipped] t)
        as (e & He & Hpre).
      rewrite He. exists e. split_and!; [done|by intros [=]|]. intros _. right.
      exists skipped. done.
  - (* charlie *)
    unfold executePhase, executeCharliePhase. cbn. eexists. split_and!; [done|by intros [=]|].
    by intros [=].
  - cbn. eexists. split_and!; [done|by intros [=]|]. intros _. by left.
Qed.

(** A run has to begin with the baseline.  If the first configured phase is
    not [zulu] (or the list is empty) the verdict is a failure; when it is
    [alpha], the run stops there: nothing is recorded, the tree is untouched
    and the only note is that alpha requires the baseline. *)
Theorem optimize_must_start_with_zulu p config t :
  phases config !! 0 ≠ Some zulu →
  ∃ r,
    outcome (optimize reductionPercentage writeReport writeMarkdownReport p config t) = Return r
    ∧ optimization_success r = false
    ∧ (phases config !! 0 = Some alpha →
       r = {| optimization_success := false; optimization_phases := [];
              recommendations :=
                ["Optimization failed: ALPHA phase requires ZULU baseline"] |}
       ∧ treeAfter (optimize reductionPercentage writeReport writeMarkdownReport p config t) = t).
Proof.
  intros Hfirst.
  destruct (phaseLoop_without_zulu p config t Hfirst) as (e & He & Halpha & Hother).
  destruct (optimize_run p config t) as (e' & He' & Hrun). cbn zeta in Hrun.
  rewrite He in He'. injection He' as <-.
  destruct (end_thrown e) as [thrown|] eqn:Hthrown.
  { destruct Hrun as [Hout Htree]. eexists. split; [exact Hout|]. split; [done|].
    intros H0. destruct (Halpha H0) as [-> Ht]. cbn in *.
    injection Hthrown as <-. split; [done|]. by rewrite Htree. }
  assert (Hnot : phases config !! 0 = Some alpha → False).
  { intros H0. destruct (Halpha H0) as [-> _]. done. }
  destruct (findPhase zulu (end_results e)) as [z|] eqn:Hz.
  2:{ destruct Hrun as [Hout _]. eexists. split; [exact Hout|]. split; [done|].
      intros H0. by destruct (Hnot H0). }
  assert (Hfail : forallb phase_success (end_results e) = false).
  { destruct (Hother eq_refl) as [Hnil|(first & [more Hpre] & Hfail)].
    - rewrite Hnil in Hz. done.
    - rewrite Hpre. cbn. by rewrite Hfail. }
  repeat case_match; destruct Hrun as [Hout _]; (eexists; split; [exact Hout|]);
    (split; [done|]); intros Halpha0; by destruct (Hnot Halpha0).
Qed.

End OrchestratorMore.

Lemma phases_run_in_list_order_witness :
  ∃ r,
    outcome (SmartBundleOptimizer.optimize (Collaborators0 := PathSet.world)
               (Engines0 := PathSet.engines) (λ _ _, 34%Z) (λ _ _ _ _ t, inl t)
               (λ _ _ _ _ t, inl t) "/app" PathSet.threePhases PathSet.intact)
    = Return r
    ∧ phase <$> SmartBundleOptimizer.optimization_phases r = [zulu; alpha; beta; charlie]
    ∧ (phase <$> SmartBundleOptimizer.optimization_phases r)
      `prefix_of` ([zulu; alpha; beta] ++ [charlie]).
Proof.
  eexists. split; [vm_compute; reflexivity|]. split; [reflexivity|].
  refine (proj1 (phases_run_in_list_order (Collaborators0 := PathSet.world)
                   (Engines0 := PathSet.engines) (λ _ _, 34%Z) (λ _ _ _ _ t, inl t)
                   (λ _ _ _ _ t, inl t) "/app" PathSet.threePhases
                   PathSet.intact _ _)).
  vm_compute. reflexivity.
Defined.

Lemma optimize_must_start_with_zulu_witness :
  ∃ r,
    outcome (SmartBundleOptimizer.optimize (Collaborators0 := PathSet.world)
               (Engines0 := PathSet.engines) (λ _ _, 34%Z) (λ _ _ _ _ t, inl t)
               (λ _ _ _ _ t, inl t) "/app" PathSet.skipBaseline PathSet.intact)
    = Return r
    ∧ SmartBundleOptimizer.optimization_success r = false.
Proof.
  destruct (optimize_must_start_with_zulu (Collaborators0 := PathSet.world)
              (Engines0 := PathSet.engines) (λ _ _, 34%Z) (λ _ _ _ _ t, inl t)
              (λ _ _ _ _ t, inl t) "/app" PathSet.skipBaseline PathSet.intact)
    as (r & Hout & Hfail & _); [done|].
  exists r. by split.
Defined.


Section AnalyzerFacts.
Import ComponentUsageAnalyzer.

Lemma classifyEach_map candidates entries safe risky :
  classifyEach candidates (ImportedMap entries) safe risky
  = Return (safe ++ filter (λ c, isTrulyCritical c = false) candidates,
            risky ++ filter (λ c, isTrulyCritical c = true) candidates).
Proof.
  revert safe risky. induction candidates as [|c candidates IH]; intros safe risky.
  - cbn. by rewrite !app_nil_r.
  - cbn [classifyEach importedGet]. destruct (isTrulyCritical c) eqn:Hc.
    + rewrite IH, filter_cons_False, filter_cons_True by (rewrite Hc; done).
      by rewrite <- app_assoc.
    + rewrite IH, filter_cons_True, filter_cons_False by (rewrite Hc; done).
      by rewrite <- app_assoc.
Qed.

(** Given a real [Map] of imports, the classification splits the candidates in
    two, keeping their order: the five names it treats as critical ([React],
    [ReactDOM], [Router], [QueryClient], [App]) are the risky ones, every other
    candidate is marked safe to eliminate. *)
Theorem classification_splits_candidates candidates interdependencies entries :
  ∃ safe risky,
    classifyCandidatesSafety candidates interdependencies (ImportedMap entries)
    = Return (safe, risky)
    ∧ safe = filter (λ c, c ∉ ["React"; "ReactDOM"; "Router"; "QueryClient"; "App"]) candidates
    ∧ risky = filter (λ c, c ∈ ["React"; "ReactDOM"; "Router"; "QueryClient"; "App"]) candidates
    ∧ safe ++ risky ≡ₚ candidates.
Proof.
  assert (Hcrit : ∀ c, isTrulyCritical c = true
                       ↔ c ∈ ["React"; "ReactDOM"; "Router"; "QueryClient"; "App"]).
  { intros c. unfold isTrulyCritical. rewrite !orb_true_iff, !bool_decide_eq_true.
    rewrite !elem_of_cons, elem_of_nil. tauto. }
  eexists _, _. unfold classifyCandidatesSafety. rewrite classifyEach_map. cbn [app].
  split; [done|]. split_and!.
  - apply list_filter_iff. intros c. rewrite <- Hcrit. by destruct (isTrulyCritical c).
  - apply list_filter_iff. intros c. by rewrite <- Hcrit.
  - induction candidates as [|c candidates IH]; [done|].
    destruct (isTrulyCritical c) eqn:Hc.
    + rewrite filter_cons_False, filter_cons_True by (rewrite Hc; done).
      by rewrite <- Permutation_middle, IH.
    + rewrite filter_cons_True, filter_cons_False by (rewrite Hc; done).
      cbn. by rewrite IH.
Qed.


Lemma classifyEach_object candidates properties safe risky :
  classifyEach candidates (ImportedObject properties) safe risky
  = match candidates with
    | [] => Return (safe, risky)
    | _ :: _ => Throw "importedComponents.get is not a function"
    end.
Proof. by destruct candidates. Qed.

(** [identifyEliminationCandidates] hands [classifyCandidatesSafety] the plain
    object that [analyzeProject] returns, not a [Map].  So, once the analysis
    has resolved, it resolves only when there is no elimination candidate at
    all, with empty safe and risky lists; with at least one candidate the
    first [get] throws and the call rejects.  It never yields a non-empty list
    of safe candidates. *)
Theorem identifyEliminationCandidates_never_yields_candidates
    findSourceFiles importsOf jsxTagsOf findInterComponentDependencies projectPath analysis :
  analyzeProject findSourceFiles importsOf jsxTagsOf projectPath = Return analysis →
  let identified :=
    identifyEliminationCandidates findSourceFiles importsOf jsxTagsOf
      findInterComponentDependencies projectPath in
  (eliminationCandidates analysis = [] →
   identified
   = Return {| data_eliminationCandidates := []; safeCandidates := [];
               riskyCandidates := [];
               interdependentComponents := findInterComponentDependencies projectPath |})
  ∧ (eliminationCandidates analysis ≠ [] →
     identified = Throw "importedComponents.get is not a function")
  ∧ (∀ data, identified = Return data →
       safeCandidates data = [] ∧ riskyCandidates data = []
       ∧ data_eliminationCandidates data = []).
Proof.
  intros Hanalysis. cbn zeta. unfold identifyEliminationCandidates.
  rewrite Hanalysis. unfold classifyCandidatesSafety. rewrite classifyEach_object.
  destruct (eliminationCandidates analysis) as [|c rest]; split_and!; try done.
  intros data [= <-]. done.
Qed.

Lemma isUpper_toLower c :
  isUpper (if isUpper c then ascii_of_nat (nat_of_ascii c + 32) else c) = false.
Proof.
  destruct (isUpper c) eqn:Hc; [|done].
  unfold isUpper in *. apply andb_prop in Hc as [Hlo Hhi].
  apply Nat.leb_le in Hlo, Hhi.
  rewrite nat_ascii_embedding by lia.
  apply andb_false_iff. right. apply Nat.leb_gt. lia.
Qed.

Lemma hyphenateCapitals_toLowerCase s :
  hyphenateCapitals (toLowerCase s) = toLowerCase s.
Proof.
  induction s as [|c s IH]; [done|].
  cbn [toLowerCase hyphenateCapitals]. by rewrite isUpper_toLower, IH.
Qed.

Lemma prefix_append_self (a b : string) : String.prefix a (a +:+ b) = true.
Proof.
  induction a as [|x a IH]; [by destruct b|].
  change (String x a +:+ b) with (String x (a +:+ b)). cbn [String.prefix].
  by destruct (ascii_dec x x).
Qed.

Lemma NoDup_setAdd x l : NoDup l → NoDup (setAdd x l).
Proof.
  intros Hl. unfold setAdd. case_bool_decide; [done|].
  apply NoDup_app. split_and!; [done| |apply NoDup_singleton].
  intros y Hy ->%list_elem_of_singleton. done.
Qed.

Lemma setAdd_fold_spec (l acc : list string) :
  NoDup acc →
  NoDup (foldl (λ unique x, setAdd x unique) acc l)
  ∧ ∀ x, x ∈ foldl (λ unique x, setAdd x unique) acc l ↔ x ∈ acc ∨ x ∈ l.
Proof.
  revert acc. induction l as [|y l IH]; intros acc Hacc; cbn [foldl].
  - split; [done|]. intros x. rewrite elem_of_nil. tauto.
  - destruct (IH (setAdd y acc) (NoDup_setAdd y acc Hacc)) as [Hnd Hin].
    split; [done|]. intros x. rewrite Hin, elem_of_cons.
    unfold setAdd. case_bool_decide.
    + split; [tauto|]. intros [?|[->|?]]; tauto.
    + rewrite elem_of_app, list_elem_of_singleton. tauto.
Qed.

(** The package list [identifyUnusedPackages] derives from the removed
    components has no duplicates and holds exactly one package per component:
    the mapped one for [Button], [Card], [Dialog] and [Dropdown], and for any
    other name [@radix-ui/react-] followed by the lower-cased name without its
    first character.  The name is lower-cased before the capitals are
    hyphenated, so no hyphen is ever inserted, and the [slice(1)] meant to
    drop a leading hyphen drops the first letter. *)
Theorem unused_packages_drop_first_letter removedComponents :
  NoDup (identifyUnusedPackages removedComponents)
  ∧ (∀ packageName,
       packageName ∈ identifyUnusedPackages removedComponents
       ↔ ∃ componentName,
           componentName ∈ removedComponents
           ∧ packageName
             = default ("@radix-ui/react-" +:+ dropChars 1 (toLowerCase componentName))
                 (mapGet componentToPackageMap componentName))
  ∧ (∀ packageName,
       packageName ∈ identifyUnusedPackages removedComponents →
       String.prefix "@radix-ui/react-" packageName = true).
Proof.
  unfold identifyUnusedPackages.
  destruct (setAdd_fold_spec (packageFor <$> removedComponents) [] (NoDup_nil_2))
    as [Hnd Hin].
  assert (Hfor : ∀ c, packageFor c
                      = default ("@radix-ui/react-" +:+ dropChars 1 (toLowerCase c))
                          (mapGet componentToPackageMap c)).
  { intros c. unfold packageFor, inferredPackage.
    rewrite hyphenateCapitals_toLowerCase. by destruct (mapGet _ _). }
  assert (Hspec : ∀ packageName,
    packageName ∈ foldl (λ unique x, setAdd x unique) [] (packageFor <$> removedComponents)
    ↔ ∃ componentName,
        componentName ∈ removedComponents
        ∧ packageName
          = default ("@radix-ui/react-" +:+ dropChars 1 (toLowerCase componentName))
              (mapGet componentToPackageMap componentName)).
  { intros packageName. rewrite Hin, elem_of_nil, list_elem_of_fmap.
    split.
    - intros [[]|(c & -> & Hc)]. exists c. by rewrite Hfor.
    - intros (c & Hc & ->). right. exists c. by rewrite Hfor. }
  split_and!; [done|done|].
  intros packageName (c & _ & ->)%Hspec.
  unfold componentToPackageMap. cbn [mapGet].
  repeat (case_decide; [reflexivity|]). cbn [default]. apply prefix_append_self.
Qed.

End AnalyzerFacts.

Lemma identifyEliminationCandidates_witness :
  ComponentUsageAnalyzer.identifyEliminationCandidates ComponentUsageAnalyzer.sampleSourceFiles ComponentUsageAnalyzer.sampleImportsOf
    ComponentUsageAnalyzer.sampleJsxTagsOf (λ _, []) "/app"
  = Throw "importedComponents.get is not a function".
Proof.
  edestruct (identifyEliminationCandidates_never_yields_candidates
               ComponentUsageAnalyzer.sampleSourceFiles ComponentUsageAnalyzer.sampleImportsOf ComponentUsageAnalyzer.sampleJsxTagsOf
               (λ _, []) "/app") as (_ & Hthrow & _).
  - vm_compute. reflexivity.
  - apply Hthrow. vm_compute. discriminate.
Defined.

Section PathFacts.

Lemma append_nil_r (s : string) : s +:+ "" = s.
Proof.
  induction s as [|x s IH]; [done|].
  change (String x s +:+ "") with (String x (s +:+ "")). by rewrite IH.
Qed.

Lemma splitSlash_current s current :
  ∃ first rest,
    splitSlash s "" = first :: rest ∧ splitSlash s current = (current +:+ first) :: rest.
Proof.
  revert current. induction s as [|c s IH]; intros current.
  - exists "", []. cbn. by rewrite append_nil_r.
  - cbn [splitSlash]. case_decide.
    + exists "", (splitSlash s ""). by rewrite append_nil_r.
    + destruct (IH ("" +:+ String c "")) as (first & rest & Hsplit & ->).
      destruct (IH (current +:+ String c "")) as (first' & rest' & Hsplit' & ->).
      rewrite Hsplit in Hsplit'. injection Hsplit' as <- <-.
      eexists _, _. split; [done|]. by rewrite append_assoc.
Qed.

Lemma joinWith_cons sep a b rest :
  joinWith sep (a :: b :: rest) = a +:+ sep +:+ joinWith sep (b :: rest).
Proof. reflexivity. Qed.

(** [s.split('/').join('/')] is [s]. *)
Lemma joinWith_splitSlash s : joinWith "/" (splitSlash s "") = s.
Proof.
  induction s as [|c s IH]; [done|].
  cbn [splitSlash]. case_decide as Hc.
  - subst c. destruct (splitSlash_current s "") as (first & rest & Hsplit & _).
    rewrite Hsplit in *. by rewrite joinWith_cons, IH.
  - destruct (splitSlash_current s ("" +:+ String c "")) as (first & rest & Hsplit & ->).
    rewrite Hsplit in IH. destruct rest as [|second rest].
    + cbn [joinWith] in *. by rewrite IH.
    + rewrite joinWith_cons in *. by rewrite append_assoc, IH.
Qed.

Lemma splitSlash_join a b current :
  splitSlash (a +:+ "/" +:+ b) current = splitSlash a current ++ splitSlash b "".
Proof.
  revert current. induction a as [|c a IH]; intros current.
  - reflexivity.
  - rewrite append_cons. cbn [splitSlash]. case_decide; [|apply IH].
    by rewrite IH.
Qed.

End PathFacts.

Section StagingFacts.
Import NuclearOptimizer.

(** Stubs and restored originals go back where the component came from: for a
    file under the project directory whose path relative to it starts with the
    [client] folder, the staging path is the file's own path, as long as no
    folder on the way to the project directory is itself called [client].  A
    path with no [client] folder at all is flattened to its file name. *)
Theorem stagingPath_round_trip projectPath relativePath :
  "client" ∉ splitSlash projectPath "" →
  head (splitSlash relativePath "") = Some "client" →
  stagingPath projectPath (pathJoin projectPath relativePath)
  = pathJoin projectPath relativePath
  ∧ ∀ originalPath,
      "client" ∉ splitSlash originalPath "" →
      stagingPath projectPath originalPath
      = pathJoin projectPath (lastSegment originalPath).
Proof.
  intros Hproject Hrel. split.
  - unfold stagingPath. cbn zeta. unfold pathJoin. rewrite !splitSlash_join.
    destruct (splitSlash relativePath "") as [|first rest] eqn:Hsplit; [done|].
    injection Hrel as ->.
    assert (Hfind :
      list_find (λ part, part = "client") (splitSlash projectPath "" ++ "client" :: rest)
      = Some (length (splitSlash projectPath ""), "client")).
    { apply list_find_Some. split_and!.
      - by rewrite lookup_app_r, Nat.sub_diag.
      - done.
      - intros j part Hj Hlt ->. rewrite lookup_app_l in Hj by done.
        apply Hproject. by eapply list_elem_of_lookup_2. }
    rewrite Hfind. cbn beta iota. rewrite drop_app_length, <- Hsplit, joinWith_splitSlash. done.
  - intros originalPath Hnone. unfold stagingPath. cbn zeta.
    destruct (list_find _ _) as [[i part]|] eqn:Hfind; [|done].
    apply list_find_Some in Hfind as (Hi & -> & _).
    destruct Hnone. by eapply list_elem_of_lookup_2.
Qed.

End StagingFacts.

Section ScanFacts.
Import NuclearOptimizer.
Variable parse : string → option Program.
Variable globComponents : string → FileTree → list string.

Lemma scanEach_cons filePath rest (o : Optimizer) (fs : FileTree) :
  scanEach parse (filePath :: rest) o fs
  = if negb (includes (criticalComponents o) (componentNameOf filePath)) then
      match fs !! filePath with
      | Some content =>
          scanEach parse rest
            {| deletedComponents :=
                 mapSet (componentNameOf filePath) content (deletedComponents o);
               componentPaths :=
                 mapSet (componentNameOf filePath) filePath (componentPaths o);
               componentExportMap :=
                 mapSet (componentNameOf filePath) (extractedExports parse content)
                   (componentExportMap o);
               criticalComponents := criticalComponents o |}
            (delete filePath fs)
      | None => (Throw (readFileError filePath), o, fs)
      end
    else scanEach parse rest o fs.
Proof. reflexivity. Qed.

#[local] Arguments scanEach : simpl never.

Lemma scanEach_other_names files (o : Optimizer) (fs : FileTree) c :
  (∀ g, g ∈ files → componentNameOf g ∉ criticalComponents o → componentNameOf g ≠ c) →
  criticalComponents (scanEach parse files o fs).1.2 = criticalComponents o
  ∧ mapGet (componentPaths (scanEach parse files o fs).1.2) c = mapGet (componentPaths o) c
  ∧ mapGet (deletedComponents (scanEach parse files o fs).1.2) c
    = mapGet (deletedComponents o) c.
Proof.
  revert o fs. induction files as [|g files IH]; intros o fs Hnames; [done|].
  rewrite scanEach_cons. unfold includes. case_bool_decide as Hcrit; cbn [negb].
  { apply IH. intros x Hx. apply Hnames. by apply elem_of_cons; right. }
  destruct (fs !! g) as [content|]; [|done].
  match goal with |- context [scanEach parse files ?o1 ?fs1] =>
    destruct (IH o1 fs1) as (Hc & Hp & Hd)
  end.
  { cbn. intros x Hx. apply Hnames. by apply elem_of_cons; right. }
  rewrite Hc, Hp, Hd. cbn. rewrite !mapGet_mapSet.
  assert (componentNameOf g ≠ c) by (apply Hnames; [by apply elem_of_cons; left|done]).
  by rewrite !decide_False.
Qed.

(** After a scan that went through, the backup holds, for a component name,
    the path and the content of the last file of that name. *)
Lemma scanEach_records_last pre f post (o o' : Optimizer) (fs fs' : FileTree) :
  scanEach parse (pre ++ f :: post) o fs = (Return tt, o', fs') →
  f ∉ pre →
  componentNameOf f ∉ criticalComponents o →
  (∀ g, g ∈ post → componentNameOf g ≠ componentNameOf f) →
  ∃ content,
    fs !! f = Some content
    ∧ mapGet (componentPaths o') (componentNameOf f) = Some f
    ∧ mapGet (deletedComponents o') (componentNameOf f) = Some content.
Proof.
  revert o fs. induction pre as [|g pre IH]; intros o fs Hscan Hpre Hcrit Hpost.
  - cbn [app] in Hscan. rewrite scanEach_cons in Hscan. unfold includes in Hscan.
    rewrite bool_decide_eq_false_2 in Hscan by done. cbn [negb] in Hscan.
    destruct (fs !! f) as [content|]; [|done].
    exists content. split; [done|].
    match type of Hscan with scanEach parse post ?o1 ?fs1 = _ =>
      destruct (scanEach_other_names post o1 fs1 (componentNameOf f)) as (_ & Hp & Hd)
    end.
    { intros x Hx _. by apply Hpost. }
    rewrite Hscan in Hp, Hd. cbn in Hp, Hd.
    rewrite Hp, Hd, !mapGet_mapSet. by rewrite !decide_True.
  - cbn [app] in Hscan. rewrite scanEach_cons in Hscan.
    apply not_elem_of_cons in Hpre as [Hne Hpre].
    destruct (negb _); [|by eapply IH].
    destruct (fs !! g) as [content|]; [|done].
    eapply IH in Hscan as (content' & Hread & Hp & Hd); [|done..].
    exists content'. rewrite lookup_delete_ne in Hread by done. done.
Qed.

(** Where a recorded path comes from: it was there before the scan and no
    scanned file bears that name, or it is the last scanned file of that name. *)
Lemma scanEach_path_origin files (o o' : Optimizer) (fs fs' : FileTree) c f :
  scanEach parse files o fs = (Return tt, o', fs') →
  mapGet (componentPaths o') c = Some f →
  (mapGet (componentPaths o) c = Some f
   ∧ ∀ g, g ∈ files → componentNameOf g ∉ criticalComponents o → componentNameOf g ≠ c)
  ∨ ∃ pre post,
      files = pre ++ f :: post ∧ componentNameOf f = c
      ∧ ∀ g, g ∈ post → componentNameOf g ∉ criticalComponents o → componentNameOf g ≠ c.
Proof.
  revert o fs. induction files as [|g files IH]; intros o fs Hscan Hrec.
  { left. cbn in Hscan. injection Hscan as <- _. split; [done|].
    by intros g ?%elem_of_nil. }
  rewrite scanEach_cons in Hscan. unfold includes in Hscan.
  case_bool_decide as Hcrit; cbn [negb] in Hscan.
  { destruct (IH _ _ Hscan Hrec) as [[Hold Hnone]|(pre & post & -> & ? & ?)].
    - left. split; [done|]. intros x [->|Hx]%elem_of_cons; [done|by apply Hnone].
    - right. by exists (g :: pre), post. }
  destruct (fs !! g) as [content|]; [|done].
  destruct (IH _ _ Hscan Hrec) as [[Hold Hnone]|(pre & post & -> & ? & ?)].
  - cbn in Hold, Hnone. rewrite mapGet_mapSet in Hold.
    destruct (decide (componentNameOf g = c)) as [Hc|Hc].
    + injection Hold as <-. right. by exists [], files.
    + left. split; [done|]. intros x [->|Hx]%elem_of_cons; [done|by apply Hnone].
  - right. by exists (g :: pre), post.
Qed.

Lemma scanEach_deletes files (o o' : Optimizer) (fs fs' : FileTree) x :
  scanEach parse files o fs = (Return tt, o', fs') →
  x ∈ files → (componentNameOf x ∉ criticalComponents o) → (fs' !! x = None).
Proof.
  revert o fs. induction files as [|g files IH]; intros o fs Hscan Hx Hcrit.
  { by apply elem_of_nil in Hx. }
  rewrite scanEach_cons in Hscan. unfold includes in Hscan.
  assert (Hkeep : ∀ (o1 : Optimizer) (fs1 : FileTree),
    criticalComponents o1 = criticalComponents o →
    scanEach parse files o1 fs1 = (Return tt, o', fs') →
    fs1 !! x = None → fs' !! x = None).
  { clear IH Hscan Hx. revert x Hcrit. induction files as [|h files IHf];
      intros x Hcrit o1 fs1 Hsame Hscan Hgone.
    - cbn in Hscan. by injection Hscan as _ <-.
    - rewrite scanEach_cons in Hscan. destruct (negb _).
      + destruct (fs1 !! h) as [content|]; [|done].
        eapply IHf; [done| |exact Hscan|]; [done|].
        destruct (decide (h = x)) as [->|]; [by rewrite lookup_delete_eq|].
        by rewrite lookup_delete_ne.
      + by eapply IHf. }
  apply elem_of_cons in Hx as [->|Hx].
  - rewrite bool_decide_eq_false_2 in Hscan by done. cbn [negb] in Hscan.
    destruct (fs !! g) as [content|]; [|done].
    eapply Hkeep; [|exact Hscan|]; [done|]. by rewrite lookup_delete_eq.
  - destruct (negb _); [|by eapply IH].
    destruct (fs !! g) as [content|]; [|done]. by eapply IH.
Qed.

Lemma createZeroState_elsewhere projectPath (o : Optimizer) (fs : FileTree) x :
  (∀ c f, mapGet (componentPaths o) c = Some f → stagingPath projectPath f ≠ x) →
  createZeroState projectPath o fs !! x = fs !! x.
Proof.
  intros Hpaths. unfold createZeroState.
  generalize (mapKeys (deletedComponents o)). intros names. revert fs.
  induction names as [|c names IH]; intros fs; [done|].
  cbn [foldl]. rewrite IH. unfold createEmptyExport.
  destruct (mapGet (componentPaths o) c) as [originalPath|] eqn:Hc; [|done].
  rewrite lookup_insert_ne; [done|]. by eapply Hpaths.
Qed.

(** Restoring a component writes back what the scan read: the content of the
    last scanned file of that name, at that file's staging path.  A file that
    was empty is never written back, since the empty string counts as no
    content. *)
Theorem restore_writes_back_original projectPath (fs : FileTree) pre f post
    (o' : Optimizer) (fs' : FileTree) :
  globComponents projectPath fs = pre ++ f :: post →
  scanAndDeleteAllComponents parse globComponents projectPath newOptimizer fs
  = (Return tt, o', fs') →
  f ∉ pre →
  (∀ g, g ∈ post → componentNameOf g ≠ componentNameOf f) →
  componentNameOf f ∉ ["App"; "main"; "index"] →
  ∃ content,
    fs !! f = Some content
    ∧ ∀ fs'' : FileTree,
        restoreOriginalComponent projectPath (componentNameOf f) o' fs''
        = if bool_decide (content = "") || bool_decide (f = "") then fs''
          else <[stagingPath projectPath f := content]> fs''.
Proof.
  intros Hglob Hscan Hpre Hpost Hcrit. unfold scanAndDeleteAllComponents in Hscan.
  rewrite Hglob in Hscan.
  destruct (scanEach_records_last pre f post newOptimizer o' fs fs' Hscan Hpre Hcrit Hpost)
    as (content & Hread & Hp & Hd).
  exists content. split; [done|]. intros fs''.
  unfold restoreOriginalComponent. by rewrite Hp, Hd.
Qed.

(** Two component files of the same name in different folders share one slot
    of the backup.  The earlier one is deleted like any other, but the zero
    state holds no stub for it, the recorded path is not its own, and
    restoring the component does not bring it back. *)
Theorem shadowed_component_is_lost projectPath config (fs : FileTree) pre f1 mid f2 post
    deleted (o' : Optimizer) (fs' : FileTree) :
  globComponents projectPath fs = pre ++ f1 :: mid ++ f2 :: post →
  NoDup (globComponents projectPath fs) →
  componentNameOf f1 = componentNameOf f2 →
  componentNameOf f1 ∉ ["App"; "main"; "index"] →
  (∀ g, g ∈ globComponents projectPath fs → stagingPath projectPath g = g) →
  nuclearDeleteAndStub parse globComponents projectPath config newOptimizer fs
  = (Return deleted, o', fs') →
  fs' !! f1 = None
  ∧ mapGet (componentPaths o') (componentNameOf f1) ≠ Some f1
  ∧ ∀ fs'' : FileTree,
      restoreOriginalComponent projectPath (componentNameOf f1) o' fs'' !! f1 = fs'' !! f1.
Proof.
  intros Hglob Hnodup Hname Hcrit Hstaging Hrun.
  unfold nuclearDeleteAndStub, scanAndDeleteAllComponents in Hrun.
  destruct (scanEach parse (globComponents projectPath fs) newOptimizer fs)
    as [[out o1] fs1] eqn:Hscan.
  destruct out as [[]|msg]; [|done]. injection Hrun as _ <- <-.
  assert (Hrecorded : ∀ c f, mapGet (componentPaths o1) c = Some f →
                             f ∈ globComponents projectPath fs ∧ f ≠ f1).
  { intros c f Hrec.
    destruct (scanEach_path_origin _ _ _ _ _ c f Hscan Hrec)
      as [[Hold _]|(pre' & post' & Hsplit & Hc & Hlast)]; [done|].
    split; [rewrite Hsplit; apply elem_of_app; right; apply elem_of_cons; by left|].
    intros ->.
    rewrite Hglob in Hsplit, Hnodup.
    assert (Hlen : length pre = length pre').
    { apply (proj1 (NoDup_alt _) Hnodup (length pre) (length pre') f1).
      - by rewrite lookup_app_r, Nat.sub_diag.
      - rewrite Hsplit. by rewrite lookup_app_r, Nat.sub_diag. }
    apply app_inj_1 in Hsplit as [_ [= <-]]; [|done].
    apply (Hlast f2); [|by rewrite <- Hname|by rewrite <- Hname].
    apply elem_of_app; right. apply elem_of_cons; by left. }
  assert (Hin : f1 ∈ globComponents projectPath fs).
  { rewrite Hglob. apply elem_of_app; right. apply elem_of_cons; by left. }
  split_and!.
  - rewrite createZeroState_elsewhere.
    + by eapply scanEach_deletes.
    + intros c f Hrec. destruct (Hrecorded c f Hrec) as [Hf Hne]. by rewrite Hstaging.
  - intros Hrec. by destruct (Hrecorded _ _ Hrec).
  - intros fs''. unfold restoreOriginalComponent.
    destruct (mapGet (deletedComponents o1) _) as [content|]; [|done].
    destruct (mapGet (componentPaths o1) _) as [originalPath|] eqn:Hrec; [|done].
    destruct (_ || _); [done|].
    destruct (Hrecorded _ _ Hrec) as [Hf Hne].
    rewrite lookup_insert_ne; [done|]. by rewrite Hstaging.
Qed.

End ScanFacts.

Lemma stagingPath_round_trip_witness :
  NuclearOptimizer.stagingPath "/app" (pathJoin "/app" "client/src/components/ui/Chart.tsx")
  = pathJoin "/app" "client/src/components/ui/Chart.tsx".
Proof.
  apply (stagingPath_round_trip "/app" "client/src/components/ui/Chart.tsx").
  - vm_compute. intros Hin.
    repeat (apply elem_of_cons in Hin as [Hin|Hin]; [discriminate|]).
    by apply elem_of_nil in Hin.
  - reflexivity.
Defined.

Lemma restore_writes_back_original_witness :
  ∃ o' fs',
    NuclearOptimizer.scanAndDeleteAllComponents NuclearOptimizer.parseStaging
      NuclearOptimizer.globStaging "/app" NuclearOptimizer.newOptimizer
      NuclearOptimizer.stagingTree = (Return tt, o', fs')
    ∧ NuclearOptimizer.restoreOriginalComponent "/app"
        (NuclearOptimizer.componentNameOf NuclearOptimizer.headerPath) o' ∅
      !! NuclearOptimizer.headerPath = Some NuclearOptimizer.headerSource.
Proof.
  destruct (NuclearOptimizer.scanAndDeleteAllComponents NuclearOptimizer.parseStaging
              NuclearOptimizer.globStaging "/app" NuclearOptimizer.newOptimizer
              NuclearOptimizer.stagingTree) as [[out o'] fs'] eqn:Hscan.
  assert (Hout : out = Return tt).
  { change out with (out, o', fs').1.1. rewrite <- Hscan. vm_compute. reflexivity. }
  subst out. exists o', fs'. split; [done|].
  destruct (restore_writes_back_original NuclearOptimizer.parseStaging
              NuclearOptimizer.globStaging "/app" NuclearOptimizer.stagingTree
              [NuclearOptimizer.appPath] NuclearOptimizer.headerPath
              [NuclearOptimizer.chartPath] o' fs') as (content & Hread & Hrestore).
  - vm_compute. reflexivity.
  - exact Hscan.
  - intros Hin. apply list_elem_of_singleton in Hin. discriminate.
  - intros g Hg. apply list_elem_of_singleton in Hg as ->. vm_compute. discriminate.
  - vm_compute. intros Hin.
    repeat (apply elem_of_cons in Hin as [Hin|Hin]; [discriminate|]).
    by apply elem_of_nil in Hin.
  - rewrite Hrestore.
    assert (Hcontent : content = NuclearOptimizer.headerSource).
    { vm_compute in Hread. injection Hread as Hc. symmetry. exact Hc. }
    subst content. vm_compute. reflexivity.
Defined.

Lemma shadowed_component_is_lost_witness :
  ∃ deleted o' fs',
    NuclearOptimizer.nuclearDeleteAndStub NuclearOptimizer.parseStaging NuclearOptimizer.globTwins
      "/app" NuclearOptimizer.keepHeader NuclearOptimizer.newOptimizer NuclearOptimizer.twinTree
    = (Return deleted, o', fs')
    ∧ deleted = ["card"]
    ∧ NuclearOptimizer.twinTree !! NuclearOptimizer.uiCardPath = Some NuclearOptimizer.uiCardSource
    ∧ fs' !! NuclearOptimizer.uiCardPath = None.
Proof.
  destruct (NuclearOptimizer.nuclearDeleteAndStub NuclearOptimizer.parseStaging
              NuclearOptimizer.globTwins "/app" NuclearOptimizer.keepHeader
              NuclearOptimizer.newOptimizer NuclearOptimizer.twinTree) as [[out o'] fs'] eqn:Hrun.
  assert (Hout : out = Return ["card"]).
  { change out with (out, o', fs').1.1. rewrite <- Hrun. vm_compute. reflexivity. }
  subst out. exists ["card"], o', fs'.
  split; [done|]. split; [done|]. split; [vm_compute; reflexivity|].
  refine (proj1 (shadowed_component_is_lost NuclearOptimizer.parseStaging NuclearOptimizer.globTwins
                   "/app" NuclearOptimizer.keepHeader NuclearOptimizer.twinTree
                   [] NuclearOptimizer.uiCardPath [] NuclearOptimizer.formsCardPath [] ["card"] o' fs'
                   _ _ _ _ _ Hrun)).
  - vm_compute. reflexivity.
  - vm_compute. apply NoDup_cons. split; [|apply NoDup_singleton].
    intros Hin. apply list_elem_of_singleton in Hin. discriminate.
  - vm_compute. reflexivity.
  - vm_compute. intros Hin.
    repeat (apply elem_of_cons in Hin as [Hin|Hin]; [discriminate|]).
    by apply elem_of_nil in Hin.
  - intros g Hg. vm_compute in Hg.
    repeat (apply elem_of_cons in Hg as [->|Hg]; [vm_compute; reflexivity|]).
    destruct (proj1 (elem_of_nil _) Hg).
Defined.

Lemma entry_points_never_eliminated_witness :
  ∃ out o' fs',
    NuclearOptimizer.scanAndDeleteAllComponents NuclearOptimizer.parseStaging
      NuclearOptimizer.globStaging "/app" NuclearOptimizer.newOptimizer
      NuclearOptimizer.stagingTree = (out, o', fs')
    ∧ mapGet (NuclearOptimizer.deletedComponents o') "App" = None
    ∧ fs' !! NuclearOptimizer.appPath
      = NuclearOptimizer.stagingTree !! NuclearOptimizer.appPath.
Proof.
  pose proof (entry_points_never_eliminated NuclearOptimizer.parseStaging
                NuclearOptimizer.globStaging "/app" NuclearOptimizer.stagingTree "App")
    as Hkept.
  destruct (NuclearOptimizer.scanAndDeleteAllComponents _ _ _ _ _) as [[out o'] fs'].
  exists out, o', fs'. split; [done|].
  destruct Hkept as [Hbackup Hfile]; [apply elem_of_cons; by left|].
  split; [done|]. apply Hfile. vm_compute. reflexivity.
Defined.

Lemma stub_preserves_handled_exports_witness :
  "Header"
  ∈ NuclearOptimizer.stubExportNames
      (NuclearOptimizer.buildStub "Header"
         (NuclearOptimizer.extractedExports NuclearOptimizer.parseStaging
            NuclearOptimizer.headerSource)).
Proof.
  apply (stub_preserves_handled_exports NuclearOptimizer.parseStaging "Header"
           NuclearOptimizer.headerSource NuclearOptimizer.headerAst "Header").
  - reflexivity.
  - repeat constructor.
  - exists "Header". split; [|reflexivity]. vm_compute. apply elem_of_cons. by left.
Defined.

Lemma scanJSXUsage_counts_witness :
  ∃ info,
    mapGet ComponentUsageAnalyzer.sampleRendered "Button" = Some info
    ∧ ComponentUsageAnalyzer.renderCount info = 2
    ∧ 1 ≤ length (ComponentUsageAnalyzer.filePaths info)
    ∧ length (ComponentUsageAnalyzer.filePaths info) ≤ ComponentUsageAnalyzer.renderCount info.
Proof.
  eexists. split; [vm_compute; reflexivity|]. split; [reflexivity|].
  refine (scanJSXUsage_counts _ _ "Button" _
            (_ : mapGet ComponentUsageAnalyzer.sampleRendered "Button" = Some _)).
  vm_compute. reflexivity.
Defined.

Section ExternalFacts.
Import TreeDrivenOptimizer.

Lemma external_fold used (unused acc : list string) :
  foldl (λ external dep,
           if includes used dep then external
           else if includes safeBuildTools dep || String.prefix "@types/" dep
                then external ++ [dep]
                else external) acc unused
  = acc ++ filter (λ dep, (dep ∉ used)
                          ∧ (dep ∈ safeBuildTools ∨ String.prefix "@types/" dep = true))
             unused.
Proof.
  revert acc. induction unused as [|dep unused IH]; intros acc; cbn [foldl].
  - by rewrite app_nil_r.
  - rewrite IH. unfold includes.
    destruct (bool_decide (dep ∈ used)) eqn:Hused.
    + apply bool_decide_eq_true in Hused.
      rewrite filter_cons_False; [done|]. by intros [? _].
    + apply bool_decide_eq_false in Hused.
      destruct (bool_decide (dep ∈ safeBuildTools) || String.prefix "@types/" dep) eqn:Hsafe.
      * rewrite filter_cons_True, <- app_assoc; [done|]. split; [done|].
        apply orb_true_iff in Hsafe as [?%bool_decide_eq_true|?]; auto.
      * rewrite filter_cons_False; [done|]. intros [_ Hs].
        apply orb_false_iff in Hsafe as [Hno%bool_decide_eq_false Hpre].
        destruct Hs; [done|congruence].
Qed.

Lemma external_list analysis :
  match unusedDependencies analysis with
  | Some unused =>
      foldl (λ external dep,
               if includes (default [] (usedDependencies analysis)) dep then external
               else if includes safeBuildTools dep || String.prefix "@types/" dep
                    then external ++ [dep]
                    else external) [] unused
  | None => []
  end
  = filter (λ dep, (dep ∉ default [] (usedDependencies analysis))
                   ∧ (dep ∈ safeBuildTools ∨ String.prefix "@types/" dep = true))
      (default [] (unusedDependencies analysis)).
Proof.
  destruct (unusedDependencies analysis) as [unused|]; cbn [default]; [|done].
  by rewrite external_fold.
Qed.

Lemma validateExternalDependencies_passes external used :
  (∀ dep, dep ∈ external → dep ∉ used) →
  validateExternalDependencies external used = Return tt.
Proof.
  intros Hnone. unfold validateExternalDependencies. cbn zeta.
  destruct (filter (λ dep, dep ∈ used) external) as [|dep rest] eqn:Hfilter; [done|].
  assert (Hdep : dep ∈ filter (λ dep, dep ∈ used) external)
    by (rewrite Hfilter; apply elem_of_cons; by left).
  apply list_elem_of_filter in Hdep as [Hused Hdep]. by destruct (Hnone dep).
Qed.

(** [generateExternalDependencies] never throws: its closing validation cannot
    find an imported dependency among the externals, because those are, in
    order, exactly the unused dependencies that are not imported and are a
    known build tool or an [@types/] package. *)
Theorem externals_are_unused_build_tools analysis :
  generateExternalDependencies analysis
  = Return (filter (λ dep, (dep ∉ default [] (usedDependencies analysis))
                           ∧ (dep ∈ safeBuildTools ∨ String.prefix "@types/" dep = true))
              (default [] (unusedDependencies analysis))).
Proof.
  unfold generateExternalDependencies. cbn zeta. rewrite external_list.
  rewrite validateExternalDependencies_passes; [done|].
  intros dep Hdep. by apply list_elem_of_filter in Hdep as [[Hnot _] _].
Qed.

(** The three removal decisions agree on the dependency tree: a dependency is
    removed from imports exactly when it is listed as unused and not imported;
    an imported dependency is never removed nor externalised; and whatever is
    externalised would also be removed from imports. *)
Theorem used_dependencies_are_kept analysis dependency :
  (shouldRemoveDependency dependency analysis = true
   ↔ (dependency ∉ default [] (usedDependencies analysis))
     ∧ dependency ∈ default [] (unusedDependencies analysis))
  ∧ (dependency ∈ default [] (usedDependencies analysis) →
     shouldRemoveDependency dependency analysis = false
     ∧ ∀ external, generateExternalDependencies analysis = Return external →
                   dependency ∉ external)
  ∧ (∀ external, generateExternalDependencies analysis = Return external →
                 dependency ∈ external →
                 shouldRemoveDependency dependency analysis = true).
Proof.
  assert (Hiff : shouldRemoveDependency dependency analysis = true
          ↔ (dependency ∉ default [] (usedDependencies analysis))
            ∧ dependency ∈ default [] (unusedDependencies analysis)).
  { unfold shouldRemoveDependency, includes. cbn zeta.
    case_bool_decide as Hused; [split; [done|by intros [? _]]|].
    destruct (unusedDependencies analysis) as [unused|]; cbn.
    - case_bool_decide; split; try done; [by intros [_ ?]].
    - split; [done|]. intros [_ Hin]. by apply elem_of_nil in Hin. }
  assert (Hexternal : ∀ external,
    generateExternalDependencies analysis = Return external →
    ∀ dep, dep ∈ external →
           (dep ∉ default [] (usedDependencies analysis))
           ∧ dep ∈ default [] (unusedDependencies analysis)).
  { intros external Hrun dep Hdep. unfold generateExternalDependencies in Hrun.
    cbn zeta in Hrun. rewrite external_list in Hrun.
    destruct (validateExternalDependencies _ _); [|done].
    injection Hrun as <-. by apply list_elem_of_filter in Hdep as [[Hnot _] Hin]. }
  split_and!; [exact Hiff|..].
  - intros Hused. split.
    + apply not_true_is_false. rewrite Hiff. by intros [? _].
    + intros external Hrun Hin. by destruct (Hexternal external Hrun dependency Hin).
  - intros external Hrun Hin. apply Hiff. by apply (Hexternal external Hrun).
Qed.

End ExternalFacts.

Lemma used_dependencies_are_kept_witness :
  TreeDrivenOptimizer.generateExternalDependencies TreeDrivenOptimizer.sampleAnalysis
  = Return ["terser"; "@types/lodash"]
  ∧ TreeDrivenOptimizer.shouldRemoveDependency "esbuild" TreeDrivenOptimizer.sampleAnalysis
    = false
  ∧ TreeDrivenOptimizer.shouldRemoveDependency "terser" TreeDrivenOptimizer.sampleAnalysis
    = true.
Proof.
  split; [vm_compute; reflexivity|].
  destruct (used_dependencies_are_kept TreeDrivenOptimizer.sampleAnalysis "esbuild")
    as (_ & Hused & _).
  destruct (used_dependencies_are_kept TreeDrivenOptimizer.sampleAnalysis "terser")
    as (_ & _ & Hext).
  split.
  - apply Hused. vm_compute. apply elem_of_cons. right. apply elem_of_cons. by left.
  - apply (Hext ["terser"; "@types/lodash"]); [vm_compute; reflexivity|].
    apply elem_of_cons. by left.
Defined.

Section ReconstructionFacts.
Import NuclearOptimizer.

Variable parse : string → option Program.
Variable globComponents : string → FileTree → list string.
Variable execAsync : string → string → FileTree → option string.
Variable parseErrorMessages : string → list string.
Variable measureBundleSize : string → FileTree → nat.
Variable matchedNames : string → list string.

Lemma mapHas_keys {V} (m : JsMap V) k : mapHas m k = true ↔ k ∈ mapKeys m.
Proof.
  unfold mapHas, mapKeys. rewrite bool_decide_eq_true.
  induction m as [|[k' v] m IH]; cbn.
  - rewrite elem_of_nil. split; [by intros [? ?]|done].
  - rewrite elem_of_cons. case_decide as Hk.
    + subst k'. split; [by left|by eexists].
    + rewrite IH. split; [by right|]. intros [?|?]; [congruence|done].
Qed.

Lemma addIfDeleted_inv (o : Optimizer) name missing :
  NoDup missing →
  Forall (λ c, c ∈ mapKeys (deletedComponents o)) missing →
  NoDup (addIfDeleted o name missing)
  ∧ Forall (λ c, c ∈ mapKeys (deletedComponents o)) (addIfDeleted o name missing).
Proof.
  intros Hnd Hall. unfold addIfDeleted.
  destruct (mapHas (deletedComponents o) name) eqn:Hhas; [|done].
  apply mapHas_keys in Hhas. split; [by apply NoDup_setAdd|].
  unfold setAdd. case_bool_decide; [done|].
  apply Forall_app. split; [done|]. by apply Forall_singleton.
Qed.

(** What [extractMissingComponents] returns is a set of deleted components. *)
Lemma extractMissingComponents_deleted errors (o : Optimizer) :
  NoDup (extractMissingComponents matchedNames errors o)
  ∧ Forall (λ c, c ∈ mapKeys (deletedComponents o))
      (extractMissingComponents matchedNames errors o).
Proof.
  unfold extractMissingComponents.
  assert (Hinner : ∀ names missing,
    NoDup missing →
    Forall (λ c, c ∈ mapKeys (deletedComponents o)) missing →
    NoDup (foldl (λ missing componentName,
                    addIfDeleted o (camelName componentName)
                      (addIfDeleted o (kebabName componentName)
                         (addIfDeleted o componentName missing))) missing names)
    ∧ Forall (λ c, c ∈ mapKeys (deletedComponents o))
        (foldl (λ missing componentName,
                  addIfDeleted o (camelName componentName)
                    (addIfDeleted o (kebabName componentName)
                       (addIfDeleted o componentName missing))) missing names)).
  { induction names as [|n names IH]; intros missing Hnd Hall; [done|].
    cbn [foldl]. apply IH.
    - by repeat apply addIfDeleted_inv.
    - by repeat apply addIfDeleted_inv. }
  assert (Houter : ∀ missing,
    NoDup missing →
    Forall (λ c, c ∈ mapKeys (deletedComponents o)) missing →
    NoDup (foldl (λ missing error,
                    foldl (λ missing componentName,
                             addIfDeleted o (camelName componentName)
                               (addIfDeleted o (kebabName componentName)
                                  (addIfDeleted o componentName missing)))
                      missing (matchedNames error)) missing errors)
    ∧ Forall (λ c, c ∈ mapKeys (deletedComponents o))
        (foldl (λ missing error,
                  foldl (λ missing componentName,
                           addIfDeleted o (camelName componentName)
                             (addIfDeleted o (kebabName componentName)
                                (addIfDeleted o componentName missing)))
                    missing (matchedNames error)) missing errors)).
  { induction errors as [|e errors IH]; intros missing Hnd Hall; [done|].
    cbn [foldl]. destruct (Hinner (matchedNames e) missing Hnd Hall). by apply IH. }
  apply Houter; [apply NoDup_nil_2|done].
Qed.

Lemma restoreOriginalComponent_elsewhere projectPath c (o : Optimizer) (fs : FileTree) x :
  (∀ f, mapGet (componentPaths o) c = Some f → stagingPath projectPath f ≠ x) →
  restoreOriginalComponent projectPath c o fs !! x = fs !! x.
Proof.
  intros Hx. unfold restoreOriginalComponent.
  destruct (mapGet (deletedComponents o) c) as [content|]; [|done].
  destruct (mapGet (componentPaths o) c) as [f|]; [|done].
  destruct (_ || _); [done|]. rewrite lookup_insert_ne; [done|]. by apply Hx.
Qed.

Lemma restoreRendered_cons projectPath (o : Optimizer) c rendered st :
  restoreRendered projectPath o (c :: rendered) st
  = restoreRendered projectPath o rendered
      (if negb (includes (r_restored st) c) && mapHas (deletedComponents o) c
       then {| r_fs := restoreOriginalComponent projectPath c o (r_fs st);
               r_restored := setAdd c (r_restored st);
               r_recreated := r_recreated st ++ [c];
               r_count := S (r_count st) |}
       else st).
Proof. reflexivity. Qed.

Lemma restoreMissing_cons projectPath (o : Optimizer) rendered c missing st :
  restoreMissing projectPath o rendered (c :: missing) st
  = restoreMissing projectPath o rendered missing
      (if negb (includes (r_restored st) c)
       then {| r_fs := if includes rendered c
                       then restoreOriginalComponent projectPath c o (r_fs st)
                       else r_fs st;
               r_restored := setAdd c (r_restored st);
               r_recreated := r_recreated st ++ [c];
               r_count := S (r_count st) |}
       else st).
Proof. reflexivity. Qed.

Lemma setAdd_fresh c (restored : list string) :
  includes restored c = false → setAdd c restored = restored ++ [c].
Proof.
  unfold includes, setAdd. intros Hc. by rewrite Hc.
Qed.

Lemma restored_ok_add (o : Optimizer) restored recreated c :
  restored_ok o restored recreated →
  includes restored c = false →
  c ∈ mapKeys (deletedComponents o) →
  restored_ok o (setAdd c restored) (recreated ++ [c]).
Proof.
  intros (-> & Hnd & Hall) Hc Hdel. rewrite setAdd_fresh by done.
  split_and!; [done| |].
  - apply NoDup_app. split_and!; [done| |apply NoDup_singleton].
    intros x Hx ->%list_elem_of_singleton.
    unfold includes in Hc. by apply bool_decide_eq_false in Hc.
  - apply Forall_app. split; [done|]. by apply Forall_singleton.
Qed.

Lemma restoreRendered_ok projectPath (o : Optimizer) rendered st :
  restored_ok o (r_restored st) (r_recreated st) →
  restored_ok o (r_restored (restoreRendered projectPath o rendered st))
    (r_recreated (restoreRendered projectPath o rendered st)).
Proof.
  revert st. induction rendered as [|c rendered IH]; intros st Hok; [done|].
  rewrite restoreRendered_cons. apply IH.
  destruct (includes (r_restored st) c) eqn:Hc; cbn [negb andb]; [done|].
  destruct (mapHas (deletedComponents o) c) eqn:Hhas; [|done].
  cbn. apply restored_ok_add; [done..|]. by apply mapHas_keys.
Qed.

Lemma restoreMissing_ok projectPath (o : Optimizer) rendered missing st :
  Forall (λ c, c ∈ mapKeys (deletedComponents o)) missing →
  restored_ok o (r_restored st) (r_recreated st) →
  restored_ok o (r_restored (restoreMissing projectPath o rendered missing st))
    (r_recreated (restoreMissing projectPath o rendered missing st)).
Proof.
  revert st. induction missing as [|c missing IH]; intros st Hdel Hok; [done|].
  apply Forall_cons in Hdel as [Hc Hdel].
  rewrite restoreMissing_cons. apply IH; [done|].
  destruct (includes (r_restored st) c) eqn:Hin; cbn [negb]; [done|].
  cbn. by apply restored_ok_add.
Qed.



Lemma recoveryLoop_S fuel projectPath config (o : Optimizer) rendered s :
  recoveryLoop execAsync parseErrorMessages matchedNames (S fuel) projectPath config o
    rendered s
  = if negb (test_success (rec_test s))
       && bool_decide (rec_iteration s < nuclear_maxIterations config)
    then
      let iteration := S (rec_iteration s) in
      let missingComponents :=
        extractMissingComponents matchedNames (test_errors (rec_test s)) o in
      let start :=
        {| r_fs := rec_fs s; r_restored := rec_restored s;
           r_recreated := rec_recreated s; r_count := 0 |} in
      let st :=
        if bool_decide (length missingComponents = 0)
        then restoreRendered projectPath o rendered start
        else restoreMissing projectPath o rendered missingComponents start in
      let stuckIterations :=
        if bool_decide (r_count st = 0) then S (rec_stuck s) else 0 in
      if bool_decide (r_count st = 0) && bool_decide (3 ≤ stuckIterations)
      then
        {| rec_fs := r_fs st; rec_restored := r_restored st;
           rec_recreated := r_recreated st; rec_iteration := iteration;
           rec_stuck := stuckIterations;
           rec_lastErrorCount := rec_lastErrorCount s; rec_test := rec_test s |}
      else
        let testResult :=
          runTests execAsync parseErrorMessages projectPath (testCommand config) (r_fs st) in
        let noProgress :=
          bool_decide (length (test_errors testResult) = rec_lastErrorCount s)
          && bool_decide (r_count st = 0) in
        recoveryLoop execAsync parseErrorMessages matchedNames fuel projectPath config o
          rendered
          {| rec_fs := r_fs st; rec_restored := r_restored st;
             rec_recreated := r_recreated st; rec_iteration := iteration;
             rec_stuck := if noProgress then S stuckIterations else stuckIterations;
             rec_lastErrorCount :=
               if noProgress then rec_lastErrorCount s
               else length (test_errors testResult);
             rec_test := testResult |}
    else s.
Proof. reflexivity. Qed.


#[local] Arguments recoveryLoop : simpl never.
#[local] Arguments restoreRendered : simpl never.
#[local] Arguments restoreMissing : simpl never.

(** One pass of the loop, whichever branch it takes. *)
Lemma pass_ok projectPath (o : Optimizer) rendered missing restored recreated :
  Forall (λ c, c ∈ mapKeys (deletedComponents o)) missing →
  restored_ok o restored recreated →
  ∀ (fs : FileTree),
    let start := {| r_fs := fs; r_restored := restored; r_recreated := recreated;
                    r_count := 0 |} in
    let st := if bool_decide (length missing = 0)
              then restoreRendered projectPath o rendered start
              else restoreMissing projectPath o rendered missing start in
    restored_ok o (r_restored st) (r_recreated st).
Proof.
  intros Hdel Hok fs. cbn zeta. case_bool_decide.
  - by apply restoreRendered_ok.
  - by apply restoreMissing_ok.
Qed.


Lemma recoveryLoop_ok fuel projectPath config (o : Optimizer) rendered s :
  restored_ok o (rec_restored s) (rec_recreated s) →
  rec_iteration s ≤ nuclear_maxIterations config →
  let s' := recoveryLoop execAsync parseErrorMessages matchedNames fuel projectPath config
              o rendered s in
  restored_ok o (rec_restored s') (rec_recreated s')
  ∧ rec_iteration s' ≤ nuclear_maxIterations config.
Proof.
  cbn zeta. revert s. induction fuel as [|fuel IH]; intros s Hok Hle; [done|].
  rewrite recoveryLoop_S.
  destruct (negb (test_success (rec_test s))); cbn [andb]; [|done].
  case_bool_decide as Hlt; [|done]. cbn zeta.
  pose proof (pass_ok projectPath o rendered
                (extractMissingComponents matchedNames (test_errors (rec_test s)) o)
                (rec_restored s) (rec_recreated s)
                (proj2 (extractMissingComponents_deleted _ o)) Hok (rec_fs s)) as Hpass.
  cbn zeta in Hpass.
  destruct (_ && bool_decide (3 ≤ _)).
  - cbn. split; [done|lia].
  - apply IH; cbn; [done|lia].
Qed.







Lemma restoreAfterSuccess_spec projectPath (o : Optimizer) rendered (fs : FileTree) :
  (restoreAfterSuccess projectPath o rendered fs).2
  = filter (λ c, c ∈ mapKeys (deletedComponents o)) rendered
  ∧ (restoreAfterSuccess projectPath o rendered fs).1
    = foldl (λ fs c, restoreOriginalComponent projectPath c o fs) fs
        (filter (λ c, c ∈ mapKeys (deletedComponents o)) rendered).
Proof.
  unfold restoreAfterSuccess.
  assert (Hfold : ∀ l (acc : FileTree * list string),
    foldl (λ acc component,
             if mapHas (deletedComponents o) component
             then (restoreOriginalComponent projectPath component o acc.1,
                   acc.2 ++ [component])
             else acc) acc l
    = (foldl (λ fs c, restoreOriginalComponent projectPath c o fs) acc.1
         (filter (λ c, c ∈ mapKeys (deletedComponents o)) l),
       acc.2 ++ filter (λ c, c ∈ mapKeys (deletedComponents o)) l)).
  { induction l as [|c l IH]; intros [fs0 names].
    - cbn. by rewrite app_nil_r.
    - cbn [foldl]. destruct (mapHas (deletedComponents o) c) eqn:Hhas.
      + apply mapHas_keys in Hhas. rewrite IH, filter_cons_True by done.
        cbn. by rewrite <- app_assoc.
      + rewrite IH, filter_cons_False; [done|].
        intros Hin%mapHas_keys. congruence. }
  case_bool_decide as Hlen.
  - rewrite Hfold. done.
  - destruct rendered; [done|cbn in Hlen; lia].
Qed.



(** What a run reports is consistent: every recreated name is the name of a
    deleted component and is listed once, the loop never makes more passes
    than [maxIterations], and the two verdicts agree. *)
Theorem recreated_files_were_deleted projectPath config zuluData rendered
    (o : Optimizer) (fs : FileTree) res (o' : Optimizer) rendered' (fs' : FileTree) :
  NoDup rendered →
  executeNuclearOptimization parse globComponents execAsync parseErrorMessages
    measureBundleSize matchedNames projectPath config zuluData rendered o fs
  = (Return res, o', rendered', fs') →
  NoDup (recreatedFiles res)
  ∧ recreatedFiles res ⊆ deletedFiles res
  ∧ deletedFiles res = mapKeys (deletedComponents o')
  ∧ iterations res ≤ nuclear_maxIterations config
  ∧ result_success res = testsPassed res.
Proof.
  intros Hnd Hrun. unfold executeNuclearOptimization in Hrun.
  destruct (nuclearDeleteAndStub parse globComponents projectPath config o fs)
    as [[out o1] fs1] eqn:Hzero.
  destruct out as [deleted|msg]; [|done].
  assert (Hdeleted : deleted = mapKeys (deletedComponents o1)).
  { unfold nuclearDeleteAndStub in Hzero.
    destruct (scanAndDeleteAllComponents _ _ _ _ _) as [[[[]|] ?] ?]; [|done].
    by injection Hzero as <- <- _. }
  cbn zeta in Hrun.
  assert (Hrendered : NoDup (loadedRendered zuluData rendered)).
  { unfold loadedRendered, loadZuluRenderTree.
    destruct zuluData as [[[l|]]|]; try done.
    by apply setAdd_fold_spec. }
  destruct (test_success _) eqn:Hsuccess.
  - injection Hrun as <- <- <- <-. cbn.
    destruct (restoreAfterSuccess_spec projectPath o1 (loadedRendered zuluData rendered) fs1)
      as [-> _].
    split_and!; [|..|done|lia|done].
    + by apply NoDup_filter.
    + intros c Hc. apply list_elem_of_filter in Hc as [Hc _]. by rewrite Hdeleted.
  - match type of Hrun with context [recoveryLoop _ _ _ ?fuel ?p ?cfg ?oo ?rr ?s] =>
      destruct (recoveryLoop_ok fuel p cfg oo rr s) as [(Heq & Hnodup & Hall) Hle]
    end.
    { cbn. split_and!; [done|apply NoDup_nil_2|done]. }
    { cbn. lia. }
    injection Hrun as <- <- <- <-. cbn.
    split_and!; [|..|done|done|done].
    + by rewrite Heq.
    + rewrite Heq, Hdeleted. intros c Hc. rewrite Forall_forall in Hall. by apply Hall.
Qed.

Lemma createZeroState_at projectPath (o : Optimizer) (fs : FileTree) c f :
  c ∈ mapKeys (deletedComponents o) →
  mapGet (componentPaths o) c = Some f →
  (∀ c' g, c' ≠ c → mapGet (componentPaths o) c' = Some g →
           stagingPath projectPath g ≠ stagingPath projectPath f) →
  createZeroState projectPath o fs !! stagingPath projectPath f
  = Some (stub_text (stubFor o c)).
Proof.
  intros Hin Hpath Hothers. unfold createZeroState.
  revert Hin. generalize (mapKeys (deletedComponents o)). intros names Hin.
  assert (Hfold : ∀ names (t : FileTree),
    foldl (λ fs componentName, createEmptyExport projectPath componentName o fs) t names
    !! stagingPath projectPath f
    = if bool_decide (c ∈ names) then Some (stub_text (stubFor o c))
      else t !! stagingPath projectPath f).
  { clear names Hin. induction names as [|c' names IH]; intros t; [done|].
    cbn [foldl]. rewrite IH. unfold createEmptyExport.
    destruct (decide (c' = c)) as [->|Hne].
    - rewrite Hpath, lookup_insert_eq.
      rewrite (bool_decide_eq_true_2 (c ∈ c :: names)) by (apply elem_of_cons; by left).
      by case_bool_decide.
    - assert (Hiff : c ∈ c' :: names ↔ c ∈ names).
      { rewrite elem_of_cons. split; [intros [?|?]; [congruence|done]|by right]. }
      rewrite (bool_decide_ext _ _ Hiff). case_bool_decide; [done|].
      destruct (mapGet (componentPaths o) c') as [g|] eqn:Hg; [|done].
      rewrite lookup_insert_ne; [done|]. by eapply Hothers. }
  rewrite Hfold. by rewrite bool_decide_eq_true_2.
Qed.

Lemma restore_fold_at projectPath (o : Optimizer) c f content l (t : FileTree) :
  mapGet (componentPaths o) c = Some f →
  mapGet (deletedComponents o) c = Some content →
  f ≠ "" →
  (∀ c' g, c' ∈ l → c' ≠ c → mapGet (componentPaths o) c' = Some g →
           stagingPath projectPath g ≠ stagingPath projectPath f) →
  foldl (λ fs c, restoreOriginalComponent projectPath c o fs) t l
  !! stagingPath projectPath f
  = if bool_decide (c ∈ l) && negb (bool_decide (content = "")) then Some content
    else t !! stagingPath projectPath f.
Proof.
  intros Hpath Hcontent Hf. revert t.
  induction l as [|c' l IH]; intros t Hothers; [done|].
  cbn [foldl]. rewrite IH.
  2:{ intros c'' g Hc''. apply Hothers. by right. }
  destruct (decide (c' = c)) as [->|Hne].
  - rewrite (bool_decide_eq_true_2 (c ∈ c :: l)) by (by left).
    unfold restoreOriginalComponent at 1. rewrite Hpath, Hcontent.
    rewrite (bool_decide_eq_false_2 (f = "")) by done. rewrite orb_false_r.
    destruct (bool_decide (c ∈ l)), (bool_decide (content = ""));
      cbn [negb andb]; by rewrite ?lookup_insert_eq.
  - assert (Hiff : c ∈ c' :: l ↔ c ∈ l).
    { rewrite elem_of_cons. split; [intros [?|?]; [congruence|done]|by right]. }
    rewrite (bool_decide_ext _ _ Hiff). destruct (_ && _); [done|].
    apply restoreOriginalComponent_elsewhere. intros g Hg.
    apply (Hothers c' g); [by left|done|done].
Qed.

Lemma stagingPath_empty projectPath : stagingPath projectPath "" ≠ "".
Proof.
  unfold stagingPath, pathJoin. cbn.
  destruct projectPath as [|a p]; [rewrite append_nil_l|]; by rewrite append_cons.
Qed.

(** When the zero state builds, the run ends there: with one file per
    component name, each deleted file of a rendered component holds its
    original content again, every other deleted file holds its stub, and
    success is reported from the zero-state build alone, without building the
    tree that results.  A rendered component whose file was empty stays a
    stub. *)
Theorem zero_state_success_restores_rendered projectPath config zuluData (fs : FileTree)
    deleted (o1 : Optimizer) (fs1 : FileTree) :
  NoDup (componentNameOf <$> globComponents projectPath fs) →
  (∀ g, g ∈ globComponents projectPath fs → stagingPath projectPath g = g) →
  nuclearDeleteAndStub parse globComponents projectPath config newOptimizer fs
  = (Return deleted, o1, fs1) →
  test_success (runTests execAsync parseErrorMessages projectPath (testCommand config) fs1)
  = true →
  ∃ res fs',
    executeNuclearOptimization parse globComponents execAsync parseErrorMessages
      measureBundleSize matchedNames projectPath config zuluData [] newOptimizer fs
    = (Return res, o1, loadedRendered zuluData [], fs')
    ∧ result_success res = true
    ∧ iterations res = 0
    ∧ recreatedFiles res = filter (λ c, c ∈ deleted) (loadedRendered zuluData [])
    ∧ ∀ f content,
        f ∈ globComponents projectPath fs →
        componentNameOf f ∉ ["App"; "main"; "index"] →
        fs !! f = Some content →
        fs' !! f
        = Some (if bool_decide (componentNameOf f ∈ loadedRendered zuluData [])
                   && negb (bool_decide (content = ""))
                then content
                else stub_text (stubFor o1 (componentNameOf f))).
Proof.
  intros Hnames Hstaging Hzero Hsuccess.
  unfold executeNuclearOptimization. rewrite Hzero. cbn zeta. rewrite Hsuccess.
  eexists _, _. split; [reflexivity|]. cbn [result_success iterations recreatedFiles].
  destruct (restoreAfterSuccess_spec projectPath o1 (loadedRendered zuluData []) fs1)
    as [-> ->].
  unfold nuclearDeleteAndStub, scanAndDeleteAllComponents in Hzero.
  destruct (scanEach parse (globComponents projectPath fs) newOptimizer fs)
    as [[out o0] fs0] eqn:Hscan.
  destruct out as [[]|msg]; [|done]. injection Hzero as <- <- <-.
  split_and!; [done..|].
  intros f content Hf Hcrit Hread.
  apply list_elem_of_split in Hf as (pre & post & Hglob).
  assert (Hnd : NoDup (globComponents projectPath fs)).
  { eapply NoDup_fmap_1. exact Hnames. }
  rewrite Hglob in Hnames, Hnd, Hscan.
  assert (Hpre : f ∉ pre).
  { apply NoDup_app in Hnd as (_ & Hdisj & _). intros Hin.
    apply (Hdisj f Hin). by left. }
  assert (Hpost : ∀ g, g ∈ post → componentNameOf g ≠ componentNameOf f).
  { rewrite fmap_app, fmap_cons in Hnames.
    apply NoDup_app in Hnames as (_ & _ & Hnames).
    apply NoDup_cons in Hnames as [Hnot _].
    intros g Hg Heq. apply Hnot. rewrite <- Heq. by apply list_elem_of_fmap_2. }
  destruct (scanEach_records_last parse pre f post newOptimizer o0 fs fs0 Hscan Hpre Hcrit
              Hpost) as (content' & Hread' & Hp & Hd).
  rewrite Hread in Hread'. injection Hread' as <-.
  assert (Hsame : stagingPath projectPath f = f).
  { apply Hstaging. rewrite Hglob. apply elem_of_app. right. by left. }
  assert (Hothers : ∀ c' g, c' ≠ componentNameOf f →
            mapGet (componentPaths o0) c' = Some g →
            stagingPath projectPath g ≠ stagingPath projectPath f).
  { intros c' g Hne Hg.
    destruct (scanEach_path_origin parse _ _ _ _ _ c' g Hscan Hg)
      as [[Hold _]|(pre' & post' & Hsplit & Hc & _)]; [done|].
    assert (Hin : g ∈ globComponents projectPath fs).
    { rewrite Hglob, Hsplit. apply elem_of_app. right. by left. }
    rewrite (Hstaging g Hin), Hsame. intros ->. congruence. }
  assert (Hkey : componentNameOf f ∈ mapKeys (deletedComponents o0)).
  { apply mapHas_keys. unfold mapHas. apply bool_decide_eq_true. by rewrite Hd. }
  assert (Hnonempty : f ≠ "").
  { intros ->. by apply (stagingPath_empty projectPath). }
  rewrite <- Hsame at 1.
  rewrite (restore_fold_at projectPath o0 (componentNameOf f) f content); [|done..|].
  2:{ intros c' g _. by apply Hothers. }
  rewrite createZeroState_at with (c := componentNameOf f); [|done..].
  assert (Hiff : componentNameOf f
                   ∈ filter (λ c, c ∈ mapKeys (deletedComponents o0))
                       (loadedRendered zuluData [])
                 ↔ componentNameOf f ∈ loadedRendered zuluData []).
  { rewrite list_elem_of_filter. tauto. }
  rewrite (bool_decide_ext _ _ Hiff). by destruct (_ && _).
Qed.

Lemma scanEach_throws pre g post (o : Optimizer) (fs : FileTree) :
  NoDup pre →
  (∀ f, f ∈ pre → is_Some (fs !! f)) →
  fs !! g = None →
  componentNameOf g ∉ criticalComponents o →
  ∃ o',
    scanEach parse (pre ++ g :: post) o fs
    = (Throw (readFileError g), o',
       foldl (λ fs f, if includes (criticalComponents o) (componentNameOf f) then fs
                      else delete f fs) fs pre)
    ∧ criticalComponents o' = criticalComponents o.
Proof.
  revert o fs. induction pre as [|f pre IH]; intros o fs Hnd Hreadable Hg Hcrit.
  - cbn [app foldl]. rewrite scanEach_cons. unfold includes.
    rewrite bool_decide_eq_false_2 by done. cbn [negb]. rewrite Hg. by exists o.
  - apply NoDup_cons in Hnd as [Hf Hnd].
    cbn [app foldl]. rewrite scanEach_cons.
    destruct (includes (criticalComponents o) (componentNameOf f)); cbn [negb].
    + apply IH; [done| |done..]. intros x Hx. apply Hreadable. by right.
    + destruct (Hreadable f) as [content Hcontent]; [by left|]. rewrite Hcontent.
      match goal with |- context [scanEach parse _ ?o1 _] =>
        destruct (IH o1 (delete f fs)) as (o' & -> & Hsame)
      end; [done| | |done|by exists o'].
      * intros x Hx. rewrite lookup_delete_ne; [apply Hreadable; by right|].
        intros ->. done.
      * destruct (decide (f = g)) as [->|]; [by rewrite lookup_delete_eq|].
        by rewrite lookup_delete_ne.
Qed.

(** Nothing is rolled back when a component file the glob listed is no longer
    there when the scan reads it: the call rejects with the error of the read
    (Node's [ENOENT] message, which quotes the path), the component files that
    came before it in the scan are already gone, and no stub has been written
    for them, since the zero state is only created after the whole scan. *)
Theorem failed_read_leaves_components_deleted projectPath config zuluData rendered
    (fs : FileTree) pre g post :
  globComponents projectPath fs = pre ++ g :: post →
  NoDup pre →
  (∀ f, f ∈ pre → is_Some (fs !! f)) →
  fs !! g = None →
  componentNameOf g ∉ ["App"; "main"; "index"] →
  ∃ o' fs',
    executeNuclearOptimization parse globComponents execAsync parseErrorMessages
      measureBundleSize matchedNames projectPath config zuluData rendered newOptimizer fs
    = (Throw (readFileError g), o',
       loadedRendered zuluData rendered, fs')
    ∧ (∀ f, f ∈ pre → componentNameOf f ∉ ["App"; "main"; "index"] → fs' !! f = None)
    ∧ (∀ x, x ∉ pre → fs' !! x = fs !! x).
Proof.
  intros Hglob Hnd Hreadable Hg Hcrit.
  unfold executeNuclearOptimization, nuclearDeleteAndStub, scanAndDeleteAllComponents.
  rewrite Hglob.
  destruct (scanEach_throws pre g post newOptimizer fs Hnd Hreadable Hg Hcrit)
    as (o' & -> & _).
  cbn zeta. eexists _, _. split; [reflexivity|].
  change (criticalComponents newOptimizer) with ["App"; "main"; "index"].
  clear Hglob Hreadable Hg Hnd. revert fs. 
  induction pre as [|f pre IH]; intros fs.
  { split; [by intros f ?%elem_of_nil|done]. }
  cbn [foldl]. destruct (IH (if includes ["App"; "main"; "index"] (componentNameOf f)
                              then fs else delete f fs)) as [Hgone Hkept].
  assert (Hmono : ∀ l (t : FileTree) x,
    t !! x = None →
    foldl (λ fs f, if includes ["App"; "main"; "index"] (componentNameOf f) then fs
                   else delete f fs) t l !! x = None).
  { induction l as [|y l IHl]; intros t x Hx; [done|].
    cbn [foldl]. apply IHl. destruct (includes _ (componentNameOf y)); [done|].
    destruct (decide (y = x)) as [->|]; [by rewrite lookup_delete_eq|].
    by rewrite lookup_delete_ne. }
  split.
  - intros x [->|Hx]%elem_of_cons Hx'; [|by apply Hgone].
    apply Hmono. unfold includes. rewrite bool_decide_eq_false_2 by done.
    by rewrite lookup_delete_eq.
  - intros x [Hne Hx]%not_elem_of_cons. rewrite Hkept by done.
    destruct (includes _ (componentNameOf f)); [done|]. by rewrite lookup_delete_ne.
Qed.

End ReconstructionFacts.

Section ReconstructionExamples.
Import NuclearOptimizer.



Lemma recreated_files_were_deleted_witness :
  ∃ res o' rendered' fs',
    executeNuclearOptimization parseStaging globStaging execStaging parseErrorsStaging
      (λ _ _, 0) matchedStaging "/app" keepHeader
      (Some {| zulu_renderedComponents := Some ["Chart"] |}) [] newOptimizer stagingTree
    = (Return res, o', rendered', fs')
    ∧ result_success res = true
    ∧ recreatedFiles res = ["Chart"]
    ∧ NoDup (recreatedFiles res)
    ∧ recreatedFiles res ⊆ deletedFiles res
    ∧ iterations res ≤ 50.
Proof.
  destruct (executeNuclearOptimization parseStaging globStaging execStaging
              parseErrorsStaging (λ _ _, 0) matchedStaging "/app" keepHeader
              (Some {| zulu_renderedComponents := Some ["Chart"] |}) [] newOptimizer
              stagingTree) as [[[out o'] rendered'] fs'] eqn:Hrun.
  assert (Hout : out = Return {| result_success := true; originalSize := 0; finalSize := 0;
                                 deletedFiles := ["Header"; "Chart"];
                                 recreatedFiles := ["Chart"];
                                 testsPassed := true; iterations := 1 |}).
  { change out with (out, o', rendered', fs').1.1.1. rewrite <- Hrun.
    vm_compute. reflexivity. }
  subst out.
  destruct (recreated_files_were_deleted parseStaging globStaging execStaging
              parseErrorsStaging (λ _ _, 0) matchedStaging "/app" keepHeader
              (Some {| zulu_renderedComponents := Some ["Chart"] |}) [] newOptimizer
              stagingTree _ o' rendered' fs' (NoDup_nil_2) Hrun)
    as (Hnd & Hsub & _ & Hle & _).
  eexists _, o', rendered', fs'. split; [reflexivity|].
  split; [reflexivity|]. split; [reflexivity|]. split; [exact Hnd|].
  split; [exact Hsub|exact Hle].
Defined.

Lemma zero_state_success_restores_rendered_witness :
  ∃ res o1 fs',
    executeNuclearOptimization parseStaging globStaging (λ _ _ _, None) parseErrorsStaging
      (λ _ _, 0) matchedStaging "/app" keepHeader
      (Some {| zulu_renderedComponents := Some ["Chart"] |}) [] newOptimizer stagingTree
    = (Return res, o1, ["Chart"], fs')
    ∧ result_success res = true
    ∧ fs' !! chartPath = Some chartSource
    ∧ fs' !! headerPath = Some (stub_text (stubFor o1 "Header")).
Proof.
  assert (Hout : (nuclearDeleteAndStub parseStaging globStaging "/app" keepHeader
                    newOptimizer stagingTree).1.1 = Return ["Header"; "Chart"])
    by (vm_compute; reflexivity).
  assert (Hzero :
    nuclearDeleteAndStub parseStaging globStaging "/app" keepHeader newOptimizer stagingTree
    = (Return ["Header"; "Chart"],
       (nuclearDeleteAndStub parseStaging globStaging "/app" keepHeader newOptimizer
          stagingTree).1.2,
       (nuclearDeleteAndStub parseStaging globStaging "/app" keepHeader newOptimizer
          stagingTree).2)).
  { rewrite <- Hout. by destruct (nuclearDeleteAndStub _ _ _ _ _ _) as [[? ?] ?]. }
  assert (Hglob : globStaging "/app" stagingTree = [appPath; headerPath; chartPath])
    by (vm_compute; reflexivity).
  assert (Hnames : NoDup (componentNameOf <$> globStaging "/app" stagingTree)).
  { rewrite Hglob.
    change (NoDup [componentNameOf appPath; componentNameOf headerPath;
                   componentNameOf chartPath]).
    assert (Happ : componentNameOf appPath = "App") by (vm_compute; reflexivity).
    assert (Hheader : componentNameOf headerPath = "Header") by (vm_compute; reflexivity).
    assert (Hchart : componentNameOf chartPath = "Chart") by (vm_compute; reflexivity).
    rewrite Happ, Hheader, Hchart.
    repeat (apply NoDup_cons; split; [|]).
    - intros Hin. repeat (apply elem_of_cons in Hin as [Hin|Hin]; [discriminate|]).
      by apply elem_of_nil in Hin.
    - intros Hin. repeat (apply elem_of_cons in Hin as [Hin|Hin]; [discriminate|]).
      by apply elem_of_nil in Hin.
    - intros Hin. by apply elem_of_nil in Hin.
    - apply NoDup_nil_2. }
  assert (Hstaging : ∀ g, g ∈ globStaging "/app" stagingTree → stagingPath "/app" g = g).
  { intros g Hg. rewrite Hglob in Hg.
    repeat (apply elem_of_cons in Hg as [->|Hg]; [vm_compute; reflexivity|]).
    destruct (proj1 (elem_of_nil _) Hg). }
  destruct (zero_state_success_restores_rendered parseStaging globStaging (λ _ _ _, None)
              parseErrorsStaging (λ _ _, 0) matchedStaging "/app" keepHeader
              (Some {| zulu_renderedComponents := Some ["Chart"] |}) stagingTree
              _ _ _ Hnames Hstaging Hzero eq_refl)
    as (res & fs' & Hrun & Hsuccess & _ & _ & Hcontent).
  exists res. eexists _, fs'. split; [exact Hrun|]. split; [exact Hsuccess|]. split.
  - rewrite (Hcontent chartPath chartSource); [reflexivity|..].
    + rewrite Hglob. apply elem_of_cons. right. apply elem_of_cons. right.
      apply elem_of_cons. by left.
    + vm_compute. intros Hin.
      repeat (apply elem_of_cons in Hin as [Hin|Hin]; [discriminate|]).
      by apply elem_of_nil in Hin.
    + vm_compute. reflexivity.
  - rewrite (Hcontent headerPath headerSource); [reflexivity|..].
    + rewrite Hglob. apply elem_of_cons. right. apply elem_of_cons. by left.
    + vm_compute. intros Hin.
      repeat (apply elem_of_cons in Hin as [Hin|Hin]; [discriminate|]).
      by apply elem_of_nil in Hin.
    + vm_compute. reflexivity.
Defined.

Lemma failed_read_leaves_components_deleted_witness :
  ∃ o' fs',
    executeNuclearOptimization parseStaging
      (λ _ _, [headerPath; "/app/client/src/components/Ghost.tsx"; chartPath])
      execStaging parseErrorsStaging (λ _ _, 0) matchedStaging "/app" keepHeader None []
      newOptimizer stagingTree
    = (Throw "ENOENT: no such file or directory, open '/app/client/src/components/Ghost.tsx'",
       o', [], fs')
    ∧ fs' !! headerPath = None
    ∧ fs' !! chartPath = Some chartSource.
Proof.
  destruct (failed_read_leaves_components_deleted parseStaging
              (λ _ _, [headerPath; "/app/client/src/components/Ghost.tsx"; chartPath])
              execStaging parseErrorsStaging (λ _ _, 0) matchedStaging "/app" keepHeader
              None [] stagingTree [headerPath] "/app/client/src/components/Ghost.tsx"
              [chartPath])
    as (o' & fs' & Hrun & Hgone & Hkept).
  - reflexivity.
  - apply NoDup_singleton.
  - intros f Hf. apply list_elem_of_singleton in Hf. subst f. vm_compute. by eexists.
  - vm_compute. reflexivity.
  - vm_compute. intros Hin.
    repeat (apply elem_of_cons in Hin as [Hin|Hin]; [discriminate|]).
    by apply elem_of_nil in Hin.
  - exists o', fs'. split; [exact Hrun|]. split.
    + apply Hgone; [apply elem_of_cons; by left|].
      vm_compute. intros Hin.
      repeat (apply elem_of_cons in Hin as [Hin|Hin]; [discriminate|]).
      by apply elem_of_nil in Hin.
    + rewrite Hkept; [vm_compute; reflexivity|].
      intros Hin. apply list_elem_of_singleton in Hin. discriminate.
Defined.

End ReconstructionExamples.

Section RoundTrip.

Variable builds : PathSet.Tree → bool.
Variable p : string.

#[local] Abbreviation world := (PathSet.collaborators builds).
#[local] Abbreviation removed c t := (treeAfter (removeEach (Collaborators0 := world) p [c] t)).
#[local] Abbreviation restored c t :=
  (treeAfter (restoreEach (Collaborators0 := world) p [c] [] t)).
#[local] Abbreviation firstIn l t := (firstAccessible (Collaborators0 := world) l t).
#[local] Abbreviation clean c :=
  (Forall (λ a, stringIncludes ".unused" a = false) (activePaths p c)).

Implicit Types (t : PathSet.Tree) (c : string).

Lemma firstAccessible_Some l t a : firstIn l t = Some a → a ∈ l ∧ a ∈ t.
Proof.
  induction l as [|b l IH]; [done|]. cbn. unfold PathSet.access.
  case_bool_decide as Hb.
  - intros [= <-]. split; [by left|done].
  - intros [? ?]%IH. split; [by right|done].
Qed.

Lemma firstAccessible_ext l t t' :
  (∀ a, a ∈ l → a ∈ t ↔ a ∈ t') → firstIn l t = firstIn l t'.
Proof.
  induction l as [|b l IH]; intros Hsame; [done|]. cbn. unfold PathSet.access.
  rewrite (bool_decide_ext (b ∈ t) (b ∈ t')) by (apply Hsame; by left).
  rewrite IH; [done|]. intros a Ha. apply Hsame. by right.
Qed.

Lemma firstAccessible_None l t : (∀ a, a ∈ l → a ∉ t) → firstIn l t = None.
Proof.
  induction l as [|b l IH]; intros Hnone; [done|]. cbn. unfold PathSet.access.
  rewrite bool_decide_eq_false_2 by (apply Hnone; by left).
  apply IH. intros a Ha. apply Hnone. by right.
Qed.

Lemma stringIncludes_suffix pat a : stringIncludes pat (a +:+ pat) = true.
Proof.
  induction a as [|x a IH].
  - rewrite append_nil_l. destruct pat as [|y pat]; [done|].
    cbn [stringIncludes]. rewrite <- (append_nil_r (String y pat)) at 2.
    by rewrite prefix_append_self.
  - rewrite append_cons. cbn [stringIncludes]. by rewrite IH, orb_true_r.
Qed.

Lemma unusedPaths_fmap c :
  unusedPaths p c = (λ q, q +:+ ".unused") <$> activePaths p c.
Proof.
  unfold unusedPaths, activePaths, pathJoin. cbn [fmap list_fmap].
  by rewrite !append_assoc.
Qed.

Lemma elem_of_unusedPaths c u :
  u ∈ unusedPaths p c ↔ ∃ a, a ∈ activePaths p c ∧ u = a +:+ ".unused".
Proof.
  rewrite unusedPaths_fmap, list_elem_of_fmap. split; intros (a & ? & ?); by exists a.
Qed.

Lemma unused_inj a b :
  stringIncludes ".unused" a = false → stringIncludes ".unused" b = false →
  a +:+ ".unused" = b +:+ ".unused" → a = b.
Proof.
  intros Ha Hb Heq.
  rewrite <- (replaceFirst_unused_suffix a Ha), <- (replaceFirst_unused_suffix b Hb).
  by rewrite Heq.
Qed.

Lemma firstAccessible_cons b l t :
  firstIn (b :: l) t = if bool_decide (b ∈ t) then Some b else firstIn l t.
Proof. reflexivity. Qed.

#[local] Arguments firstAccessible : simpl never.
#[local] Arguments activePaths : simpl never.
#[local] Arguments unusedPaths : simpl never.
#[local] Arguments replaceFirst : simpl never.

Lemma removed_spec c t :
  removed c t
  = match firstIn (activePaths p c) t with
    | Some a => {[a +:+ ".unused"]} ∪ t ∖ {[a]}
    | None => t
    end.
Proof.
  cbn. destruct (firstIn _ _) as [a|] eqn:Hfirst; cbn; [|done].
  apply firstAccessible_Some in Hfirst as [_ Ha].
  unfold PathSet.rename. by rewrite bool_decide_eq_true_2.
Qed.

Lemma restored_spec c t :
  restored c t
  = match firstIn (unusedPaths p c) t with
    | Some u => {[replaceFirst ".unused" "" u]} ∪ t ∖ {[u]}
    | None => t
    end.
Proof.
  cbn. destruct (firstIn _ _) as [u|] eqn:Hfirst; cbn; [|done].
  apply firstAccessible_Some in Hfirst as [_ Hu].
  unfold PathSet.rename. by rewrite bool_decide_eq_true_2.
Qed.

Lemma removeEach_cons c comps t :
  treeAfter (removeEach (Collaborators0 := world) p (c :: comps) t)
  = treeAfter (removeEach (Collaborators0 := world) p comps (removed c t)).
Proof.
  cbn. destruct (firstIn _ _) as [a|] eqn:Hfirst; cbn; [|done].
  apply firstAccessible_Some in Hfirst as [_ Ha].
  unfold PathSet.rename. rewrite bool_decide_eq_true_2 by done. cbn. done.
Qed.

Lemma restoreEach_cons c comps errs t :
  let errs' := match firstIn (unusedPaths p c) t with
               | Some _ => errs
               | None => errs ++ ["Component file not found: " +:+ c]
               end in
  treeAfter (restoreEach (Collaborators0 := world) p (c :: comps) errs t)
  = treeAfter (restoreEach (Collaborators0 := world) p comps errs' (restored c t))
  ∧ outcome (restoreEach (Collaborators0 := world) p (c :: comps) errs t)
    = outcome (restoreEach (Collaborators0 := world) p comps errs' (restored c t)).
Proof.
  cbn. destruct (firstIn _ _) as [u|] eqn:Hfirst; cbn; [|done].
  apply firstAccessible_Some in Hfirst as [_ Hu].
  unfold PathSet.rename. rewrite bool_decide_eq_true_2 by done. cbn. done.
Qed.

#[local] Arguments removeEach : simpl never.
#[local] Arguments restoreEach : simpl never.

(** Restoring a component right after it was disabled undoes it. *)
Lemma restored_removed c t :
  (∀ q, q ∈ t → stringIncludes ".unused" q = false) →
  clean c →
  restored c (removed c t) = t
  ∧ firstIn (unusedPaths p c) (removed c t)
    = (λ a, a +:+ ".unused") <$> firstIn (activePaths p c) t.
Proof.
  intros Ht Hc. rewrite restored_spec, removed_spec.
  destruct (firstIn (activePaths p c) t) as [a|] eqn:Hfirst.
  - assert (Hfound : firstIn (unusedPaths p c) ({[a +:+ ".unused"]} ∪ t ∖ {[a]})
                     = Some (a +:+ ".unused")).
    { rewrite unusedPaths_fmap. revert Hc Hfirst.
      generalize (activePaths p c). intros l Hl.
      induction l as [|b l IH]; [done|]. apply Forall_cons in Hl as [Hb Hl].
      rewrite fmap_cons, !firstAccessible_cons. case_bool_decide as Hin.
      - intros [= ->]. rewrite bool_decide_eq_true_2; [done|].
        apply elem_of_union. left. by apply elem_of_singleton.
      - intros Hrest. rewrite bool_decide_eq_false_2; [by apply IH|].
        intros [Heq%elem_of_singleton|[Hold _]%elem_of_difference]%elem_of_union.
        + apply firstAccessible_Some in Hrest as [Hal Hat].
          rewrite Forall_forall in Hl.
          apply unused_inj in Heq; [|done|by apply Hl]. by subst b.
        + apply Ht in Hold. by rewrite stringIncludes_suffix in Hold. }
    rewrite Hfound. split; [|done].
    apply firstAccessible_Some in Hfirst as [Hal Hat].
    rewrite Forall_forall in Hc.
    rewrite replaceFirst_unused_suffix by (by apply Hc).
    assert (a +:+ ".unused" ∉ t).
    { intros Hin%Ht. by rewrite stringIncludes_suffix in Hin. }
    assert (a ≠ a +:+ ".unused").
    { intros Heq. pose proof (Hc a Hal) as Hclean. rewrite Heq in Hclean.
      by rewrite stringIncludes_suffix in Hclean. }
    clear Hfound Hc Ht Hal. generalize dependent (a +:+ ".unused"). intros au Hau Hne.
    apply set_eq. intros x. rewrite elem_of_union, elem_of_difference, !elem_of_singleton,
      elem_of_union, elem_of_difference, !elem_of_singleton.
    destruct (decide (x = a)) as [->|Hxa]; [tauto|].
    split; [intros [?|[[->|[? _]] ?]]; done|]. intros Hx. right. split; [by right|].
    by intros ->.
  - assert (Hnone : firstIn (unusedPaths p c) t = None).
    { apply firstAccessible_None. intros u (a & _ & ->)%elem_of_unusedPaths Hin%Ht.
      by rewrite stringIncludes_suffix in Hin. }
    by rewrite Hnone.
Qed.

(** Disabling one component and restoring another do not interfere when the
    two have no file in common. *)
Lemma restored_removed_other c c' t :
  clean c → clean c' →
  (∀ a, a ∈ activePaths p c → a ∉ activePaths p c') →
  restored c (removed c' t) = removed c' (restored c t)
  ∧ firstIn (unusedPaths p c) (removed c' t) = firstIn (unusedPaths p c) t.
Proof.
  intros Hc Hc' Hdisjoint. rewrite Forall_forall in Hc, Hc'.
  assert (Hlook : firstIn (unusedPaths p c) (removed c' t) = firstIn (unusedPaths p c) t).
  { apply firstAccessible_ext. intros u (a & Ha & ->)%elem_of_unusedPaths.
    rewrite removed_spec.
    destruct (firstIn (activePaths p c') t) as [a'|] eqn:Hfirst; [|done].
    apply firstAccessible_Some in Hfirst as [Ha' _].
    assert (a +:+ ".unused" ≠ a' +:+ ".unused").
    { intros Heq%unused_inj; [|by apply Hc|by apply Hc']. subst a'.
      by apply (Hdisjoint a). }
    assert (a +:+ ".unused" ≠ a').
    { intros Heq. pose proof (Hc' a' Ha') as Hclean. rewrite <- Heq in Hclean.
      by rewrite stringIncludes_suffix in Hclean. }
    rewrite elem_of_union, elem_of_difference, !elem_of_singleton. tauto. }
  split; [|done].
  rewrite (restored_spec c (removed c' t)), Hlook, (removed_spec c' (restored c t)).
  assert (Hlook' : firstIn (activePaths p c') (restored c t) = firstIn (activePaths p c') t).
  { apply firstAccessible_ext. intros a' Ha'. rewrite restored_spec.
    destruct (firstIn (unusedPaths p c) t) as [u|] eqn:Hfirst; [|done].
    apply firstAccessible_Some in Hfirst as [(a & Ha & ->)%elem_of_unusedPaths _].
    rewrite replaceFirst_unused_suffix by (by apply Hc).
    assert (a' ≠ a) by (intros ->; by apply (Hdisjoint a)).
    assert (a' ≠ a +:+ ".unused").
    { intros Heq. pose proof (Hc' a' Ha') as Hclean. rewrite Heq in Hclean.
      by rewrite stringIncludes_suffix in Hclean. }
    rewrite elem_of_union, elem_of_difference, !elem_of_singleton. tauto. }
  rewrite Hlook', removed_spec, restored_spec.
  destruct (firstIn (unusedPaths p c) t) as [u|] eqn:Hu;
    destruct (firstIn (activePaths p c') t) as [a'|] eqn:Ha'; try done.
  apply firstAccessible_Some in Hu as [(a & Ha & ->)%elem_of_unusedPaths _].
  apply firstAccessible_Some in Ha' as [Ha' _].
  rewrite replaceFirst_unused_suffix by (by apply Hc).
  assert (a' ≠ a) by (intros ->; by apply (Hdisjoint a)).
  assert (a +:+ ".unused" ≠ a' +:+ ".unused").
  { intros Heq%unused_inj; [|by apply Hc|by apply Hc']. by subst a'. }
  assert (a' ≠ a +:+ ".unused").
  { intros Heq. pose proof (Hc' a' Ha') as Hclean. rewrite Heq in Hclean.
    by rewrite stringIncludes_suffix in Hclean. }
  assert (a ≠ a' +:+ ".unused").
  { intros Heq. pose proof (Hc a Ha) as Hclean. rewrite Heq in Hclean.
    by rewrite stringIncludes_suffix in Hclean. }
  clear Hlook Hlook' Hc Hc' Hdisjoint Ha Ha'.
  generalize dependent (a +:+ ".unused"). intros au.
  generalize dependent (a' +:+ ".unused"). intros au' H1 H2 H3.
  apply set_eq. intros x.
  rewrite !elem_of_union, !elem_of_difference, !elem_of_singleton,
    !elem_of_union, !elem_of_difference, !elem_of_singleton.
  destruct (decide (x = a)) as [->|Hxa]; [intuition congruence|].
  destruct (decide (x = au')) as [->|Hxau']; [intuition congruence|].
  intuition congruence.
Qed.

Lemma restored_removeEach c comps t :
  clean c → Forall (λ c', clean c') comps →
  Forall (λ c', ∀ a, a ∈ activePaths p c → a ∉ activePaths p c') comps →
  restored c (treeAfter (removeEach (Collaborators0 := world) p comps t))
  = treeAfter (removeEach (Collaborators0 := world) p comps (restored c t))
  ∧ firstIn (unusedPaths p c) (treeAfter (removeEach (Collaborators0 := world) p comps t))
    = firstIn (unusedPaths p c) t.
Proof.
  intros Hc. revert t. induction comps as [|c' comps IH]; intros t Hclean Hdisjoint.
  { done. }
  apply Forall_cons in Hclean as [Hc' Hclean].
  apply Forall_cons in Hdisjoint as [Hd Hdisjoint].
  rewrite (removeEach_cons c' comps t), (removeEach_cons c' comps (restored c t)).
  destruct (IH (removed c' t) Hclean Hdisjoint) as [-> ->].
  destruct (restored_removed_other c c' t Hc Hc' Hd) as [-> ->]. done.
Qed.

(** Components that were disabled come back: on a tree that holds no
    [.unused] file, [removeComponents] followed by [restoreComponents] on the
    same components leaves the set of files as it was.  The restoration
    reports one error for each component that had no file to begin with, and
    succeeds when there is none.  The components must occupy different files,
    and no path may already contain [.unused]. *)
Theorem remove_then_restore_round_trip comps t :
  (∀ q, q ∈ t → stringIncludes ".unused" q = false) →
  Forall (λ c, clean c) comps →
  NoDup comps →
  (∀ c c' a, c ∈ comps → c' ∈ comps → c ≠ c' →
             a ∈ activePaths p c → a ∉ activePaths p c') →
  let disabled := removeComponents (Collaborators0 := world) p comps t in
  let enabled := restoreComponents (Collaborators0 := world) p comps (treeAfter disabled) in
  let missing := filter (λ c, firstIn (activePaths p c) t = None) comps in
  outcome disabled = Return tt
  ∧ treeAfter enabled = t
  ∧ outcome enabled
    = Return (bool_decide (missing = []),
              (λ c, "Component file not found: " +:+ c) <$> missing).
Proof.
  intros Ht Hclean Hnd Hdisjoint. cbn zeta.
  assert (Hremove : outcome (removeComponents (Collaborators0 := world) p comps t) = Return tt
                    ∧ treeAfter (removeComponents (Collaborators0 := world) p comps t)
                      = treeAfter (removeEach (Collaborators0 := world) p comps t)).
  { destruct (removeEach_run (Collaborators0 := world) p comps t) as (_ & _ & Hout).
    unfold removeComponents, removeImportStatements.
    rewrite !outcome_bind, !treeAfter_bind. cbn. rewrite Hout. cbn. done. }
  destruct Hremove as [Hout ->]. split; [done|].
  assert (Hmain : ∀ errs,
    treeAfter (restoreEach (Collaborators0 := world) p comps errs
                 (treeAfter (removeEach (Collaborators0 := world) p comps t))) = t
    ∧ outcome (restoreEach (Collaborators0 := world) p comps errs
                 (treeAfter (removeEach (Collaborators0 := world) p comps t)))
      = Return (errs ++ ((λ c, "Component file not found: " +:+ c)
                           <$> filter (λ c, firstIn (activePaths p c) t = None) comps))).
  { clear Hout. induction comps as [|c comps IH]; intros errs.
    { cbn. by rewrite app_nil_r. }
    apply Forall_cons in Hclean as [Hc Hclean].
    apply NoDup_cons in Hnd as [Hfresh Hnd].
    assert (Hothers : Forall (λ c', ∀ a, a ∈ activePaths p c → a ∉ activePaths p c') comps).
    { apply Forall_forall. intros c' Hc' a Ha.
      apply (Hdisjoint c c' a); [by left|by right| |done]. by intros ->. }
    destruct (restoreEach_cons c comps errs
                (treeAfter (removeEach (Collaborators0 := world) p (c :: comps) t)))
      as [-> ->].
    rewrite (removeEach_cons c comps t).
    destruct (restored_removeEach c comps (removed c t) Hc Hclean Hothers) as [-> ->].
    destruct (restored_removed c t Ht Hc) as [-> ->].
    destruct (IH Hclean Hnd) with
      (errs := match (λ a, a +:+ ".unused") <$> firstIn (activePaths p c) t with
               | Some _ => errs
               | None => errs ++ ["Component file not found: " +:+ c]
               end) as [-> ->].
    { intros c1 c2 a H1 H2. apply Hdisjoint; by right. }
    split; [done|]. f_equal.
    destruct (firstIn (activePaths p c) t) as [a|] eqn:Hfirst; cbn [fmap option_fmap option_map].
    - rewrite filter_cons_False; [done|]. by rewrite Hfirst.
    - rewrite filter_cons_True by done. cbn. by rewrite <- app_assoc. }
  destruct (Hmain []) as [Htree Herrs].
  destruct (restoreEach_run (Collaborators0 := world) p comps []
              (treeAfter (removeEach (Collaborators0 := world) p comps t)))
    as (Hev & Hpu & _).
  unfold restoreComponents, restoreImportStatements.
  rewrite !outcome_bind, !treeAfter_bind. cbn. rewrite Herrs. cbn.
  split; [done|]. do 2 f_equal.
  apply bool_decide_ext. rewrite length_zero_iff_nil. split.
  - by intros ?%fmap_nil_inv.
  - by intros ->.
Qed.

End RoundTrip.
Lemma remove_then_restore_round_trip_witness :
  let disabled :=
    removeComponents (Collaborators0 := PathSet.world) "/app" ["A"; "B"; "Z"]
      PathSet.intact in
  let enabled :=
    restoreComponents (Collaborators0 := PathSet.world) "/app" ["A"; "B"; "Z"]
      (treeAfter disabled) in
  treeAfter enabled = PathSet.intact
  ∧ outcome enabled = Return (false, ["Component file not found: Z"]).
Proof.
  assert (Htree : ∀ q, q ∈ PathSet.intact → stringIncludes ".unused" q = false).
  { intros q Hq. unfold PathSet.intact in Hq. apply elem_of_list_to_set in Hq.
    cbn [fmap list_fmap] in Hq.
    repeat (apply elem_of_cons in Hq as [->|Hq]; [vm_compute; reflexivity|]).
    destruct (proj1 (elem_of_nil _) Hq). }
  assert (Hclean : Forall (λ c, Forall (λ a, stringIncludes ".unused" a = false)
                                  (activePaths "/app" c)) ["A"; "B"; "Z"]).
  { repeat (apply Forall_cons; split; [vm_compute; repeat constructor|]).
    apply Forall_nil_2. }
  assert (Hnd : NoDup ["A"; "B"; "Z"]).
  { repeat (apply NoDup_cons; split;
            [intros Hin; repeat (apply elem_of_cons in Hin as [Hin|Hin]; [discriminate|]);
             destruct (proj1 (elem_of_nil _) Hin)|]).
    apply NoDup_nil_2. }
  assert (Hdisjoint : ∀ c c' a, c ∈ ["A"; "B"; "Z"] → c' ∈ ["A"; "B"; "Z"] → c ≠ c' →
                                a ∈ activePaths "/app" c → a ∉ activePaths "/app" c').
  { intros c c' a Hc Hc' Hne Ha.
    apply (bool_decide_unpack _).
    repeat (apply elem_of_cons in Hc as [->|Hc]);
      try destruct (proj1 (elem_of_nil _) Hc);
      (repeat (apply elem_of_cons in Hc' as [->|Hc']));
      try destruct (proj1 (elem_of_nil _) Hc');
      try (by destruct Hne);
      unfold activePaths in Ha;
      (repeat (apply elem_of_cons in Ha as [->|Ha]));
      try destruct (proj1 (elem_of_nil _) Ha);
      vm_compute; exact I. }
  destruct (remove_then_restore_round_trip (λ _, true) "/app" ["A"; "B"; "Z"]
              PathSet.intact Htree Hclean Hnd Hdisjoint) as (_ & Hback & Hout).
  assert (Hmissing :
    filter (λ c, firstAccessible (Collaborators0 := PathSet.collaborators (λ _, true))
                   (activePaths "/app" c) PathSet.intact = None) ["A"; "B"; "Z"]
    = ["Z"]) by (vm_compute; reflexivity).
  rewrite Hmissing in Hout.
  split; [exact Hback|exact Hout].
Defined.

Section AlphaFacts.

Import SmartBundleOptimizer AlphaPhase.

Context {Tree BundleMetrics : Type} `{!Collaborators Tree BundleMetrics}.

Variable findSourceFiles : Tree → string → Outcome (list string).
Variable importsOf : Tree → string → option (list (list string * string * string)).
Variable jsxTagsOf : Tree → string → option (list string).
Variable findInterComponentDependencies : Tree → string → JsMap (list string).
Variable copyComponents : string → Tree → Tree.
Variable rewriteComponentImports : string → list string → Tree → Tree + string.
Variable editPackageJson : string → list string → Tree → Tree.
Variable validateApplication : string → Tree → AppValidation + string.
Variable captureMetrics : string → string → Tree → (BundleMetrics + string) * Tree.
Variable totalSize : BundleMetrics → string.
Variable metricsDependencyCount : BundleMetrics → nat.
Variable metricsComponentCount : BundleMetrics → nat.
Variable writeAlphaData : string → Tree → Tree + string.
Variable elapsed : nat.

Lemma identifyEliminationCandidates_cases fsf io jt fid p :
  match ComponentUsageAnalyzer.identifyEliminationCandidates fsf io jt fid p with
  | Return data =>
      ComponentUsageAnalyzer.safeCandidates data = []
      ∧ ∃ analysis,
          ComponentUsageAnalyzer.analyzeProject fsf io jt p = Return analysis
          ∧ ComponentUsageAnalyzer.eliminationCandidates analysis = []
  | Throw msg =>
      ComponentUsageAnalyzer.analyzeProject fsf io jt p = Throw msg
      ∨ ∃ analysis,
          ComponentUsageAnalyzer.analyzeProject fsf io jt p = Return analysis
          ∧ ComponentUsageAnalyzer.eliminationCandidates analysis ≠ []
          ∧ msg = "importedComponents.get is not a function"
  end.
Proof.
  unfold ComponentUsageAnalyzer.identifyEliminationCandidates.
  destruct (ComponentUsageAnalyzer.analyzeProject fsf io jt p) as [analysis|msg];
    [|by left].
  unfold ComponentUsageAnalyzer.classifyCandidatesSafety.
  rewrite classifyEach_object.
  destruct (ComponentUsageAnalyzer.eliminationCandidates analysis) as [|c rest] eqn:Hc.
  - split; [done|]. by exists analysis.
  - right. exists analysis. by rewrite Hc.
Qed.

Lemma eliminateUnusedComponents_nil p (t : Tree) :
  outcome (ComponentUsageAnalyzer.eliminateUnusedComponents copyComponents rewriteComponentImports p [] t)
  = Return {| ComponentUsageAnalyzer.removedComponents := [];
              ComponentUsageAnalyzer.removedPackages := [];
              ComponentUsageAnalyzer.result_restoredComponents := [];
              ComponentUsageAnalyzer.elimination_errors := [] |}
  ∧ treeAfter (ComponentUsageAnalyzer.eliminateUnusedComponents copyComponents rewriteComponentImports
                 p [] t)
    = copyComponents p t.
Proof. done. Qed.

Lemma testAfterElimination_run p config (t : Tree) :
  ∃ tested,
    outcome (testAfterElimination validateApplication p config t) = Return tested
    ∧ treeAfter (testAfterElimination validateApplication p config t) = t.
Proof.
  unfold testAfterElimination. destruct (autoTest config); [|by eexists].
  cbn. destruct (validateApplication p t); by eexists.
Qed.

#[local] Arguments ComponentUsageAnalyzer.eliminateUnusedComponents : simpl never.
#[local] Arguments testAfterElimination : simpl never.
#[local] Arguments ComponentUsageAnalyzer.identifyEliminationCandidates : simpl never.

(** What the body of the [try] comes to, from the tree [t]. *)
Lemma regularAlpha_body p config (t : Tree) (body : Run PhaseResult) :
  body
  = (await t := getTree in
     match ComponentUsageAnalyzer.identifyEliminationCandidates (findSourceFiles t)
             (importsOf t) (jsxTagsOf t) (findInterComponentDependencies t) p with
     | Throw msg => throw msg
     | Return eliminationData =>
         await eliminationResult :=
           ComponentUsageAnalyzer.eliminateUnusedComponents copyComponents rewriteComponentImports
             p (ComponentUsageAnalyzer.safeCandidates eliminationData) in
         run ComponentUsageAnalyzer.removeUnusedPackages editPackageJson p
               (ComponentUsageAnalyzer.removedPackages eliminationResult) in
         await tested := testAfterElimination validateApplication p config in
         await t := getTree in
         let captured := captureMetrics p "alpha" t in
         run putTree captured.2 in
         match captured.1 with
         | inr msg => throw msg
         | inl postBuildMetrics =>
             match writeAlphaData p captured.2 with
             | inr msg => throw msg
             | inl t' =>
                 run putTree t' in
                 ret {| phase := alpha;
                        phase_success := bool_decide (length tested.1 = 0) && negb tested.2;
                        metrics :=
                          {| bundleSize := totalSize postBuildMetrics;
                             dependencyCount := metricsDependencyCount postBuildMetrics;
                             componentCount := metricsComponentCount postBuildMetrics;
                             buildTime := elapsed |};
                        changes :=
                          {| eliminatedComponents :=
                               ComponentUsageAnalyzer.removedComponents eliminationResult;
                             eliminatedDependencies :=
                               ComponentUsageAnalyzer.removedPackages eliminationResult;
                             changes_restoredComponents := [] |};
                        phase_errors := tested.1 |}
             end
         end
     end) t →
  let captured := captureMetrics p "alpha" (copyComponents p t) in
  match outcome body with
  | Return r =>
      phase r = alpha ∧ changes r = noChanges
      ∧ (∃ postBuildMetrics, captured.1 = inl postBuildMetrics)
      ∧ writeAlphaData p captured.2 = inl (treeAfter body)
      ∧ ∃ analysis,
          ComponentUsageAnalyzer.analyzeProject (findSourceFiles t) (importsOf t)
            (jsxTagsOf t) p = Return analysis
          ∧ ComponentUsageAnalyzer.eliminationCandidates analysis = []
  | Throw msg =>
      (treeAfter body = t ∨ treeAfter body = captured.2)
      ∧ ∀ analysis,
          ComponentUsageAnalyzer.analyzeProject (findSourceFiles t) (importsOf t)
            (jsxTagsOf t) p = Return analysis →
          ComponentUsageAnalyzer.eliminationCandidates analysis ≠ [] →
          treeAfter body = t ∧ msg = "importedComponents.get is not a function"
  end.
Proof.
  intros ->. cbn zeta. rewrite outcome_bind, treeAfter_bind. cbn [getTree outcome treeAfter].
  pose proof (identifyEliminationCandidates_cases (findSourceFiles t) (importsOf t)
                (jsxTagsOf t) (findInterComponentDependencies t) p) as Hcases.
  destruct (ComponentUsageAnalyzer.identifyEliminationCandidates _ _ _ _ _)
    as [data|msg].
  - destruct Hcases as (Hsafe & analysis & Hanalysis & Hnone). rewrite Hsafe.
    rewrite outcome_bind, treeAfter_bind.
    destruct (eliminateUnusedComponents_nil p t) as [-> ->].
    cbn [ComponentUsageAnalyzer.removedPackages ComponentUsageAnalyzer.removedComponents].
    rewrite outcome_bind, treeAfter_bind.
    change (ComponentUsageAnalyzer.removeUnusedPackages editPackageJson p []) with (ret (Tree := Tree) tt).
    cbn [ret outcome treeAfter].
    rewrite outcome_bind, treeAfter_bind.
    destruct (testAfterElimination_run p config (copyComponents p t))
      as (tested & -> & ->).
    rewrite outcome_bind, treeAfter_bind. cbn [getTree outcome treeAfter]. cbn zeta.
    rewrite outcome_bind, treeAfter_bind. cbn [putTree outcome treeAfter].
    destruct (captureMetrics p "alpha" (copyComponents p t)) as [[m|msg] captured].
    + cbn [fst snd]. destruct (writeAlphaData p captured) as [t'|msg] eqn:Hwrite.
      * cbn. split_and!; try done; [by exists m|by exists analysis].
      * cbn. split; [by right|]. intros analysis' Hanalysis' Hsome. congruence.
    + cbn. split; [by right|]. intros analysis' Hanalysis' Hsome. congruence.
  - cbn. split; [by left|]. intros analysis Hanalysis Hsome. split; [done|].
    destruct Hcases as [Hthrow|(analysis' & Hanalysis' & _ & ->)]; [congruence|done].
Qed.

(** The regular ALPHA phase never eliminates anything.  Its result always
    lists no eliminated component and no eliminated dependency, and no
    component file is renamed, no import rewritten and [package.json] not
    edited: the tree the phase leaves is the one it started from, or that tree
    after the backup copy and the metrics capture (which rebuilds [dist] and
    writes [alpha-metrics.json]), with [alpha-elimination.json] written into
    it when the phase gets that far.  As soon as the analysis finds a
    candidate the phase fails with the message of the [get] that is not a
    function, leaving the tree untouched. *)
Theorem regular_alpha_never_eliminates p config zuluResult (t : Tree) :
  let phaseRun :=
    regularAlpha findSourceFiles importsOf jsxTagsOf findInterComponentDependencies
      copyComponents rewriteComponentImports editPackageJson validateApplication
      captureMetrics totalSize metricsDependencyCount metricsComponentCount
      writeAlphaData elapsed p config zuluResult t in
  let captured := (captureMetrics p "alpha" (copyComponents p t)).2 in
  ∃ r,
    outcome phaseRun = Return r
    ∧ phase r = alpha
    ∧ eliminatedComponents (changes r) = []
    ∧ eliminatedDependencies (changes r) = []
    ∧ (treeAfter phaseRun = t
       ∨ treeAfter phaseRun = captured
       ∨ writeAlphaData p captured = inl (treeAfter phaseRun))
    ∧ (∀ analysis,
         ComponentUsageAnalyzer.analyzeProject (findSourceFiles t) (importsOf t)
           (jsxTagsOf t) p = Return analysis →
         ComponentUsageAnalyzer.eliminationCandidates analysis ≠ [] →
         treeAfter phaseRun = t
         ∧ phase_success r = false
         ∧ phase_errors r
           = ["ALPHA phase failed: importedComponents.get is not a function"])
    ∧ (∀ analysis,
         ComponentUsageAnalyzer.analyzeProject (findSourceFiles t) (importsOf t)
           (jsxTagsOf t) p = Return analysis →
         ComponentUsageAnalyzer.eliminationCandidates analysis = [] →
         treeAfter phaseRun ≠ t →
         treeAfter phaseRun = captured
         ∨ writeAlphaData p captured = inl (treeAfter phaseRun)).
Proof.
  cbn zeta. unfold regularAlpha. rewrite outcome_tryCatch, treeAfter_tryCatch.
  match goal with |- context [outcome (?m t)] => set (body := m t) end.
  pose proof (regularAlpha_body p config t body eq_refl) as Hbody. clearbody body.
  cbn zeta in Hbody.
  destruct (outcome body) as [r|msg].
  - destruct Hbody as (Hphase & Hchanges & _ & Hwrite & analysis & Hanalysis & Hnone).
    exists r. rewrite Hchanges. split_and!; try done; [by right; right| |by right].
    intros analysis' Hanalysis' Hsome. congruence.
  - destruct Hbody as [Htree Hfail]. cbn [ret outcome treeAfter].
    eexists. split; [reflexivity|]. cbn [phase changes phase_success phase_errors].
    split_and!; try done; [destruct Htree; [by left|by right; left]| |].
    + intros analysis Hanalysis Hsome.
      destruct (Hfail analysis Hanalysis Hsome) as [Ht ->]. done.
    + intros analysis Hanalysis Hnone Hne. left. by destruct Htree.
Qed.

#[local] Arguments firstAccessible : simpl never.
#[local] Arguments activePaths : simpl never.
#[local] Arguments ComponentUsageAnalyzer.possiblePaths : simpl never.

Lemma possiblePaths_activePaths p c : ComponentUsageAnalyzer.possiblePaths p c = activePaths p c.
Proof. reflexivity. Qed.

Lemma eliminateEach_run p candidates removed errors (t : Tree) :
  ∃ removed' errors',
    outcome (ComponentUsageAnalyzer.eliminateEach p candidates removed errors t)
    = Return (removed ++ removed', errors ++ errors')
    ∧ sublist removed' candidates
    ∧ treeAfter (ComponentUsageAnalyzer.eliminateEach p candidates removed errors t)
      = treeAfter (removeEach p candidates t).
Proof.
  revert removed errors t.
  induction candidates as [|c candidates IH]; intros removed errors t.
  - exists [], []. cbn. by rewrite !app_nil_r.
  - cbn. rewrite possiblePaths_activePaths.
    destruct (firstAccessible (activePaths p c) t) as [componentPath|]; cbn.
    + destruct (fs_rename componentPath (componentPath +:+ ".unused") t) as [t'|msg]; cbn.
      * destruct (IH (removed ++ [c]) errors t') as (removed' & errors' & -> & Hsub & ->).
        exists (c :: removed'), errors'. rewrite <- app_assoc.
        split_and!; [done|by apply sublist_skip|done].
      * destruct (IH removed (errors ++ ["Failed to remove " +:+ c +:+ ": " +:+ msg]) t)
          as (removed' & errors' & -> & Hsub & ->).
        exists removed', (("Failed to remove " +:+ c +:+ ": " +:+ msg) :: errors').
        rewrite <- app_assoc. split_and!; [done|by apply sublist_cons|done].
    + destruct (IH removed errors t) as (removed' & errors' & -> & Hsub & ->).
      exists removed', errors'. split_and!; [done|by apply sublist_cons|done].
Qed.

#[local] Arguments ComponentUsageAnalyzer.eliminateEach : simpl never.
#[local] Arguments removeEach : simpl never.

(** [eliminateUnusedComponents] always resolves.  It disables only
    candidates, by the same renames the recovery engine's [removeComponents]
    would make on the same list after the backup copy, so that engine finds
    what was disabled.  When rewriting the imports fails, the components stay
    disabled but no package is reported for removal. *)
Theorem elimination_disables_what_recovery_removes p candidates (t : Tree) :
  let elimination :=
    ComponentUsageAnalyzer.eliminateUnusedComponents copyComponents rewriteComponentImports p candidates t in
  let disabled := treeAfter (removeEach p candidates (copyComponents p t)) in
  ∃ res,
    outcome elimination = Return res
    ∧ sublist (ComponentUsageAnalyzer.removedComponents res) candidates
    ∧ (ComponentUsageAnalyzer.removedComponents res = [] →
       treeAfter elimination = disabled
       ∧ ComponentUsageAnalyzer.removedPackages res = [])
    ∧ (∀ t', ComponentUsageAnalyzer.removedComponents res ≠ [] →
             rewriteComponentImports p (ComponentUsageAnalyzer.removedComponents res)
               disabled = inl t' →
             treeAfter elimination = t'
             ∧ ComponentUsageAnalyzer.removedPackages res
               = ComponentUsageAnalyzer.identifyUnusedPackages
                   (ComponentUsageAnalyzer.removedComponents res))
    ∧ (∀ msg, ComponentUsageAnalyzer.removedComponents res ≠ [] →
              rewriteComponentImports p (ComponentUsageAnalyzer.removedComponents res)
                disabled = inr msg →
              treeAfter elimination = disabled
              ∧ ComponentUsageAnalyzer.removedPackages res = []
              ∧ last (ComponentUsageAnalyzer.elimination_errors res)
                = Some ("Elimination failed: " +:+ msg)).
Proof.
  cbn zeta.
  destruct (eliminateEach_run p candidates [] [] (copyComponents p t))
    as (removed & errors & Hout & Hsub & Htree).
  cbn [app] in Hout.
  unfold ComponentUsageAnalyzer.eliminateUnusedComponents, ComponentUsageAnalyzer.createBackup, ComponentUsageAnalyzer.removeImportStatements.
  repeat (rewrite ?outcome_bind, ?treeAfter_bind, ?outcome_tryCatch, ?treeAfter_tryCatch;
          cbn [getTree putTree ret throw outcome treeAfter];
          rewrite ?Hout, ?Htree; cbn [fst snd]).
  destruct removed as [|c removed].
  - cbn. eexists. split; [reflexivity|]. cbn. split_and!; done.
  - rewrite (bool_decide_eq_false_2 (length (c :: removed) = 0)) by done.
    repeat (rewrite ?outcome_bind, ?treeAfter_bind;
            cbn [getTree putTree ret throw outcome treeAfter]).
    destruct (rewriteComponentImports p (c :: removed) _) as [t'|msg] eqn:Hrewrite.
    + cbn. eexists. split; [reflexivity|]. cbn. split_and!; try done.
      * intros t'' _ Heq. split; [congruence|done].
      * intros msg _ Heq. congruence.
    + cbn. eexists. split; [reflexivity|]. cbn. split_and!; try done.
      * intros t' _ Heq. congruence.
      * intros msg' _ Heq. split_and!; try done.
        rewrite last_snoc. congruence.
Qed.

End AlphaFacts.

Section AlphaExamples.

Import SmartBundleOptimizer AlphaPhase.

Lemma regular_alpha_never_eliminates_witness :
  let phaseRun :=
    regularAlpha (Collaborators0 := PathSet.world)
      (λ _, ComponentUsageAnalyzer.sampleSourceFiles)
      (λ _, ComponentUsageAnalyzer.sampleImportsOf)
      (λ _, ComponentUsageAnalyzer.sampleJsxTagsOf) (λ _ _, [])
      (λ _ t, t) (λ _ _ t, inl t) (λ _ _ t, t)
      (λ _ _, inl {| app_success := true; jsErrors := [] |})
      (λ _ phase t, (inl tt, {["/app/" +:+ phase +:+ "-metrics.json"]} ∪ t))
      (λ _, "275 KB") (λ _, 0) (λ _, 0) (λ _ t, inl t) 0
      "/app" PathSet.threePhases
      {| phase := zulu; phase_success := true; metrics := PathSet.baselineMetrics;
         changes := noChanges; phase_errors := [] |}
      PathSet.intact in
  ∃ r,
    outcome phaseRun = Return r
    ∧ eliminatedComponents (changes r) = []
    ∧ treeAfter phaseRun = PathSet.intact
    ∧ phase_success r = false
    ∧ phase_errors r = ["ALPHA phase failed: importedComponents.get is not a function"].
Proof.
  cbn zeta.
  destruct (regular_alpha_never_eliminates (Collaborators0 := PathSet.world)
              (λ _, ComponentUsageAnalyzer.sampleSourceFiles)
              (λ _, ComponentUsageAnalyzer.sampleImportsOf)
              (λ _, ComponentUsageAnalyzer.sampleJsxTagsOf) (λ _ _, [])
              (λ _ t, t) (λ _ _ t, inl t) (λ _ _ t, t)
              (λ _ _, inl {| app_success := true; jsErrors := [] |})
              (λ _ phase t, (inl tt, {["/app/" +:+ phase +:+ "-metrics.json"]} ∪ t))
              (λ _, "275 KB") (λ _, 0) (λ _, 0) (λ _ t, inl t) 0
              "/app" PathSet.threePhases
              {| phase := zulu; phase_success := true; metrics := PathSet.baselineMetrics;
                 changes := noChanges; phase_errors := [] |}
              PathSet.intact)
    as (r & Hout & _ & Hnone & _ & _ & Hfail & _).
  exists r. split; [exact Hout|]. split; [exact Hnone|].
  eapply Hfail.
  - vm_compute. reflexivity.
  - discriminate.
Defined.

Lemma elimination_disables_what_recovery_removes_witness :
  let elimination :=
    ComponentUsageAnalyzer.eliminateUnusedComponents (Collaborators0 := PathSet.world)
      (λ _ t, t) (λ _ _ t, inl t) "/app" ["A"; "Z"] PathSet.intact in
  ∃ res,
    outcome elimination = Return res
    ∧ ComponentUsageAnalyzer.removedComponents res = ["A"]
    ∧ ComponentUsageAnalyzer.removedPackages res = ["@radix-ui/react-"]
    ∧ treeAfter elimination
      = treeAfter (removeEach (Collaborators0 := PathSet.world) "/app" ["A"; "Z"]
                     PathSet.intact).
Proof.
  cbn zeta.
  destruct (elimination_disables_what_recovery_removes (Collaborators0 := PathSet.world)
              (λ _ t, t) (λ _ _ t, inl t) "/app" ["A"; "Z"] PathSet.intact)
    as (res & Hout & _ & _ & Hrewritten & _).
  assert (Hcomputed :
    outcome (ComponentUsageAnalyzer.eliminateUnusedComponents
               (Collaborators0 := PathSet.world)
               (λ _ t, t) (λ _ _ t, inl t) "/app" ["A"; "Z"] PathSet.intact)
    = Return {| ComponentUsageAnalyzer.removedComponents := ["A"];
                ComponentUsageAnalyzer.removedPackages := ["@radix-ui/react-"];
                ComponentUsageAnalyzer.result_restoredComponents := [];
                ComponentUsageAnalyzer.elimination_errors := [] |})
    by (vm_compute; reflexivity).
  rewrite Hcomputed in Hout. injection Hout as <-.
  eexists. split; [exact Hcomputed|]. split; [reflexivity|]. split; [reflexivity|].
  destruct (Hrewritten _ ltac:(discriminate) eq_refl) as [Htree _]. exact Htree.
Defined.

End AlphaExamples.


Section ValidatorFacts.

Import AutomatedValidator.

Context {Tree : Type}.
Variable portInUse : nat → Tree → bool.
Variable portString : nat → string.
Variable spawnServer : string → nat → Tree → option string.
Variable reachable : string → N → Tree → bool.
Variable timeoutString : N → string.
Variable kill : ServerHandle → option string.
Variable discoverRoutes : string → Tree → list string.
Variable curl : string → Tree → Outcome string.
Variable statusOf : string → option (option nat).
Variable timeOf : string → nat.
Variable contentOf : string → string.
Variable npmRunBuild : string → Tree → option string.
Variable elapsed : nat.

(** [findAvailablePort] yields the lowest free port among the hundred ports
    from [startPort] on, and rejects only when all hundred are in use; no
    port beyond them is ever tried. *)
Theorem findAvailablePort_least_free startPort (t : Tree) :
  match findAvailablePort portInUse startPort t with
  | Return found =>
      startPort ≤ found < startPort + 100 ∧ portInUse found t = false
      ∧ ∀ q, startPort ≤ q < found → portInUse q t = true
  | Throw msg =>
      msg = "No available ports found"
      ∧ ∀ q, startPort ≤ q < startPort + 100 → portInUse q t = true
  end.
Proof.
  unfold findAvailablePort. generalize 100 as count. intros count. revert startPort.
  induction count as [|count IH]; intros port; cbn.
  - split; [done|]. intros q Hq. lia.
  - destruct (portInUse port t) eqn:Hport.
    + specialize (IH (S port)).
      destruct (scanPorts portInUse count (S port) t) as [found|msg].
      * destruct IH as (Hrange & Hfree & Hbusy). split_and!; [lia..|done|].
        intros q Hq. destruct (decide (q = port)) as [->|]; [done|]. apply Hbusy. lia.
      * destruct IH as [-> Hbusy]. split; [done|].
        intros q Hq. destruct (decide (q = port)) as [->|]; [done|]. apply Hbusy. lia.
    + split_and!; [lia..|done|]. intros q Hq. lia.
Qed.

Lemma validateRoute_returns serverUrl r (t : Tree) :
  ∃ v, validateRoute curl statusOf timeOf contentOf elapsed serverUrl r t = Return v
       ∧ route v = r.
Proof. unfold validateRoute. cbn zeta. destruct (curl _ _); by eexists. Qed.

Lemma stopServer_run h :
  ∃ h', stopServer kill h = (Return tt, h')
        ∧ (h' = None ∨ ∃ running, h' = Some running ∧ h = Some running
                                   ∧ is_Some (kill running)).
Proof.
  unfold stopServer, vbind, vtry, getHandle, setHandle, vthrow, vret.
  destruct h as [running|]; [|by eexists; split; [|left]].
  destruct (kill running) as [msg|] eqn:Hkill.
  - eexists. split; [done|]. right. exists running. by rewrite Hkill.
  - eexists. split; [done|]. by left.
Qed.

Lemma tally_spec serverUrl (t : Tree) routes acc :
  let ok := λ r, match validateRoute curl statusOf timeOf contentOf elapsed serverUrl r t with
                 | Return v => route_success v
                 | Throw _ => false
                 end in
  let tally := foldl (tallyRoute curl statusOf timeOf contentOf elapsed serverUrl t)
                 acc routes in
  validatedRoutes tally = validatedRoutes acc ++ filter (λ r, ok r = true) routes
  ∧ tally_failedRoutes tally = tally_failedRoutes acc ++ filter (λ r, ok r = false) routes
  ∧ tally_errors tally = tally_errors acc.
Proof.
  cbn zeta. revert acc. induction routes as [|r routes IH]; intros acc.
  - cbn. by rewrite !app_nil_r.
  - cbn [foldl]. destruct (IH (tallyRoute curl statusOf timeOf contentOf elapsed
                                 serverUrl t acc r)) as (-> & -> & ->).
    unfold tallyRoute. rewrite !filter_cons.
    destruct (validateRoute_returns serverUrl r t) as (v & Hv & _). rewrite Hv.
    cbn [validatedRoutes tally_failedRoutes tally_errors].
    destruct (route_success v); repeat case_decide; try done;
      by rewrite <- ?app_assoc.
Qed.

Lemma forallb_filter_false {A} (ok : A → bool) (l : list A) :
  bool_decide (length (filter (λ r, ok r = false) l) = 0) = forallb ok l.
Proof.
  induction l as [|r l IH]; [done|].
  cbn [forallb]. rewrite filter_cons. destruct (ok r) eqn:Hok.
  - rewrite decide_False by done. exact IH.
  - rewrite decide_True by done. by rewrite bool_decide_eq_false_2.
Qed.

Lemma unique_NoDup l : NoDup (unique l).
Proof. unfold unique. apply setAdd_fold_spec. apply NoDup_nil_2. Qed.

(** [validateApplication] never rejects, and the verdict is about status
    codes only.  Once the server is up, every discovered route is listed
    exactly once, as validated when its request came back with a 2xx status
    and as failed otherwise; [success] holds exactly when no route failed;
    [errors] is empty and [jsErrors] has no duplicates, but what is in it does
    not enter the verdict.  When the server does not start or does not answer
    in time the result is a failure whose only error says so.  Afterwards the
    server handle is cleared, unless killing the server threw. *)
Theorem validateApplication_report p (t : Tree) h :
  let failure := λ msg,
    {| success := false; loadTime := None; jsErrors := Some [];
       routesValidated := Some []; failedRoutes := Some [];
       errors := ["Validation failed: " +:+ msg]; warnings := [] |} in
  ∃ report h',
    validateApplication portInUse portString spawnServer reachable timeoutString kill
      discoverRoutes curl statusOf timeOf contentOf elapsed p t h
    = (Return report, h')
    ∧ (h' = None ∨ ∃ running, h' = Some running ∧ is_Some (kill running))
    ∧ match startServer portInUse portString spawnServer p t with
      | Throw msg => report = failure msg
      | Return handle =>
          if reachable (url handle) 10000%N t then
            let ok := λ r,
              match validateRoute curl statusOf timeOf contentOf elapsed (url handle) r t
              with
              | Return v => route_success v
              | Throw _ => false
              end in
            let routes := discoverRoutes p t in
            success report = forallb ok routes
            ∧ routesValidated report = Some (filter (λ r, ok r = true) routes)
            ∧ failedRoutes report = Some (filter (λ r, ok r = false) routes)
            ∧ errors report = []
            ∧ ∃ js, jsErrors report = Some js ∧ NoDup js
          else report = failure ("Server not ready after " +:+ timeoutString 10000%N +:+ "ms")
      end.
Proof.
  cbn zeta. unfold validateApplication, vfinally, vtry, vbind, lift, setHandle, vret,
    waitForServerReady.
  destruct (startServer portInUse portString spawnServer p t) as [handle|msg].
  - destruct (reachable (url handle) 10000%N t).
    + destruct (stopServer_run (Some handle)) as (h' & -> & Hh').
      eexists _, h'. split; [reflexivity|]. split.
      { destruct Hh' as [->|(running & -> & _ & Hkill)]; [by left|right; by eexists]. }
      cbn zeta. cbn [success routesValidated failedRoutes errors jsErrors].
      destruct (tally_spec (url handle) t (discoverRoutes p t)
                  {| tally_jsErrors := []; tally_warnings := []; tally_errors := [];
                     validatedRoutes := []; tally_failedRoutes := [] |})
        as (-> & -> & ->).
      cbn [validatedRoutes tally_failedRoutes tally_errors app length].
      split_and!; try done; [|eexists; split; [done|apply unique_NoDup]].
      rewrite (bool_decide_eq_true_2 (0 = 0)) by done. rewrite andb_true_r.
      apply (forallb_filter_false
               (λ r, match validateRoute curl statusOf timeOf contentOf elapsed
                             (url handle) r t with
                     | Return v => route_success v
                     | Throw _ => false
                     end)).
    + destruct (stopServer_run (Some handle)) as (h' & -> & Hh').
      eexists _, h'. split; [reflexivity|]. split; [|done].
      destruct Hh' as [->|(running & -> & _ & Hkill)]; [by left|right; by eexists].
  - destruct (stopServer_run h) as (h' & -> & Hh').
    eexists _, h'. split; [reflexivity|]. split; [|done].
    destruct Hh' as [->|(running & -> & _ & Hkill)]; [by left|right; by eexists].
Qed.

(** [quickValidation] never rejects either.  A failing build ends it before
    any server is started, with the build error as its only error and the
    server handle as it was.  Otherwise the verdict is that of the home
    route; in every case [success] holds exactly when [errors] is empty, and
    there is at most one error. *)
Theorem quickValidation_report p (t : Tree) h :
  ∃ report h',
    quickValidation portInUse portString spawnServer reachable timeoutString kill
      curl statusOf timeOf contentOf npmRunBuild elapsed p t h
    = (Return report, h')
    ∧ (success report = true ↔ errors report = [])
    ∧ length (errors report) ≤ 1
    ∧ (∀ error, npmRunBuild p t = Some error →
         h' = h ∧ errors report = ["Build failed: " +:+ error])
    ∧ (npmRunBuild p t = None →
       h' = None ∨ ∃ running, h' = Some running ∧ is_Some (kill running)).
Proof.
  unfold quickValidation, vtry, vbind, lift, setHandle, vret, waitForServerReady.
  destruct (npmRunBuild p t) as [error|].
  { eexists _, _. split; [reflexivity|]. cbn. split_and!; try done.
    intros error' [= <-]. done. }
  destruct (startServer portInUse portString spawnServer p t) as [handle|msg].
  - destruct (reachable (url handle) 5000%N t).
    + destruct (validateRoute_returns (url handle) "/" t) as (v & -> & _).
      destruct (stopServer_run (Some handle)) as (h' & -> & Hh').
      eexists _, h'. split; [reflexivity|]. cbn [success errors].
      split_and!; try done.
      * by destruct (route_success v).
      * destruct (route_success v); cbn; lia.
      * intros _. destruct Hh' as [->|(running & -> & _ & Hkill)];
          [by left|right; by eexists].
    + destruct (stopServer_run (Some handle)) as (h' & -> & Hh').
      eexists _, h'. split; [reflexivity|]. cbn [success errors length].
      split_and!; try done.
      intros _. destruct Hh' as [->|(running & -> & _ & Hkill)];
        [by left|right; by eexists].
  - destruct (stopServer_run h) as (h' & -> & Hh').
    eexists _, h'. split; [reflexivity|]. cbn [success errors length].
    split_and!; try done.
    intros _. destruct Hh' as [->|(running & -> & _ & Hkill)];
      [by left|right; by eexists].
Qed.

End ValidatorFacts.

Section ValidatorExamples.

Import AutomatedValidator.

Lemma findAvailablePort_least_free_witness :
  findAvailablePort (λ port (_ : unit), bool_decide (port < 3002)) 3000 tt = Return 3002
  ∧ bool_decide (3001 < 3002) = true.
Proof.
  pose proof (findAvailablePort_least_free (λ port (_ : unit), bool_decide (port < 3002))
                3000 tt) as Hspec.
  assert (Hfound : findAvailablePort (λ port (_ : unit), bool_decide (port < 3002)) 3000 tt
                   = Return 3002) by (vm_compute; reflexivity).
  rewrite Hfound in Hspec. destruct Hspec as (_ & _ & Hbusy).
  split; [exact Hfound|]. apply (Hbusy 3001). lia.
Defined.

Lemma validateApplication_report_witness :
  ∃ report,
    validateApplication (Tree := unit) (λ _ _, false) (λ _, "3000") (λ _ _ _, None)
      (λ _ _ _, true) (λ _, "10000") (λ _, None) (λ _ _, ["/"; "/docs"])
      (λ fullUrl _, if bool_decide (fullUrl = "http://localhost:3000/docs")
                    then Throw "timeout" else Return "<html></html>")
      (λ _, Some (Some 200)) (λ _, 12) (λ stdout, stdout) 40 "/app" tt None
    = (Return report, None)
    ∧ success report = false
    ∧ routesValidated report = Some ["/"]
    ∧ failedRoutes report = Some ["/docs"]
    ∧ errors report = [].
Proof.
  destruct (validateApplication_report (Tree := unit) (λ _ _, false) (λ _, "3000")
              (λ _ _ _, None) (λ _ _ _, true) (λ _, "10000") (λ _, None)
              (λ _ _, ["/"; "/docs"])
              (λ fullUrl _, if bool_decide (fullUrl = "http://localhost:3000/docs")
                            then Throw "timeout" else Return "<html></html>")
              (λ _, Some (Some 200)) (λ _, 12) (λ stdout, stdout) 40 "/app" tt None)
    as (report & h' & Hrun & Hhandle & Hshape).
  assert (Hstart : startServer (Tree := unit) (λ _ _, false) (λ _, "3000") (λ _ _ _, None)
                     "/app" tt
                   = Return {| port := 3000; url := "http://localhost:3000" |})
    by (vm_compute; reflexivity).
  rewrite Hstart in Hshape. cbn beta iota zeta in Hshape.
  destruct Hshape as (Hsuccess & Hvalidated & Hfailed & Herrors & _).
  assert (Hnone : h' = None).
  { destruct Hhandle as [->|(running & _ & Hkill)]; [done|]. by destruct Hkill. }
  subst h'. exists report. split; [exact Hrun|].
  split; [rewrite Hsuccess; vm_compute; reflexivity|].
  split; [rewrite Hvalidated; vm_compute; reflexivity|].
  split; [rewrite Hfailed; vm_compute; reflexivity|exact Herrors].
Defined.

Lemma quickValidation_report_witness :
  ∃ report,
    quickValidation (Tree := unit) (λ _ _, false) (λ _, "3000") (λ _ _ _, None)
      (λ _ _ _, true) (λ _, "5000") (λ _, None)
      (λ _ _, Return "<html></html>") (λ _, Some (Some 200)) (λ _, 12) (λ stdout, stdout)
      (λ _ _, Some "tsc exited with code 2") 40 "/app" tt None
    = (Return report, None)
    ∧ errors report = ["Build failed: tsc exited with code 2"].
Proof.
  destruct (quickValidation_report (Tree := unit) (λ _ _, false) (λ _, "3000")
              (λ _ _ _, None) (λ _ _ _, true) (λ _, "5000") (λ _, None)
              (λ _ _, Return "<html></html>") (λ _, Some (Some 200)) (λ _, 12)
              (λ stdout, stdout) (λ _ _, Some "tsc exited with code 2") 40 "/app" tt None)
    as (report & h' & Hrun & _ & _ & Hbuild & _).
  destruct (Hbuild "tsc exited with code 2" eq_refl) as [-> Herrors].
  exists report. split; [exact Hrun|exact Herrors].
Defined.

End ValidatorExamples.

Section BetaFacts.

Import SmartBundleOptimizer BetaPhase.

Context {Tree BundleMetrics : Type}.

Variable lengthString : nat → string.
Variable validateApplication : string → Tree → AlphaPhase.AppValidation + string.
Variable captureMetrics : string → string → Tree → (BundleMetrics + string) * Tree.
Variable totalSize : BundleMetrics → string.
Variable metricsDependencyCount : BundleMetrics → nat.
Variable metricsComponentCount : BundleMetrics → nat.
Variable writeBetaData : string → Tree → Tree + string.
Variable elapsed : nat.

Lemma testRefinements_run p config (t : Tree) :
  outcome (testRefinements validateApplication p config t)
  = Return (if autoTest config then
              match validateApplication p t with
              | inl performance => AlphaPhase.jsErrors performance
              | inr msg => ["Testing failed: " +:+ msg]
              end
            else [])
  ∧ treeAfter (testRefinements validateApplication p config t) = t.
Proof.
  unfold testRefinements. destruct (autoTest config); [|done].
  cbn. by destruct (validateApplication p t).
Qed.

#[local] Arguments testRefinements : simpl never.

(** The BETA phase eliminates nothing: its result never lists an eliminated
    component or dependency, and it renames no file and rewrites no import.
    The tree it leaves is the one the metrics capture leaves (which rebuilds
    [dist] and writes [beta-metrics.json]), with [beta-refinement.json]
    written into it when the phase gets that far.  It always resolves.  Once
    the metrics are captured and the report written, it succeeds exactly when
    the test produced no [jsErrors] entry: the verdict of the validation
    itself is not looked at, and without [autoTest] the phase always
    succeeds.  When the capture or the write rejects, the phase fails with
    the message of the rejection. *)
Theorem beta_changes_nothing p config alphaResult (t : Tree) :
  let phaseRun :=
    regularBeta lengthString validateApplication captureMetrics totalSize
      metricsDependencyCount metricsComponentCount writeBetaData elapsed
      p config alphaResult t in
  let captured := captureMetrics p "beta" t in
  ∃ r,
    outcome phaseRun = Return r
    ∧ phase r = beta
    ∧ changes r = noChanges
    ∧ (treeAfter phaseRun = captured.2
       ∨ writeBetaData p captured.2 = inl (treeAfter phaseRun))
    ∧ (∀ postBuildMetrics t',
         captured.1 = inl postBuildMetrics →
         writeBetaData p captured.2 = inl t' →
         treeAfter phaseRun = t'
         ∧ phase_success r
           = (if autoTest config then
                match validateApplication p t with
                | inl performance =>
                    bool_decide (AlphaPhase.jsErrors performance = [])
                | inr _ => false
                end
              else true))
    ∧ (∀ msg,
         captured.1 = inr msg
         ∨ (∃ postBuildMetrics, captured.1 = inl postBuildMetrics)
           ∧ writeBetaData p captured.2 = inr msg →
         treeAfter phaseRun = captured.2
         ∧ phase_success r = false
         ∧ phase_errors r = ["BETA phase failed: " +:+ msg]).
Proof.
  cbn zeta. unfold regularBeta. rewrite outcome_tryCatch, treeAfter_tryCatch.
  cbn zeta. rewrite !outcome_bind, !treeAfter_bind.
  destruct (testRefinements_run p config t) as [-> ->].
  rewrite !outcome_bind, !treeAfter_bind. cbn [getTree putTree outcome treeAfter].
  destruct (captureMetrics p "beta" t) as [[m|msg] captured]; cbn [fst snd].
  - destruct (writeBetaData p captured) as [t'|msg] eqn:Hwrite.
    + cbn. eexists. split; [reflexivity|]. cbn.
      split_and!; try done; [by right| |].
      * intros m' t'' [= <-] [= <-]. split; [done|].
        destruct (autoTest config); [|done].
        destruct (validateApplication p t) as [v|msg]; [|done].
        apply bool_decide_ext. by rewrite length_zero_iff_nil.
      * intros msg [?|[_ ?]]; done.
    + cbn. eexists. split; [reflexivity|]. cbn.
      split_and!; try done; [by left|].
      intros msg' [?|[_ [= <-]]]; done.
  - cbn. eexists. split; [reflexivity|]. cbn. split_and!; try done; [by left|].
    intros msg' [[= <-]|[[? ?] _]]; done.
Qed.

End BetaFacts.

Section BetaExamples.

Import SmartBundleOptimizer BetaPhase.

Lemma beta_changes_nothing_witness :
  let phaseRun :=
    regularBeta (Tree := PathSet.Tree) (λ _, "0")
      (λ _ _, inl {| AlphaPhase.app_success := false; AlphaPhase.jsErrors := [] |})
      (λ _ phase t, (inl tt, {["/app/" +:+ phase +:+ "-metrics.json"]} ∪ t))
      (λ _, "275 KB") (λ _, 0) (λ _, 0)
      (λ _ t, inl ({["/app/beta-refinement.json"]} ∪ t)) 0
      "/app" PathSet.threePhases
      {| phase := alpha; phase_success := true; metrics := PathSet.baselineMetrics;
         changes := noChanges; phase_errors := [] |}
      PathSet.intact in
  ∃ r,
    outcome phaseRun = Return r
    ∧ changes r = noChanges
    ∧ treeAfter phaseRun
      = {["/app/beta-refinement.json"]} ∪ ({["/app/beta-metrics.json"]} ∪ PathSet.intact)
    ∧ phase_success r = true.
Proof.
  cbn zeta.
  destruct (beta_changes_nothing (Tree := PathSet.Tree) (λ _, "0")
              (λ _ _, inl {| AlphaPhase.app_success := false; AlphaPhase.jsErrors := [] |})
              (λ _ phase t, (inl tt, {["/app/" +:+ phase +:+ "-metrics.json"]} ∪ t))
              (λ _, "275 KB") (λ _, 0) (λ _, 0)
              (λ _ t, inl ({["/app/beta-refinement.json"]} ∪ t)) 0
              "/app" PathSet.threePhases
              {| phase := alpha; phase_success := true; metrics := PathSet.baselineMetrics;
                 changes := noChanges; phase_errors := [] |}
              PathSet.intact)
    as (r & Hout & _ & Hchanges & _ & Hverdict & _).
  destruct (Hverdict tt _ eq_refl eq_refl) as [Htree Hsuccess].
  exists r. split; [exact Hout|]. split; [exact Hchanges|]. split; [exact Htree|].
  rewrite Hsuccess. vm_compute. reflexivity.
Defined.

End BetaExamples.

